(** * The Dify chat language model adapter: stream translation and request
      construction

    A shallow embedding of [src/dify-chat-language-model.ts] and of the zod
    schemas of [dify-chat-schema.ts], followed by the properties of the
    stream translator (reasoning/answer splitter, workflow ledger, terminal
    parts), of the blocking-mode mapper and of request construction.

    Modelling conventions.
    - A JavaScript value is a [JS.value]; an object is an association list
      in insertion order.  Numbers are integers ([Z]): Dify's timestamps and
      token counters are integral; other doubles are outside the model.
    - A string is a [string]; the only searches made are for ASCII markers,
      for which positions in bytes and in UTF-16 units select the same cuts.
    - [new Date(t * 1000)] is the number of milliseconds [t * 1000].
    - A TypeScript cast [x as T] is no test: the value is stored and passed
      on as the event has it, whatever its type.  Arithmetic on such a value
      is computed when it is a number and kept as the operation on its
      operands otherwise ([JS.arith]).  Only the common fields, which every
      accepted element has at their declared types, are read at a type
      ([JS.as_string], [JS.as_number]).
    - The node ledger is a [Map] in insertion order whose keys are compared
      as [Map] compares them ([JS.same_key]).
    - [controller.enqueue] and the mutation of the stream state are the two
      effects of the transform; they are threaded by the monad [Transform]. *)

From Stdlib Require Import String Ascii List ZArith Bool Lia DecimalString.
Import ListNotations.
Local Open Scope string_scope.
Set Warnings "-register-all".

(* ===================================================================== *)
(** ** JavaScript values, objects and the string operations used *)
(* ===================================================================== *)

Module JS.

Inductive value : Type :=
| VUndef
| VNull
| VBool (b : bool)
| VNum (n : Z)
| VStr (s : string)
| VArr (items : list value)
| VObj (props : list (string * value)).

Definition obj : Type := list (string * value).

(** [Boolean(v)]. *)
Definition truthy (v : value) : bool :=
  match v with
  | VUndef | VNull => false
  | VBool b => b
  | VNum n => negb (n =? 0)%Z
  | VStr s => negb (s =? "")
  | VArr _ | VObj _ => true
  end.

(** [String(v)], as a template literal or [Array.prototype.join] computes
    it. *)
Fixpoint js_to_string (v : value) : string :=
  match v with
  | VUndef => "undefined"
  | VNull => "null"
  | VBool true => "true"
  | VBool false => "false"
  | VNum n => NilZero.string_of_int (Z.to_int n)
  | VStr s => s
  | VArr items =>
      (fix join (l : list value) : string :=
         match l with
         | [] => ""
         | x :: l' =>
             let sx := match x with
                       | VUndef | VNull => ""
                       | _ => js_to_string x
                       end in
             match l' with
             | [] => sx
             | _ :: _ => sx ++ "," ++ join l'
             end
         end) items
  | VObj _ => "[object Object]"
  end.

(** Property tables keyed by strings, in insertion order: lookup, and
    assignment (an existing key keeps its position, a new key goes last). *)
Fixpoint alist_get {A : Type} (k : string) (o : list (string * A))
  : option A :=
  match o with
  | [] => None
  | (k', v) :: o' => if k' =? k then Some v else alist_get k o'
  end.

Fixpoint alist_set {A : Type} (k : string) (v : A) (o : list (string * A))
  : list (string * A) :=
  match o with
  | [] => [(k, v)]
  | (k', v') :: o' =>
      if k' =? k then (k', v) :: o' else (k', v') :: alist_set k v o'
  end.

(** Own-property lookup: [None] when the key is absent ([k in o] is
    false). *)
Definition obj_get (k : string) (o : obj) : option value := alist_get k o.

Definition has_key (k : string) (o : obj) : bool :=
  match obj_get k o with Some _ => true | None => false end.

(** [o.k]: [undefined] when the key is absent. *)
Definition prop (k : string) (o : obj) : value :=
  match obj_get k o with Some v => v | None => VUndef end.

(** [o[k] = v]. *)
Definition obj_set (k : string) (v : value) (o : obj) : obj := alist_set k v o.

(** [{ ...init, ...src }]: the properties of [src] are written over those
    of [init], in order. *)
Definition spread (init src : obj) : obj :=
  fold_left (fun acc kv => obj_set (fst kv) (snd kv) acc) src init.

(** The value as an object for the [in] operator and for property reads:
    [v && typeof v === "object"].  An array passes the test and has none of
    the named keys read here. *)
Definition as_object (v : value) : option obj :=
  match v with
  | VObj o => Some o
  | VArr _ => Some []
  | _ => None
  end.

(** [v?.k] on a value of type [any]. *)
Definition opt_prop (k : string) (v : value) : value :=
  match v with
  | VObj o => prop k o
  | _ => VUndef
  end.

Definition as_string (v : value) : option string :=
  match v with VStr s => Some s | _ => None end.

Definition as_number (v : value) : option Z :=
  match v with VNum n => Some n | _ => None end.

Definition of_string (s : option string) : value :=
  match s with Some x => VStr x | None => VUndef end.

Definition of_number (n : option Z) : value :=
  match n with Some x => VNum x | None => VUndef end.

(** Truthiness of an optional string and of an optional number. *)
Definition truthy_string (s : option string) : bool := truthy (of_string s).
Definition truthy_number (n : option Z) : bool := truthy (of_number n).

(** *** Strings *)

(** The line feed of the markers ['<think>\n'] and ['\n</think>']. *)
Definition LF : string := String (ascii_of_nat 10) EmptyString.

(** [s.indexOf(sub)]: [None] stands for [-1]. *)
Fixpoint indexOf (sub s : string) : option nat :=
  if String.prefix sub s then Some 0
  else match s with
       | EmptyString => None
       | String _ s' => option_map S (indexOf sub s')
       end.

(** [s.includes(sub)]. *)
Definition includes (sub s : string) : bool :=
  match indexOf sub s with Some _ => true | None => false end.

(** [s.substring(start)]. *)
Fixpoint substring_from (start : nat) (s : string) : string :=
  match start, s with
  | O, _ => s
  | S n, String _ s' => substring_from n s'
  | S _, EmptyString => EmptyString
  end.

(** [s.split(sep)] for a non-empty separator.  [skip] counts the characters
    of a separator just matched that are still to be dropped, [cur] is the
    piece being read. *)
Fixpoint split_from (sep : string) (skip : nat) (cur s : string)
  : list string :=
  match s with
  | EmptyString => [cur]
  | String c s' =>
      match skip with
      | S k => split_from sep k cur s'
      | O =>
          if String.prefix sep s
          then cur :: split_from sep (String.length sep - 1) EmptyString s'
          else split_from sep 0 (cur ++ String c EmptyString) s'
      end
  end.

Definition split (sep s : string) : list string :=
  split_from sep 0 EmptyString s.

(** [a[i]] on an array of strings. *)
Definition at_index (i : nat) (a : list string) : option string :=
  nth_error a i.

(** [Array.prototype.join]. *)
Fixpoint join (sep : string) (l : list string) : string :=
  match l with
  | [] => ""
  | [x] => x
  | x :: l' => x ++ sep ++ join sep l'
  end.

(** *** Maps *)

(** The key comparison of a [Map] (SameValueZero) on the values an event
    carries: numbers, strings, booleans, [null] and [undefined] by value; an
    array or object is the same key only as itself, and each event brings
    its own, so two of them are never the same key. *)
Definition same_key (a b : value) : bool :=
  match a, b with
  | VUndef, VUndef | VNull, VNull => true
  | VBool x, VBool y => Bool.eqb x y
  | VNum x, VNum y => (x =? y)%Z
  | VStr x, VStr y => x =? y
  | _, _ => false
  end.

(** [m.get(k)] and [m.set(k, v)] on a [Map], kept in insertion order: an
    existing key keeps its position, a new key goes last. *)
Fixpoint map_get {A : Type} (k : value) (m : list (value * A)) : option A :=
  match m with
  | [] => None
  | (k', v) :: m' => if same_key k' k then Some v else map_get k m'
  end.

Fixpoint map_set {A : Type} (k : value) (v : A) (m : list (value * A))
  : list (value * A) :=
  match m with
  | [] => [(k, v)]
  | (k', v') :: m' =>
      if same_key k' k then (k', v) :: m' else (k', v') :: map_set k v m'
  end.

(** *** Arithmetic on cast values *)

(** A number computed from values that the source casts to [number]
    without a test.  On numbers the result is computed; on any other
    operand JavaScript converts first, and the result is kept as the
    operation on its operands. *)
Inductive arith : Type :=
| Computed (n : Z)
| Product (v : value) (k : Z)
| Difference (b a : value).

(** [v * k] and [b - a]. *)
Definition js_times (v : value) (k : Z) : arith :=
  match v with
  | VNum n => Computed (n * k)
  | _ => Product v k
  end.

Definition js_minus (b a : value) : arith :=
  match b, a with
  | VNum y, VNum x => Computed (y - x)
  | _, _ => Difference b a
  end.

End JS.

Import JS.

(* ===================================================================== *)
(** ** The fragment of zod used by [dify-chat-schema.ts] *)
(* ===================================================================== *)

Module Zod.

Inductive schema : Type :=
| ZString
| ZNumber
| ZAny
| ZUnknown
| ZLiteral (lit : string)
| ZOptional (t : schema)
| ZNullable (t : schema)
| ZArray (t : schema)
| ZRecord (t : schema)
| ZObject (passthrough : bool) (shape : list (string * schema)).

Fixpoint all_some {A : Type} (l : list (option A)) : option (list A) :=
  match l with
  | [] => Some []
  | Some x :: l' => option_map (cons x) (all_some l')
  | None :: _ => None
  end.

Definition in_shape (k : string) (shape : list (string * schema)) : bool :=
  match alist_get k shape with Some _ => true | None => false end.

Definition is_undefined (v : value) : bool :=
  match v with VUndef => true | _ => false end.

(** [t.safeParse(v)]: [Some] of the parsed output, or [None] on a
    validation failure.  An absent property is read as [undefined]; an
    object keeps its declared keys (those defined or present in the input)
    and, in passthrough mode, the undeclared keys of the input after them;
    otherwise the undeclared keys are stripped. *)
Fixpoint parse (t : schema) (v : value) {struct t} : option value :=
  match t with
  | ZString => match v with VStr _ => Some v | _ => None end
  | ZNumber => match v with VNum _ => Some v | _ => None end
  | ZAny | ZUnknown => Some v
  | ZLiteral lit =>
      match v with
      | VStr s => if s =? lit then Some v else None
      | _ => None
      end
  | ZOptional t' =>
      match v with VUndef => Some VUndef | _ => parse t' v end
  | ZNullable t' =>
      match v with VNull => Some VNull | _ => parse t' v end
  | ZArray t' =>
      match v with
      | VArr items => option_map VArr (all_some (map (parse t') items))
      | _ => None
      end
  | ZRecord t' =>
      match v with
      | VObj props =>
          option_map VObj
            (all_some
               (map (fun kv => option_map (pair (fst kv)) (parse t' (snd kv)))
                  props))
      | _ => None
      end
  | ZObject passthrough shape =>
      match v with
      | VObj props =>
          let declared :=
            (fix fields (sh : list (string * schema)) : option obj :=
               match sh with
               | [] => Some []
               | (k, tk) :: sh' =>
                   match parse tk (prop k props), fields sh' with
                   | Some r, Some rs =>
                       Some (if negb (is_undefined r) || has_key k props
                             then (k, r) :: rs else rs)
                   | _, _ => None
                   end
               end) shape in
          match declared with
          | Some known =>
              Some (VObj
                      (known ++
                       (if passthrough
                        then filter (fun kv => negb (in_shape (fst kv) shape))
                               props
                        else []))%list)
          | None => None
          end
      | _ => None
      end
  end.

(** [t.extend(augmentation)]: the shape [{ ...shape, ...augmentation }]. *)
Definition extend (t : schema) (augmentation : list (string * schema))
  : schema :=
  match t with
  | ZObject passthrough shape =>
      ZObject passthrough
        (fold_left (fun acc kt => alist_set (fst kt) (snd kt) acc)
           augmentation shape)
  | _ => t
  end.

(** The literal an option of a discriminated union declares for the
    discriminator key. *)
Definition discriminator (key : string) (t : schema) : option string :=
  match t with
  | ZObject _ shape =>
      match alist_get key shape with
      | Some (ZLiteral lit) => Some lit
      | _ => None
      end
  | _ => None
  end.

Definition has_discriminator (key tag : string) (t : schema) : bool :=
  match discriminator key t with
  | Some lit => lit =? tag
  | None => false
  end.

(** [z.discriminatedUnion(key, options).safeParse(v)]: the input must be an
    object whose discriminator selects one option, which then decides. *)
Definition discriminatedUnion (key : string) (options : list schema)
    (v : value) : option value :=
  match v with
  | VObj props =>
      match prop key props with
      | VStr tag =>
          match find (has_discriminator key tag) options with
          | Some t => parse t v
          | None => None
          end
      | _ => None
      end
  | _ => None
  end.

(** [a.or(b)]: the first of the two that accepts the input. *)
Definition or (a b : value -> option value) (v : value) : option value :=
  match a v with
  | Some r => Some r
  | None => b v
  end.

End Zod.

(* ===================================================================== *)
(** ** [dify-chat-schema.ts] *)
(* ===================================================================== *)

Module Schema.
Import Zod.

Definition object (shape : list (string * schema)) : schema :=
  ZObject false shape.

Definition passthrough (t : schema) : schema :=
  match t with
  | ZObject _ shape => ZObject true shape
  | _ => t
  end.

Definition completionResponseSchema : schema :=
  object
    [ ("id", ZString); ("answer", ZString); ("task_id", ZString);
      ("conversation_id", ZString); ("message_id", ZString);
      ("metadata",
        object
          [ ("usage",
              object
                [ ("completion_tokens", ZNumber); ("prompt_tokens", ZNumber);
                  ("total_tokens", ZNumber) ]) ]) ].

Definition difyStreamEventBase : schema :=
  passthrough
    (object
       [ ("event", ZString);
         ("conversation_id", ZOptional ZString);
         ("message_id", ZOptional ZString);
         ("task_id", ZOptional ZString);
         ("created_at", ZOptional ZNumber) ]).

Definition workflowStartedSchema : schema :=
  extend difyStreamEventBase
    [ ("event", ZLiteral "workflow_started");
      ("workflow_run_id", ZString);
      ("data",
        passthrough
          (object
             [ ("id", ZString); ("workflow_id", ZString);
               ("created_at", ZNumber); ("inputs", ZRecord ZAny) ])) ].

Definition workflowFinishedSchema : schema :=
  extend difyStreamEventBase
    [ ("event", ZLiteral "workflow_finished");
      ("workflow_run_id", ZString);
      ("data",
        passthrough
          (object
             [ ("id", ZString); ("workflow_id", ZString);
               ("total_tokens", ZNumber); ("created_at", ZNumber);
               ("status", ZString); ("outputs", ZRecord ZAny);
               ("error", ZString); ("elapsed_time", ZNumber);
               ("total_steps", ZNumber);
               ("created_by", object [ ("id", ZString); ("user", ZString) ]);
               ("finished_at", ZNumber); ("exceptions_count", ZNumber);
               ("files", ZArray ZAny) ])) ].

Definition nodeStartedSchema : schema :=
  extend difyStreamEventBase
    [ ("event", ZLiteral "node_started");
      ("workflow_run_id", ZString);
      ("data",
        passthrough
          (object
             [ ("id", ZString); ("node_id", ZString); ("node_type", ZString);
               ("title", ZString); ("index", ZNumber);
               ("predecessor_node_id", ZNullable ZString);
               ("inputs", ZNullable (ZRecord ZAny));
               ("created_at", ZNumber); ("extras", ZRecord ZAny);
               ("parallel_id", ZNullable ZString);
               ("parallel_start_node_id", ZNullable ZString);
               ("parent_parallel_id", ZNullable ZString);
               ("parent_parallel_start_node_id", ZNullable ZString);
               ("iteration_id", ZNullable ZString);
               ("loop_id", ZNullable ZString);
               ("parallel_run_id", ZNullable ZString);
               ("agent_strategy", ZNullable ZAny) ])) ].

Definition nodeFinishedSchema : schema :=
  extend difyStreamEventBase
    [ ("event", ZLiteral "node_finished");
      ("workflow_run_id", ZString);
      ("data",
        passthrough
          (object
             [ ("id", ZString); ("node_id", ZString); ("node_type", ZString);
               ("title", ZString); ("index", ZNumber);
               ("predecessor_node_id", ZNullable ZString);
               ("inputs", ZNullable (ZRecord ZAny));
               ("process_data", ZNullable ZAny);
               ("outputs", ZNullable (ZRecord ZAny));
               ("status", ZString); ("error", ZNullable ZString);
               ("elapsed_time", ZNumber);
               ("execution_metadata", ZNullable (ZRecord ZAny));
               ("created_at", ZNumber); ("finished_at", ZNumber);
               ("files", ZArray ZAny);
               ("parallel_id", ZNullable ZString);
               ("parallel_start_node_id", ZNullable ZString);
               ("parent_parallel_id", ZNullable ZString);
               ("parent_parallel_start_node_id", ZNullable ZString);
               ("iteration_id", ZNullable ZString);
               ("loop_id", ZNullable ZString) ])) ].

Definition messageSchema : schema :=
  extend difyStreamEventBase
    [ ("event", ZLiteral "message");
      ("id", ZOptional ZString);
      ("answer", ZString);
      ("from_variable_selector", ZOptional (ZArray ZString)) ].

Definition messageEndSchema : schema :=
  extend difyStreamEventBase
    [ ("event", ZLiteral "message_end");
      ("id", ZString);
      ("metadata",
        passthrough
          (object
             [ ("usage",
                 passthrough
                   (object
                      [ ("prompt_tokens", ZNumber);
                        ("completion_tokens", ZNumber);
                        ("total_tokens", ZNumber);
                        ("prompt_unit_price", ZString);
                        ("prompt_price_unit", ZString);
                        ("prompt_price", ZString);
                        ("completion_unit_price", ZString);
                        ("completion_price_unit", ZString);
                        ("completion_price", ZString);
                        ("total_price", ZString);
                        ("currency", ZString);
                        ("latency", ZNumber) ]));
               ("annotation_reply", ZNullable ZAny);
               ("retriever_resources", ZArray ZAny) ]));
      ("files", ZArray ZAny);
      ("quoteInfo", ZRecord ZAny) ].

Definition ttsMessageSchema : schema :=
  extend difyStreamEventBase
    [ ("event", ZLiteral "tts_message"); ("audio", ZString) ].

Definition ttsMessageEndSchema : schema :=
  extend difyStreamEventBase
    [ ("event", ZLiteral "tts_message_end"); ("audio", ZString) ].

Definition pingSchema : schema :=
  extend difyStreamEventBase [ ("event", ZLiteral "ping") ].

Definition agentMessageSchema : schema :=
  extend difyStreamEventBase
    [ ("event", ZLiteral "agent_message"); ("answer", ZString) ].

Definition agentThoughtSchema : schema :=
  extend difyStreamEventBase
    [ ("event", ZLiteral "agent_thought");
      ("thought", ZString); ("observation", ZString); ("tool", ZString);
      ("tool_labels", ZRecord ZString); ("tool_input", ZString);
      ("message_files", ZArray ZUnknown) ].

(** The options of the discriminated union, in the order of the source. *)
Definition knownEventSchemas : list schema :=
  [ workflowStartedSchema; workflowFinishedSchema; nodeStartedSchema;
    nodeFinishedSchema; messageSchema; messageEndSchema; ttsMessageSchema;
    ttsMessageEndSchema; agentThoughtSchema; agentMessageSchema;
    pingSchema ].

(** The discriminated union with its fallback to the base shape. *)
Definition difyStreamEventSchema : value -> option value :=
  Zod.or (discriminatedUnion "event" knownEventSchemas)
         (parse difyStreamEventBase).

(** The event tags the union knows. *)
Definition knownEvents : list string :=
  [ "workflow_started"; "workflow_finished"; "node_started";
    "node_finished"; "message"; "message_end"; "tts_message";
    "tts_message_end"; "agent_thought"; "agent_message"; "ping" ].

(** The validated event, as the type [DifyStreamEventBase] describes it:
    the common fields at their declared types and, in [rest], every other
    property of the validated object, in order. *)
Record DifyStreamEvent : Type := {
  event : string;
  conversation_id : option string;
  message_id : option string;
  task_id : option string;
  created_at : option Z;
  rest : obj
}.

Definition baseKeys : list string :=
  [ "event"; "conversation_id"; "message_id"; "task_id"; "created_at" ].

Definition is_base_key (k : string) : bool :=
  existsb (String.eqb k) baseKeys.

Definition opt_field (k : string) (v : value) : obj :=
  match v with VUndef => [] | _ => [(k, v)] end.

(** The validated object behind an event: what [...data] spreads. *)
Definition event_obj (e : DifyStreamEvent) : obj :=
  ([("event", VStr (event e))]
   ++ opt_field "conversation_id" (of_string (conversation_id e))
   ++ opt_field "message_id" (of_string (message_id e))
   ++ opt_field "task_id" (of_string (task_id e))
   ++ opt_field "created_at" (of_number (created_at e))
   ++ rest e)%list.

Definition to_event (o : obj) : option DifyStreamEvent :=
  match prop "event" o with
  | VStr tag =>
      Some {| event := tag;
              conversation_id := as_string (prop "conversation_id" o);
              message_id := as_string (prop "message_id" o);
              task_id := as_string (prop "task_id" o);
              created_at := as_number (prop "created_at" o);
              rest := filter (fun kv => negb (is_base_key (fst kv))) o |}
  | _ => None
  end.

(** Why an element of the event stream was rejected. *)
Inductive ParseError : Type :=
| JSONParseError (text : string)
| TypeValidationError (input : value).

(** [ParseResult<DifyStreamEvent>]. *)
Inductive ParseResult : Type :=
| Success (value : DifyStreamEvent)
| Failure (error : ParseError).

(** What the event-source handler yields for one decoded element. *)
Definition safeValidate (v : value) : ParseResult :=
  match difyStreamEventSchema v with
  | Some (VObj o) =>
      match to_event o with
      | Some e => Success e
      | None => Failure (TypeValidationError v)
      end
  | _ => Failure (TypeValidationError v)
  end.

End Schema.

Import Schema.

(* ===================================================================== *)
(** ** [dify-chat-language-model.ts]: the downstream vocabulary *)
(* ===================================================================== *)

(** One node of the workflow ledger.  The id and the type are the values
    of the event, cast without a test; the two timestamps are the top-level
    [created_at] of the events, which the base shape makes a number. *)
Record NodeInfo : Type := {
  nodeId : value;
  nodeType : value;
  startedAt : option Z;
  finishedAt : option Z
}.

(** [{ ...node, duration }]. *)
Record NodeReport : Type := {
  node : NodeInfo;
  duration : option Z
}.

Record ExecutionReport : Type := {
  report_workflowId : value;
  report_workflowRunId : value;
  report_startedAt : value;
  report_finishedAt : value;
  report_duration : option arith;
  report_nodes : list NodeReport
}.

Record Usage : Type := {
  inputTokens : value;
  outputTokens : value;
  totalTokens : value
}.

(** [providerMetadata.difyWorkflowData]. *)
Record DifyWorkflowData : Type := {
  md_conversationId : option string;
  md_messageId : option string;
  md_taskId : option string;
  md_workflowExecution : option ExecutionReport
}.

(** [LanguageModelV2StreamPart], restricted to the parts the translator
    enqueues. *)
Inductive StreamPart : Type :=
| reasoning_start (id : string)
| reasoning_delta (id delta : string)
| reasoning_end (id : string)
| text_start (id : string)
| text_delta (id delta : string)
| text_end (id : string)
| response_metadata (id : value) (timestamp : option arith)
| raw (rawValue : obj)
| finish (finishReason : string) (usage : Usage)
         (providerMetadata : DifyWorkflowData)
| error (err : ParseError).

(* ===================================================================== *)
(** ** The stream state and the transform monad *)
(* ===================================================================== *)

(** [StreamState].  [generated] is not a field of the source: it counts the
    calls made to [this.generateId()], whose n-th result is
    [generateId n]. *)
Record StreamState : Type := {
  conversationId : option string;
  messageId : option string;
  taskId : option string;
  isInThinking : bool;
  reasoningId : string;
  workflowId : value;
  workflowRunId : value;
  workflowStartedAt : value;
  workflowFinishedAt : value;
  nodes : list (value * NodeInfo);
  isActiveText : bool;
  isActiveReasoning : bool;
  generated : nat
}.

Definition initialState : StreamState :=
  {| conversationId := None; messageId := None; taskId := None;
     isInThinking := false; reasoningId := "";
     workflowId := VUndef; workflowRunId := VUndef;
     workflowStartedAt := VUndef; workflowFinishedAt := VUndef;
     nodes := [];
     isActiveText := false; isActiveReasoning := false;
     generated := 0 |}.

Definition set_conversationId (v : option string) (s : StreamState) :=
  {| conversationId := v; messageId := messageId s; taskId := taskId s;
     isInThinking := isInThinking s; reasoningId := reasoningId s;
     workflowId := workflowId s; workflowRunId := workflowRunId s;
     workflowStartedAt := workflowStartedAt s;
     workflowFinishedAt := workflowFinishedAt s; nodes := nodes s;
     isActiveText := isActiveText s;
     isActiveReasoning := isActiveReasoning s; generated := generated s |}.

Definition set_messageId (v : option string) (s : StreamState) :=
  {| conversationId := conversationId s; messageId := v; taskId := taskId s;
     isInThinking := isInThinking s; reasoningId := reasoningId s;
     workflowId := workflowId s; workflowRunId := workflowRunId s;
     workflowStartedAt := workflowStartedAt s;
     workflowFinishedAt := workflowFinishedAt s; nodes := nodes s;
     isActiveText := isActiveText s;
     isActiveReasoning := isActiveReasoning s; generated := generated s |}.

Definition set_taskId (v : option string) (s : StreamState) :=
  {| conversationId := conversationId s; messageId := messageId s;
     taskId := v;
     isInThinking := isInThinking s; reasoningId := reasoningId s;
     workflowId := workflowId s; workflowRunId := workflowRunId s;
     workflowStartedAt := workflowStartedAt s;
     workflowFinishedAt := workflowFinishedAt s; nodes := nodes s;
     isActiveText := isActiveText s;
     isActiveReasoning := isActiveReasoning s; generated := generated s |}.

Definition set_isInThinking (v : bool) (s : StreamState) :=
  {| conversationId := conversationId s; messageId := messageId s;
     taskId := taskId s;
     isInThinking := v; reasoningId := reasoningId s;
     workflowId := workflowId s; workflowRunId := workflowRunId s;
     workflowStartedAt := workflowStartedAt s;
     workflowFinishedAt := workflowFinishedAt s; nodes := nodes s;
     isActiveText := isActiveText s;
     isActiveReasoning := isActiveReasoning s; generated := generated s |}.

Definition set_reasoningId (v : string) (s : StreamState) :=
  {| conversationId := conversationId s; messageId := messageId s;
     taskId := taskId s;
     isInThinking := isInThinking s; reasoningId := v;
     workflowId := workflowId s; workflowRunId := workflowRunId s;
     workflowStartedAt := workflowStartedAt s;
     workflowFinishedAt := workflowFinishedAt s; nodes := nodes s;
     isActiveText := isActiveText s;
     isActiveReasoning := isActiveReasoning s; generated := generated s |}.

Definition set_workflowId (v : value) (s : StreamState) :=
  {| conversationId := conversationId s; messageId := messageId s;
     taskId := taskId s;
     isInThinking := isInThinking s; reasoningId := reasoningId s;
     workflowId := v; workflowRunId := workflowRunId s;
     workflowStartedAt := workflowStartedAt s;
     workflowFinishedAt := workflowFinishedAt s; nodes := nodes s;
     isActiveText := isActiveText s;
     isActiveReasoning := isActiveReasoning s; generated := generated s |}.

Definition set_workflowRunId (v : value) (s : StreamState) :=
  {| conversationId := conversationId s; messageId := messageId s;
     taskId := taskId s;
     isInThinking := isInThinking s; reasoningId := reasoningId s;
     workflowId := workflowId s; workflowRunId := v;
     workflowStartedAt := workflowStartedAt s;
     workflowFinishedAt := workflowFinishedAt s; nodes := nodes s;
     isActiveText := isActiveText s;
     isActiveReasoning := isActiveReasoning s; generated := generated s |}.

Definition set_workflowStartedAt (v : value) (s : StreamState) :=
  {| conversationId := conversationId s; messageId := messageId s;
     taskId := taskId s;
     isInThinking := isInThinking s; reasoningId := reasoningId s;
     workflowId := workflowId s; workflowRunId := workflowRunId s;
     workflowStartedAt := v;
     workflowFinishedAt := workflowFinishedAt s; nodes := nodes s;
     isActiveText := isActiveText s;
     isActiveReasoning := isActiveReasoning s; generated := generated s |}.

Definition set_workflowFinishedAt (v : value) (s : StreamState) :=
  {| conversationId := conversationId s; messageId := messageId s;
     taskId := taskId s;
     isInThinking := isInThinking s; reasoningId := reasoningId s;
     workflowId := workflowId s; workflowRunId := workflowRunId s;
     workflowStartedAt := workflowStartedAt s;
     workflowFinishedAt := v; nodes := nodes s;
     isActiveText := isActiveText s;
     isActiveReasoning := isActiveReasoning s; generated := generated s |}.

Definition set_nodes (v : list (value * NodeInfo)) (s : StreamState) :=
  {| conversationId := conversationId s; messageId := messageId s;
     taskId := taskId s;
     isInThinking := isInThinking s; reasoningId := reasoningId s;
     workflowId := workflowId s; workflowRunId := workflowRunId s;
     workflowStartedAt := workflowStartedAt s;
     workflowFinishedAt := workflowFinishedAt s; nodes := v;
     isActiveText := isActiveText s;
     isActiveReasoning := isActiveReasoning s; generated := generated s |}.

Definition set_isActiveText (v : bool) (s : StreamState) :=
  {| conversationId := conversationId s; messageId := messageId s;
     taskId := taskId s;
     isInThinking := isInThinking s; reasoningId := reasoningId s;
     workflowId := workflowId s; workflowRunId := workflowRunId s;
     workflowStartedAt := workflowStartedAt s;
     workflowFinishedAt := workflowFinishedAt s; nodes := nodes s;
     isActiveText := v;
     isActiveReasoning := isActiveReasoning s; generated := generated s |}.

Definition set_isActiveReasoning (v : bool) (s : StreamState) :=
  {| conversationId := conversationId s; messageId := messageId s;
     taskId := taskId s;
     isInThinking := isInThinking s; reasoningId := reasoningId s;
     workflowId := workflowId s; workflowRunId := workflowRunId s;
     workflowStartedAt := workflowStartedAt s;
     workflowFinishedAt := workflowFinishedAt s; nodes := nodes s;
     isActiveText := isActiveText s;
     isActiveReasoning := v; generated := generated s |}.

Definition set_generated (v : nat) (s : StreamState) :=
  {| conversationId := conversationId s; messageId := messageId s;
     taskId := taskId s;
     isInThinking := isInThinking s; reasoningId := reasoningId s;
     workflowId := workflowId s; workflowRunId := workflowRunId s;
     workflowStartedAt := workflowStartedAt s;
     workflowFinishedAt := workflowFinishedAt s; nodes := nodes s;
     isActiveText := isActiveText s;
     isActiveReasoning := isActiveReasoning s; generated := v |}.

(** A computation of the transform: it reads and updates the stream state
    and enqueues parts on the controller. *)
Definition Transform (A : Type) : Type :=
  StreamState -> A * StreamState * list StreamPart.

Definition ret {A : Type} (x : A) : Transform A :=
  fun s => (x, s, []).

Definition bind {A B : Type} (m : Transform A) (f : A -> Transform B)
  : Transform B :=
  fun s =>
    let '(x, s1, out1) := m s in
    let '(y, s2, out2) := f x s1 in
    (y, s2, (out1 ++ out2)%list).

Declare Scope transform_scope.
Delimit Scope transform_scope with transform.
Notation "x <- m ;; k" := (bind m (fun x => k))
  (at level 61, m at next level, right associativity) : transform_scope.
Notation "m ;; k" := (bind m (fun _ => k))
  (at level 61, right associativity) : transform_scope.
Local Open Scope transform_scope.

Definition get : Transform StreamState := fun s => (s, s, []).

Definition modify (f : StreamState -> StreamState) : Transform unit :=
  fun s => (tt, f s, []).

(** [controller.enqueue(part)]. *)
Definition enqueue (part : StreamPart) : Transform unit :=
  fun s => (tt, s, [part]).

Definition when (b : bool) (m : Transform unit) : Transform unit :=
  if b then m else ret tt.

(** The state a computation leaves and the parts it enqueues. *)
Definition stateAfter {A : Type} (m : Transform A) (s : StreamState)
  : StreamState := snd (fst (m s)).

Definition enqueued {A : Type} (m : Transform A) (s : StreamState)
  : list StreamPart := snd (m s).

(* ===================================================================== *)
(** ** The model object *)
(* ===================================================================== *)

(** Modelled from the spec: the settings type of [dify-chat-settings.ts],
    which is not among the sources.  The two settings that the methods
    read: the extra inputs and the default response mode. *)
Record DifyChatSettings : Type := {
  inputs : option obj;
  responseMode : option string
}.

Record ModelConfig : Type := {
  provider : string;
  baseURL : string
}.

(** The fields of [DifyChatLanguageModel] that the methods read.
    [generateId] is the id generator of the provider utilities, given as the
    sequence of the ids it returns. *)
Record DifyChatLanguageModel : Type := {
  modelId : string;
  settings : DifyChatSettings;
  config : ModelConfig;
  generateId : nat -> string
}.

(** The constructor: a missing response mode defaults to ["streaming"]. *)
Definition newDifyChatLanguageModel (id : string) (st : DifyChatSettings)
    (cfg : ModelConfig) (gen : nat -> string) : DifyChatLanguageModel :=
  {| modelId := id;
     settings :=
       {| inputs := inputs st;
          responseMode :=
            if truthy_string (responseMode st) then responseMode st
            else Some "streaming" |};
     config := cfg;
     generateId := gen |}.

Definition chatMessagesEndpoint (self : DifyChatLanguageModel) : string :=
  baseURL (config self).

(* ===================================================================== *)
(** ** [doStream]: the reasoning/answer splitter *)
(* ===================================================================== *)

Definition thinkStart : string := "<think>" ++ LF.
Definition thinkEnd : string := LF ++ "</think>".

(** [s.indexOf(sub)] as a number, [-1] when absent, and [s.substring(n)]
    for such a number. *)
Definition indexOfZ (sub s : string) : Z :=
  match indexOf sub s with
  | Some i => Z.of_nat i
  | None => (-1)%Z
  end.

Definition substringZ (start : Z) (s : string) : string :=
  substring_from (Z.to_nat start) s.

Definition nonEmpty (s : string) : bool := negb (s =? "").

Section Stream.

Variable self : DifyChatLanguageModel.

(** [this.generateId()]. *)
Definition freshId : Transform string :=
  fun s => (generateId self (generated s),
            set_generated (S (generated s)) s, []).

Definition parseContentWithThinking (newContent : string)
  : Transform unit :=
  state <- get ;;
  if includes thinkStart newContent && negb (isInThinking state) then
    modify (set_isInThinking true) ;;
    id <- freshId ;;
    modify (set_reasoningId id) ;;
    modify (set_isActiveReasoning true) ;;
    state <- get ;;
    enqueue (reasoning_start (reasoningId state)) ;;
    let thinkStartIndex := indexOfZ thinkStart newContent in
    let contentAfterThink :=
      substringZ (thinkStartIndex + Z.of_nat (String.length thinkStart))
        newContent in
    when (nonEmpty contentAfterThink)
      (enqueue (reasoning_delta (reasoningId state) contentAfterThink))
  else if isInThinking state then
    if includes thinkEnd newContent then
      let parts := split thinkEnd newContent in
      let reasoningPart :=
        match at_index 0 parts with Some p => p | None => "" end in
      let textPart :=
        match at_index 1 parts with Some p => p | None => "" end in
      when (nonEmpty reasoningPart)
        (enqueue (reasoning_delta (reasoningId state) reasoningPart)) ;;
      enqueue (reasoning_end (reasoningId state)) ;;
      modify (set_isInThinking false) ;;
      modify (set_isActiveReasoning false) ;;
      when (nonEmpty textPart)
        (modify (set_isActiveText true) ;;
         enqueue (text_start "answer") ;;
         enqueue (text_delta "answer" textPart))
    else
      enqueue (reasoning_delta (reasoningId state) newContent)
  else
    when (negb (isActiveText state))
      (modify (set_isActiveText true) ;;
       enqueue (text_start "answer")) ;;
    enqueue (text_delta "answer" newContent).


(** *** The workflow ledger and the execution report *)

(** [new Date(t * 1000)] on an optional number, and on a value cast to
    [number]. *)
Definition dateOfSeconds (t : option Z) : option arith :=
  option_map (fun x => Computed (x * 1000)) t.

Definition dateOfCast (seconds : value) : option arith :=
  Some (js_times seconds 1000).

(** [from && to ? to - from : undefined] on two optional timestamps, and
    on two values cast to [number]. *)
Definition elapsed (from to : option Z) : option Z :=
  match from, to with
  | Some a, Some b =>
      if truthy_number from && truthy_number to then Some (b - a)%Z
      else None
  | _, _ => None
  end.

Definition elapsedCast (from to : value) : option arith :=
  if truthy from && truthy to then Some (js_minus to from) else None.

(** The report built in the [workflow_finished] case. *)
Definition executionReport_workflow_finished (state : StreamState)
  : option ExecutionReport :=
  if truthy (workflowId state) then
    Some {| report_workflowId := workflowId state;
            report_workflowRunId := workflowRunId state;
            report_startedAt := workflowStartedAt state;
            report_finishedAt := workflowFinishedAt state;
            report_duration :=
              elapsedCast (workflowStartedAt state)
                (workflowFinishedAt state);
            report_nodes :=
              map (fun entry : value * NodeInfo =>
                     let node := snd entry in
                     {| node := node;
                        duration :=
                          elapsed (startedAt node) (finishedAt node) |})
                  (nodes state) |}
  else None.

(** The report built in the [message_end] case. *)
Definition executionReport_message_end (state : StreamState)
  : option ExecutionReport :=
  if truthy (workflowId state) then
    Some {| report_workflowId := workflowId state;
            report_workflowRunId := workflowRunId state;
            report_startedAt := workflowStartedAt state;
            report_finishedAt := workflowFinishedAt state;
            report_duration :=
              elapsedCast (workflowStartedAt state)
                (workflowFinishedAt state);
            report_nodes :=
              map (fun entry : value * NodeInfo =>
                     let node := snd entry in
                     {| node := node;
                        duration :=
                          elapsed (startedAt node) (finishedAt node) |})
                  (nodes state) |}
  else None.

(** *** The per-event cases of the transform *)

(** A property of the event other than the common fields. *)
Definition field (k : string) (data : DifyStreamEvent) : option value :=
  obj_get k (rest data).

(** [data.data], when [data.data && typeof data.data === "object"]. *)
Definition payload (data : DifyStreamEvent) : option obj :=
  match field "data" data with
  | Some v => as_object v
  | None => None
  end.

(** [data.workflow_run_id as string]: the cast is no test, the value is
    taken as the event has it. *)
Definition workflow_run_id (data : DifyStreamEvent) : value :=
  prop "workflow_run_id" (rest data).

(** [{ difyEvent: tag, ...extra, ...data }]. *)
Definition rawEvent (tag : string) (extra : obj) (data : DifyStreamEvent)
  : StreamPart :=
  raw (spread (("difyEvent", VStr tag) :: extra) (event_obj data)).

Definition case_workflow_started (data : DifyStreamEvent) : Transform unit :=
  match payload data with
  | Some d =>
      when (has_key "workflow_id" d && has_key "created_at" d)
        (modify (set_workflowId (prop "workflow_id" d)) ;;
         modify (set_workflowRunId (workflow_run_id data)) ;;
         modify (set_workflowStartedAt (prop "created_at" d)))
  | None => ret tt
  end ;;
  match payload data with
  | Some d =>
      when (has_key "created_at" d)
        (enqueue (response_metadata (workflow_run_id data)
                    (dateOfCast (prop "created_at" d))))
  | None => ret tt
  end ;;
  enqueue (rawEvent "workflow_started" [] data).

Definition case_workflow_finished (data : DifyStreamEvent)
  : Transform unit :=
  match payload data with
  | Some d =>
      when (has_key "finished_at" d)
        (modify (set_workflowFinishedAt (prop "finished_at" d)) ;;
         enqueue (response_metadata (workflow_run_id data)
                    (dateOfCast (prop "finished_at" d))))
  | None => ret tt
  end ;;
  enqueue
    (rawEvent "workflow_finished"
       [("duration",
          match payload data with
          | Some d =>
              if has_key "elapsed_time" d then prop "elapsed_time" d
              else VUndef
          | None => VUndef
          end)]
       data) ;;
  state <- get ;;
  let executionReport := executionReport_workflow_finished state in
  let totalTokens :=
    match payload data with
    | Some d =>
        match obj_get "total_tokens" d with
        | Some (VNum n) => n
        | _ => 0%Z
        end
    | None => 0%Z
    end in
  enqueue
    (finish "stop"
       {| inputTokens := VNum 0;
          outputTokens := VNum totalTokens;
          totalTokens := VNum totalTokens |}
       {| md_conversationId := conversationId state;
          md_messageId := messageId state;
          md_taskId := taskId state;
          md_workflowExecution := executionReport |}).

Definition case_node_started (data : DifyStreamEvent) : Transform unit :=
  match payload data with
  | Some d =>
      when (has_key "node_id" d && has_key "node_type" d
            && truthy_number (created_at data))
        (let nodeInfo :=
           {| nodeId := prop "node_id" d; nodeType := prop "node_type" d;
              startedAt := created_at data; finishedAt := None |} in
         state <- get ;;
         modify (set_nodes
                   (map_set (prop "node_id" d) nodeInfo (nodes state))) ;;
         enqueue
           (response_metadata
              (VStr ("node-" ++ js_to_string (prop "node_id" d)))
              (dateOfSeconds (created_at data))))
  | None => ret tt
  end ;;
  enqueue (rawEvent "node_started" [] data).

(** The first half of the [node_finished] case: the ledger update and the
    response-metadata part; it returns [existingNode]. *)
Definition lookupAndFinishNode (data : DifyStreamEvent)
  : Transform (option NodeInfo) :=
  match payload data with
  | Some d =>
      if has_key "node_id" d && truthy_number (created_at data) then
        state <- get ;;
        let existingNode := map_get (prop "node_id" d) (nodes state) in
        match existingNode with
        | Some n =>
            modify
              (set_nodes
                 (map_set (prop "node_id" d)
                    {| nodeId := nodeId n; nodeType := nodeType n;
                       startedAt := startedAt n;
                       finishedAt := created_at data |}
                    (nodes state)))
        | None => ret tt
        end ;;
        enqueue
          (response_metadata
             (VStr ("node-" ++ js_to_string (prop "node_id" d)))
             (dateOfSeconds (created_at data))) ;;
        ret existingNode
      else ret None
  | None => ret None
  end.

Definition case_node_finished (data : DifyStreamEvent) : Transform unit :=
  existingNode <- lookupAndFinishNode data ;;
  enqueue
    (rawEvent "node_finished"
       [("duration",
          match existingNode with
          | Some n =>
              of_number (elapsed (startedAt n) (created_at data))
          | None => VUndef
          end)]
       data).

Definition case_agent_thought (data : DifyStreamEvent) : Transform unit :=
  match field "id" data with
  | Some (VStr id) =>
      when (truthy_number (created_at data))
        (enqueue (response_metadata (VStr id)
                    (dateOfSeconds (created_at data))))
  | _ => ret tt
  end ;;
  enqueue (rawEvent "agent_thought" [] data).

Definition case_message (data : DifyStreamEvent) : Transform unit :=
  match field "answer" data with
  | Some (VStr answer) =>
      parseContentWithThinking answer ;;
      if event data =? "agent_message" then
        match field "id" data with
        | Some (VStr id) =>
            enqueue
              (response_metadata (VStr id)
                 (if truthy_number (created_at data)
                  then dateOfSeconds (created_at data) else None))
        | _ => ret tt
        end
      else ret tt
  | _ => ret tt
  end.

Definition case_message_end (data : DifyStreamEvent) : Transform unit :=
  state <- get ;;
  when (isActiveText state)
    (enqueue (text_end "answer") ;;
     modify (set_isActiveText false)) ;;
  let usage :=
    match field "metadata" data with
    | Some m =>
        match as_object m with
        | Some mo => if has_key "usage" mo then prop "usage" mo else VUndef
        | None => VUndef
        end
    | None => VUndef
    end in
  let dataTokens :=
    match payload data with
    | Some d =>
        match obj_get "total_tokens" d with
        | Some (VNum n) => Some n
        | _ => None
        end
    | None => None
    end in
  let outputTokens :=
    match dataTokens with Some n => n | None => 0%Z end in
  let totalTokens :=
    match dataTokens with
    | Some n => VNum n
    | None => opt_prop "total_tokens" usage
    end in
  state <- get ;;
  let executionReport := executionReport_message_end state in
  enqueue
    (finish "stop"
       {| inputTokens := opt_prop "prompt_tokens" usage;
          outputTokens := VNum outputTokens;
          totalTokens := totalTokens |}
       {| md_conversationId := conversationId state;
          md_messageId := messageId state;
          md_taskId := taskId state;
          md_workflowExecution := executionReport |}).

Definition case_default (data : DifyStreamEvent) : Transform unit :=
  enqueue (rawEvent (event data) [] data).

(** *** [transform(chunk, controller)] *)

(** "Store conversation/message IDs for metadata". *)
Definition storeIds (data : DifyStreamEvent) : Transform unit :=
  when (truthy_string (conversation_id data))
    (modify (set_conversationId (conversation_id data))) ;;
  when (truthy_string (message_id data))
    (modify (set_messageId (message_id data))) ;;
  when (truthy_string (task_id data))
    (modify (set_taskId (task_id data))).

(** [switch (data.event)]. *)
Definition dispatch (data : DifyStreamEvent) : Transform unit :=
  if event data =? "workflow_started" then case_workflow_started data
  else if event data =? "workflow_finished" then case_workflow_finished data
  else if event data =? "node_started" then case_node_started data
  else if event data =? "node_finished" then case_node_finished data
  else if event data =? "agent_thought" then case_agent_thought data
  else if (event data =? "message") || (event data =? "agent_message")
  then case_message data
  else if event data =? "message_end" then case_message_end data
  else case_default data.

Definition transform (chunk : ParseResult) : Transform unit :=
  match chunk with
  | Failure err => enqueue (error err)
  | Success data => storeIds data ;; dispatch data
  end.

(** The whole stream: the transform applied to each chunk in turn, on the
    state of one [doStream] call. *)
Fixpoint pipeThrough (chunks : list ParseResult) : Transform unit :=
  match chunks with
  | [] => ret tt
  | chunk :: chunks' => transform chunk ;; pipeThrough chunks'
  end.

(** The parts of the stream that [doStream] returns. *)
Definition streamParts (chunks : list ParseResult) : list StreamPart :=
  enqueued (pipeThrough chunks) initialState.

End Stream.

(** [extractThinkingContent(buffer)].  The regular expression
    [/<think>\n(.*?)(?:\n<\/think>|$)/s] matches at the first begin marker;
    its lazy group is the text that follows, up to the first end marker or
    to the end of the buffer. *)
Fixpoint textBefore (sep s : string) : string :=
  if String.prefix sep s then EmptyString
  else match s with
       | EmptyString => EmptyString
       | String c s' => String c (textBefore sep s')
       end.

Definition extractThinkingContent (buffer : string) : string :=
  match indexOf thinkStart buffer with
  | Some i =>
      textBefore thinkEnd
        (substring_from (i + String.length thinkStart) buffer)
  | None => ""
  end.

(* ===================================================================== *)
(** ** Request construction and the blocking path *)
(* ===================================================================== *)

Module Request.

(** The content of a prompt message: a string, an array of parts, or
    anything else. *)
Inductive MessageContent : Type :=
| ContentString (text : string)
| ContentArray (parts : list value)
| ContentOther.

Record Message : Type := {
  role : string;
  content : MessageContent
}.

(** [LanguageModelV2CallOptions], with the [messages] property that the
    source also accepts. *)
Record CallOptions : Type := {
  prompt : option (list Message);
  messages : option (list Message);
  headers : option obj
}.

(** What an [APICallError] reports as [requestBodyValues]. *)
Inductive RequestBodyValues : Type :=
| OffendingOptions (options : CallOptions)
| LatestMessageRole (latestMessageRole : string)
| HasAttachments (hasAttachments : bool).

Record APICallError : Type := {
  message : string;
  url : string;
  requestBodyValues : RequestBodyValues
}.

Record RequestBody : Type := {
  body_inputs : obj;
  query : string;
  response_mode : option string;
  conversation_id : value;
  user : value
}.

(** The predicate of [content.some]: an object part whose [type] is
    ["file"]. *)
Definition isFilePart (part : value) : bool :=
  match part with
  | VStr _ => false
  | _ =>
      match as_object part with
      | Some o =>
          has_key "type" o
          && match prop "type" o with VStr t => t =? "file" | _ => false end
      | None => false
      end
  end.

Definition hasAttachments_of (c : MessageContent) : bool :=
  match c with
  | ContentArray parts => existsb isFilePart parts
  | _ => false
  end.

(** The callback of [content.map]. *)
Definition partText (part : value) : value :=
  match part with
  | VStr _ => part
  | _ =>
      match as_object part with
      | Some o =>
          if has_key "type" o
             && match prop "type" o with VStr t => t =? "text" | _ => false end
             && has_key "text" o
          then prop "text" o
          else VStr ""
      | None => VStr ""
      end
  end.

Definition queryOf (c : MessageContent) : string :=
  match c with
  | ContentString text => text
  | ContentArray parts =>
      JS.join " " (map js_to_string (filter truthy (map partText parts)))
  | ContentOther => ""
  end.

(** [h?.[k]]. *)
Definition header (k : string) (h : option obj) : value :=
  match h with Some o => prop k o | None => VUndef end.

(** [a ?? b]. *)
Definition nullish (a b : value) : value :=
  match a with VUndef | VNull => b | _ => a end.

Section Model.

Variable self : DifyChatLanguageModel.

(** [getRequestBody(options)]: the error thrown, or the request body
    together with the options as the call leaves them (the two routing
    headers removed). *)
Definition getRequestBody (options : CallOptions)
  : APICallError + RequestBody * CallOptions :=
  let messages :=
    match prompt options with
    | Some p => Some p
    | None => messages options
    end in
  match messages with
  | None | Some [] =>
      inl {| message := "No messages provided";
             url := chatMessagesEndpoint self;
             requestBodyValues := OffendingOptions options |}
  | Some (m :: ms) =>
      let latestMessage := last ms m in
      if negb (role latestMessage =? "user") then
        inl {| message := "The last message must be a user message";
               url := chatMessagesEndpoint self;
               requestBodyValues := LatestMessageRole (role latestMessage) |}
      else if hasAttachments_of (content latestMessage) then
        inl {| message :=
                 "Dify provider does not currently support file attachments";
               url := chatMessagesEndpoint self;
               requestBodyValues := HasAttachments true |}
      else
        let query := queryOf (content latestMessage) in
        let conversationId := header "chat-id" (headers options) in
        let userId :=
          nullish (header "user-id" (headers options))
                  (VStr "you_should_pass_user-id") in
        let cleanHeaders :=
          filter (fun kv => negb ((fst kv =? "chat-id")
                                  || (fst kv =? "user-id")))
            (match headers options with Some h => h | None => [] end) in
        inr ({| body_inputs :=
                  match inputs (settings self) with
                  | Some i => i
                  | None => []
                  end;
                query := query;
                response_mode := responseMode (settings self);
                conversation_id := conversationId;
                user := userId |},
             {| prompt := prompt options;
                messages := Request.messages options;
                headers := Some cleanHeaders |})
  end.

(** *** [doGenerate] *)

(** [z.infer<typeof completionResponseSchema>]. *)
Record CompletionResponse : Type := {
  id : string;
  answer : string;
  task_id : string;
  response_conversation_id : string;
  message_id : string;
  completion_tokens : Z;
  prompt_tokens : Z;
  total_tokens : Z
}.

Inductive Content : Type :=
| TextContent (text : string).

Record GenerateResult : Type := {
  result_content : list Content;
  finishReason : string;
  result_usage : Usage;
  result_conversationId : value;
  result_messageId : value;
  request_body : RequestBody;
  response_id : string;
  response_headers : obj
}.

(** The network: what [postJsonToApi] answers to a request body, an error
    thrown by the failed-response handler or the validated response with
    its headers. *)
Variable postJsonToApi : RequestBody -> APICallError + obj * CompletionResponse.

(** The result built from the validated response. *)
Definition mapResponse (requestBody : RequestBody) (responseHeaders : obj)
    (typedData : CompletionResponse) : GenerateResult :=
  let content :=
    if nonEmpty (answer typedData)
    then [TextContent (answer typedData)] else [] in
  {| result_content := content;
     finishReason := "stop";
     result_usage :=
       {| inputTokens := VNum (prompt_tokens typedData);
          outputTokens := VNum (completion_tokens typedData);
          totalTokens := VNum (total_tokens typedData) |};
     result_conversationId := VStr (response_conversation_id typedData);
     result_messageId := VStr (message_id typedData);
     request_body := requestBody;
     response_id := id typedData;
     response_headers := responseHeaders |}.

(** The event stream the network answers to a streaming request. *)
Variable postEventStream : RequestBody -> APICallError + list ParseResult.

(** [doStream(options)]: the requests sent to the network, and the error
    thrown or the parts of the returned stream. *)
Definition doStream (options : CallOptions)
  : list RequestBody * (APICallError + list StreamPart) :=
  match getRequestBody options with
  | inl err => ([], inl err)
  | inr (requestBody, _) =>
      let body :=
        {| body_inputs := body_inputs requestBody;
           query := query requestBody;
           response_mode := Some "streaming";
           conversation_id := conversation_id requestBody;
           user := user requestBody |} in
      match postEventStream body with
      | inl err => ([body], inl err)
      | inr responseStream => ([body], inr (streamParts self responseStream))
      end
  end.

(** [doGenerate(options)]: the requests sent to the network, and the error
    thrown or the result returned. *)
Definition doGenerate (options : CallOptions)
  : list RequestBody * (APICallError + GenerateResult) :=
  match getRequestBody options with
  | inl err => ([], inl err)
  | inr (requestBody, _) =>
      match postJsonToApi requestBody with
      | inl err => ([requestBody], inl err)
      | inr (responseHeaders, typedData) =>
          ([requestBody],
           inr (mapResponse requestBody responseHeaders typedData))
      end
  end.

End Model.

(** *** What the statements about requests speak of *)

(** The message list the call was given: [options.prompt], else
    [options.messages], empty when absent. *)
Definition suppliedMessages (options : CallOptions) : list Message :=
  match prompt options with
  | Some p => p
  | None => match messages options with Some m => m | None => [] end
  end.

(** The message holds a content part that is an object of type "file". *)
Definition containsFilePart (m : Message) : Prop :=
  exists parts part props,
    content m = ContentArray parts
    /\ In part parts
    /\ part = VObj props
    /\ obj_get "type" props = Some (VStr "file").

(** The three causes of a construction error. *)
Definition rejected (options : CallOptions) : Prop :=
  suppliedMessages options = []
  \/ exists ms m,
       suppliedMessages options = (ms ++ [m])%list
       /\ (role m <> "user" \/ containsFilePart m).

(** A call with one user message, the body built from it, and a response
    whose answer is empty. *)
Definition helloOptions : CallOptions :=
  {| prompt := Some [ {| role := "user"; content := ContentString "Hello" |} ];
     messages := None;
     headers := Some [("user-id", VStr "test-user")] |}.

Definition helloBody : RequestBody :=
  {| body_inputs := []; query := "Hello";
     response_mode := Some "streaming";
     conversation_id := VUndef; user := VStr "test-user" |}.

Definition emptyAnswer : CompletionResponse :=
  {| id := "r1"; answer := ""; task_id := "t1";
     response_conversation_id := "c1"; message_id := "m1";
     completion_tokens := 0; prompt_tokens := 5; total_tokens := 5 |}.

End Request.

(* ===================================================================== *)
(** ** Notions and data of the statements *)
(* ===================================================================== *)

(** *** Kinds of parts and of stream elements *)

Definition isFinish (p : StreamPart) : bool :=
  match p with finish _ _ _ => true | _ => false end.


Definition isResponseMetadata (p : StreamPart) : bool :=
  match p with response_metadata _ _ => true | _ => false end.



Definition isFailure (chunk : ParseResult) : bool :=
  match chunk with
  | Success _ => false
  | Failure _ => true
  end.



(** *** Identifiers *)

(** A finish part carries the identifiers stored in [s] and the reason
    "stop"; the predicate holds of every other part. *)
Definition carriesIdsOf (s : StreamState) (p : StreamPart) : Prop :=
  match p with
  | finish reason _ md =>
      reason = "stop"
      /\ md_conversationId md = conversationId s
      /\ md_messageId md = messageId s
      /\ md_taskId md = taskId s
  | _ => True
  end.

(** The values an identifier field takes on the validated events of a
    stream, in order. *)
Definition idsSeen (id : DifyStreamEvent -> option string)
    (chunks : list ParseResult) : list (option string) :=
  flat_map (fun chunk =>
              match chunk with
              | Success data => [id data]
              | Failure _ => []
              end) chunks.

(** The first and the last non-empty value of a sequence. *)
Fixpoint firstNonEmpty (ids : list (option string)) : option string :=
  match ids with
  | [] => None
  | id :: ids' => if truthy_string id then id else firstNonEmpty ids'
  end.

Definition lastNonEmpty (ids : list (option string)) : option string :=
  firstNonEmpty (rev ids).

(** The identifier stored after [ids] have been seen in turn, from a store
    holding [stored]. *)
Definition latest (stored : option string) (ids : list (option string))
  : option string :=
  match lastNonEmpty ids with
  | Some id => Some id
  | None => stored
  end.

(** *** Durations and the ledger *)

(** The duration the code derives from two optional timestamps, without
    the truthiness tests: finished - started when both are stored and
    neither is zero, which JavaScript takes for absent. *)
Definition durationOf (started finished : option Z) : option Z :=
  match started, finished with
  | Some a, Some b =>
      if (a =? 0)%Z || (b =? 0)%Z then None else Some (b - a)%Z
  | _, _ => None
  end.

(** The same for the two timestamps of the workflow, which are stored as
    the events have them: between two numbers the difference is computed;
    a timestamp that is no number counts as stored when JavaScript takes it
    for true, and the difference is then the subtraction of JavaScript on
    the two values. *)
Definition workflowDurationOf (started finished : value) : option arith :=
  match started, finished with
  | VNum a, VNum b =>
      if (a =? 0)%Z || (b =? 0)%Z then None else Some (Computed (b - a))
  | _, _ =>
      if truthy started && truthy finished
      then Some (Difference finished started) else None
  end.

(** The execution report a finish part carries, if any; [None] for the
    other parts. *)
Definition reportOn (p : StreamPart) : option (option ExecutionReport) :=
  match p with
  | finish _ _ md => Some (md_workflowExecution md)
  | _ => None
  end.

(** A node of the ledger has a non-zero start, and a non-zero finish once
    it has one: both come from a top-level [created_at] that passed the
    truthiness guard. *)
Definition stamped (n : NodeInfo) : Prop :=
  truthy_number (startedAt n) = true
  /\ (finishedAt n = None \/ truthy_number (finishedAt n) = true).

Definition ledgerStamped (s : StreamState) : Prop :=
  Forall (fun entry => stamped (snd entry)) (nodes s).

(** *** The fallback shape *)

(** A common field has its declared type when present. *)
Definition optionalString (v : value) : bool :=
  match v with VUndef | VStr _ => true | _ => false end.

Definition optionalNumber (v : value) : bool :=
  match v with VUndef | VNum _ => true | _ => false end.

Definition commonFieldsTyped (props : obj) : bool :=
  optionalString (prop "conversation_id" props)
  && optionalString (prop "message_id" props)
  && optionalString (prop "task_id" props)
  && optionalNumber (prop "created_at" props).

(** The shape of [difyStreamEventBase]. *)
Definition baseShape : list (string * Zod.schema) :=
  [ ("event", Zod.ZString);
    ("conversation_id", Zod.ZOptional Zod.ZString);
    ("message_id", Zod.ZOptional Zod.ZString);
    ("task_id", Zod.ZOptional Zod.ZString);
    ("created_at", Zod.ZOptional Zod.ZNumber) ].

(** The undeclared properties the fallback passes through. *)
Definition undeclared (props : obj) : obj :=
  filter (fun kv => negb (Zod.in_shape (fst kv) baseShape)) props.

(** The event the fallback makes of an element tagged [tag]. *)
Definition fallbackEvent (tag : string) (props : obj) : DifyStreamEvent :=
  {| event := tag;
     conversation_id := as_string (prop "conversation_id" props);
     message_id := as_string (prop "message_id" props);
     task_id := as_string (prop "task_id" props);
     created_at := as_number (prop "created_at" props);
     rest := filter (fun kv => negb (is_base_key (fst kv))) props |}.

(** *** Concrete data *)

(** A model whose id generator returns ["id-0"], ["id-1"], ... *)
Definition difyModel : DifyChatLanguageModel :=
  newDifyChatLanguageModel "dify-application-id"
    {| inputs := None; responseMode := None |}
    {| provider := "dify.chat";
       baseURL := "https://api.dify.ai/v1/chat-messages" |}
    (fun n => "id-" ++ NilZero.string_of_uint (Nat.to_uint n)).

(** A [message] event carrying only its answer. *)
Definition messageEvent (answer : string) : DifyStreamEvent :=
  {| event := "message"; conversation_id := None; message_id := None;
     task_id := None; created_at := None;
     rest := [("answer", VStr answer)] |}.

(** A [message_end], a [ping] and a [workflow_finished] event without
    identifiers. *)
Definition messageEndEvent : DifyStreamEvent :=
  {| event := "message_end"; conversation_id := None; message_id := None;
     task_id := None; created_at := None;
     rest := [("id", VStr "m1")] |}.

Definition pingEvent : DifyStreamEvent :=
  {| event := "ping"; conversation_id := None; message_id := None;
     task_id := None; created_at := None; rest := [] |}.

Definition workflowFinishedEvent : DifyStreamEvent :=
  {| event := "workflow_finished"; conversation_id := None;
     message_id := None; task_id := None; created_at := None;
     rest := [("workflow_run_id", VStr "run-1");
              ("data", VObj [("finished_at", VNum 1700000005);
                             ("total_tokens", VNum 42)])] |}.

(** Two events of one stream that carry different conversation ids, the
    second with an empty message id and no task id, and the finish part
    they lead to. *)
Definition firstMessage : DifyStreamEvent :=
  {| event := "message"; conversation_id := Some "conv-1";
     message_id := Some "msg-1"; task_id := Some "task-1";
     created_at := None;
     rest := [("answer", VStr "hi")] |}.

Definition lastMessageEnd : DifyStreamEvent :=
  {| event := "message_end"; conversation_id := Some "conv-2";
     message_id := Some ""; task_id := None;
     created_at := None;
     rest := [("id", VStr "msg-1")] |}.

Definition twoIdsFinish : StreamPart :=
  finish "stop"
    {| inputTokens := VUndef; outputTokens := VNum 0; totalTokens := VUndef |}
    {| md_conversationId := Some "conv-2"; md_messageId := Some "msg-1";
       md_taskId := Some "task-1"; md_workflowExecution := None |}.

(** A [node_finished] element as the node-finished schema accepts it, with
    its timestamps inside [data] and none at top level, and the event it
    validates to. *)
Definition nodeFinishedData : obj :=
  [ ("id", VStr "exec-1"); ("node_id", VStr "node-llm");
    ("node_type", VStr "llm"); ("title", VStr "LLM"); ("index", VNum 2);
    ("predecessor_node_id", VNull); ("inputs", VNull);
    ("process_data", VNull); ("outputs", VNull);
    ("status", VStr "succeeded"); ("error", VNull);
    ("elapsed_time", VNum 2); ("execution_metadata", VNull);
    ("created_at", VNum 1700000000); ("finished_at", VNum 1700000002);
    ("files", VArr []);
    ("parallel_id", VNull); ("parallel_start_node_id", VNull);
    ("parent_parallel_id", VNull); ("parent_parallel_start_node_id", VNull);
    ("iteration_id", VNull); ("loop_id", VNull) ].

Definition nodeFinishedElement : value :=
  VObj [ ("event", VStr "node_finished"); ("task_id", VStr "task-1");
         ("workflow_run_id", VStr "run-1");
         ("data", VObj nodeFinishedData) ].

Definition nodeFinishedEvent : DifyStreamEvent :=
  {| event := "node_finished"; conversation_id := None; message_id := None;
     task_id := Some "task-1"; created_at := None;
     rest := [("workflow_run_id", VStr "run-1");
              ("data", VObj nodeFinishedData)] |}.

(** The same event with a top-level [created_at]. *)
Definition nodeFinishedEventAt (t : Z) : DifyStreamEvent :=
  {| event := "node_finished"; conversation_id := None; message_id := None;
     task_id := Some "task-1"; created_at := Some t;
     rest := [("workflow_run_id", VStr "run-1");
              ("data", VObj nodeFinishedData)] |}.

(** An element of a kind the schema does not know, with a field no schema
    declares. *)
Definition fooBarElement : obj :=
  [ ("event", VStr "foo_bar"); ("task_id", VStr "task-1");
    ("payload", VObj [("n", VNum 1)]) ].

(** *** Tactics *)

(** Case analysis on the innermost test of a computation of the
    transform, and the unfolding of its combinators. *)
Ltac break_inner :=
  match goal with
  | |- context [match ?x with _ => _ end] =>
      lazymatch x with
      | context [match _ with _ => _ end] => fail
      | _ => destruct x eqn:?
      end
  end.

Ltac run_transform :=
  cbv beta iota zeta delta
    [enqueued stateAfter bind ret get modify enqueue when freshId
     parseContentWithThinking case_workflow_started case_workflow_finished
     case_node_started lookupAndFinishNode case_node_finished
     case_agent_thought case_message case_message_end case_default
     fst snd].

Ltac step_transform := repeat (break_inner; cbv beta iota zeta).


(** *** Further notions: answers, channels, raw parts *)

(** The event is a [message] whose answer is the fragment. *)
Definition messageWith (data : DifyStreamEvent) (fragment : string) : Prop :=
  event data = "message" /\ field "answer" data = Some (VStr fragment).

(** The reasoning channel as a reader of the parts follows it: a block is
    opened by reasoning-start when none is open, and a reasoning-delta or
    reasoning-end must carry the id of the open block.  [None] when a part
    breaks the discipline, else the block left open. *)
Fixpoint reasoningTrace (open : option string) (parts : list StreamPart)
  : option (option string) :=
  match parts with
  | [] => Some open
  | reasoning_start id :: parts' =>
      match open with
      | None => reasoningTrace (Some id) parts'
      | Some _ => None
      end
  | reasoning_delta id _ :: parts' =>
      match open with
      | Some id' => if id' =? id then reasoningTrace open parts' else None
      | None => None
      end
  | reasoning_end id :: parts' =>
      match open with
      | Some id' => if id' =? id then reasoningTrace None parts' else None
      | None => None
      end
  | _ :: parts' => reasoningTrace open parts'
  end.

(** The answer channel likewise: a text-delta or text-end must come while
    the channel is open; text-start opens it, text-end closes it. *)
Fixpoint textTrace (open : bool) (parts : list StreamPart) : option bool :=
  match parts with
  | [] => Some open
  | text_start _ :: parts' => textTrace true parts'
  | text_delta _ _ :: parts' => if open then textTrace true parts' else None
  | text_end _ :: parts' => if open then textTrace false parts' else None
  | _ :: parts' => textTrace open parts'
  end.

(** The block the state holds open. *)
Definition openBlock (s : StreamState) : option string :=
  if isInThinking s then Some (reasoningId s) else None.

(** Every case of the transform at once: its combinators and tests
    unfolded, then case analysis on each test. *)
Ltac crunch_dispatch :=
  unfold dispatch; run_transform; unfold andb, orb, negb;
  step_transform; cbn in *.

(** The keys that are the same as themselves: every value but an array or
    an object. *)
Definition primitiveKeys (keys : list value) : list value :=
  filter (fun k => same_key k k) keys.

(** Each record of the ledger is under its own node id, and no two records
    are under the same key. *)
Definition ledgerKeyed (s : StreamState) : Prop :=
  NoDup (primitiveKeys (map fst (nodes s)))
  /\ Forall (fun entry => nodeId (snd entry) = fst entry) (nodes s).

(** The part is a finish part with an execution report. *)
Definition reportsWorkflow (p : StreamPart) : bool :=
  match p with
  | finish _ _ md =>
      match md_workflowExecution md with Some _ => true | None => false end
  | _ => false
  end.

Definition isWorkflowStarted (chunk : ParseResult) : bool :=
  match chunk with
  | Success data => event data =? "workflow_started"
  | Failure _ => false
  end.




(** A [node_started] event of the node of [nodeFinishedData], created at
    [t]. *)
Definition nodeStartedEventAt (t : Z) : DifyStreamEvent :=
  {| event := "node_started"; conversation_id := None; message_id := None;
     task_id := Some "task-1"; created_at := Some t;
     rest := [("workflow_run_id", VStr "run-1");
              ("data", VObj [("id", VStr "exec-1");
                             ("node_id", VStr "node-llm");
                             ("node_type", VStr "llm")])] |}.

(** The record the ledger keeps for that node once it started at [t]. *)
Definition startedNode (t : Z) : NodeInfo :=
  {| nodeId := VStr "node-llm"; nodeType := VStr "llm";
     startedAt := Some t; finishedAt := None |}.

(** The chunk is an event of a kind that writes a field the execution
    report reads. *)
Definition touchesReport (chunk : ParseResult) : bool :=
  match chunk with
  | Success data =>
      (event data =? "workflow_started")
      || (event data =? "workflow_finished")
      || (event data =? "node_started")
      || (event data =? "node_finished")
  | Failure _ => false
  end.

(** The chunk is a validated event of the kind [k]. *)
Definition hasKind (k : string) (chunk : ParseResult) : Prop :=
  match chunk with
  | Success data => event data = k
  | Failure _ => False
  end.


(** A [message_end] event with the usage of the application. *)
Definition usageOfAnswer : obj :=
  [ ("prompt_tokens", VNum 7); ("completion_tokens", VNum 5);
    ("total_tokens", VNum 12) ].

Definition messageEndWithUsage : DifyStreamEvent :=
  {| event := "message_end"; conversation_id := None; message_id := None;
     task_id := None; created_at := None;
     rest := [("id", VStr "m1");
              ("metadata", VObj [("usage", VObj usageOfAnswer)])] |}.

(** The [workflow_started] event of the run ["run-1"]. *)
Definition workflowStartedData : obj :=
  [ ("id", VStr "run-1"); ("workflow_id", VStr "wf-1");
    ("created_at", VNum 1700000000) ].

Definition workflowStartedEvent : DifyStreamEvent :=
  {| event := "workflow_started"; conversation_id := None;
     message_id := None; task_id := None; created_at := None;
     rest := [("workflow_run_id", VStr "run-1");
              ("data", VObj workflowStartedData)] |}.

(** The report of that run once [workflowFinishedEvent] has come, no node
    having run. *)
Definition runReport : ExecutionReport :=
  {| report_workflowId := VStr "wf-1";
     report_workflowRunId := VStr "run-1";
     report_startedAt := VNum 1700000000;
     report_finishedAt := VNum 1700000005;
     report_duration := Some (Computed 5);
     report_nodes := [] |}.

(** *** Notions of the statements about requests *)

(** A text part of a message content. *)
Definition textPart (text : string) : value :=
  VObj [("type", VStr "text"); ("text", VStr text)].

(** The headers a call was given, none when absent. *)
Definition suppliedHeaders (options : Request.CallOptions) : obj :=
  match Request.headers options with Some h => h | None => [] end.

(** The two headers that route a request to a conversation and a user. *)
Definition isRoutingHeader (k : string) : bool :=
  (k =? "chat-id") || (k =? "user-id").

(** Two outcomes of [getRequestBody] agree: the same error, or the same
    body and the same headers left on the options. *)
Definition sameOutcome
    (a b : Request.APICallError + Request.RequestBody * Request.CallOptions)
  : Prop :=
  match a, b with
  | inl e1, inl e2 => e1 = e2
  | inr (b1, o1), inr (b2, o2) =>
      b1 = b2 /\ Request.headers o1 = Request.headers o2
  | _, _ => False
  end.

(** *** Notions of the statements about validation *)

(** The declared part of the output of an object schema: the loop over the
    shape inside [Zod.parse]. *)
Definition declaredFields (props : obj)
  : list (string * Zod.schema) -> option obj :=
  fix fields (sh : list (string * Zod.schema)) : option obj :=
    match sh with
    | [] => Some []
    | (k, tk) :: sh' =>
        match Zod.parse tk (prop k props), fields sh' with
        | Some r, Some rs =>
            Some (if negb (Zod.is_undefined r) || has_key k props
                  then (k, r) :: rs else rs)
        | _, _ => None
        end
    end.

(** A schema for the [event] property: any string, or one literal. *)
Definition isTagSchema (t : Zod.schema) : bool :=
  match t with
  | Zod.ZString | Zod.ZLiteral _ => true
  | _ => false
  end.

(** The shape declares the common fields as the base shape does, and a tag
    schema for [event]. *)
Definition extendsBase (shape : list (string * Zod.schema)) : bool :=
  match alist_get "event" shape with
  | Some t => isTagSchema t
  | None => false
  end
  && forallb
       (fun kt : string * Zod.schema =>
          match alist_get (fst kt) shape, snd kt with
          | Some (Zod.ZOptional Zod.ZString), Zod.ZOptional Zod.ZString
          | Some (Zod.ZOptional Zod.ZNumber), Zod.ZOptional Zod.ZNumber =>
              true
          | _, _ => false
          end)
       (tl baseShape).

Definition objectExtendsBase (t : Zod.schema) : bool :=
  match t with
  | Zod.ZObject _ shape => extendsBase shape
  | _ => false
  end.

(** The ids of the reasoning blocks a sequence of parts opens, in order. *)
Definition reasoningStarts (parts : list StreamPart) : list string :=
  flat_map (fun p => match p with
                     | reasoning_start id => [id]
                     | _ => []
                     end) parts.

(** The same event under another tag. *)
Definition retagged (tag : string) (data : DifyStreamEvent)
  : DifyStreamEvent :=
  {| event := tag; conversation_id := conversation_id data;
     message_id := message_id data; task_id := task_id data;
     created_at := created_at data; rest := rest data |}.

(** An [agent_message] event with an id. *)
Definition agentMessageEvent : DifyStreamEvent :=
  {| event := "agent_message"; conversation_id := None; message_id := None;
     task_id := None; created_at := Some 1700000000%Z;
     rest := [("id", VStr "a1"); ("answer", VStr "hi")] |}.
(* ===================================================================== *)
(** ** General facts about the transform monad *)
(* ===================================================================== *)

Lemma enqueued_bind {A B : Type} (m : Transform A) (f : A -> Transform B)
    (s : StreamState) :
  enqueued (bind m f) s
  = (enqueued m s ++ enqueued (f (fst (fst (m s)))) (stateAfter m s))%list.
Proof.
  unfold enqueued, stateAfter, bind.
  destruct (m s) as [[x s1] out1]; simpl.
  destruct (f x s1) as [[y s2] out2]; reflexivity.
Qed.

Lemma stateAfter_bind {A B : Type} (m : Transform A) (f : A -> Transform B)
    (s : StreamState) :
  stateAfter (bind m f) s
  = stateAfter (f (fst (fst (m s)))) (stateAfter m s).
Proof.
  unfold stateAfter, bind.
  destruct (m s) as [[x s1] out1]; simpl.
  destruct (f x s1) as [[y s2] out2]; reflexivity.
Qed.

Lemma enqueued_pipeThrough_cons self chunk chunks s :
  enqueued (pipeThrough self (chunk :: chunks)) s
  = (enqueued (transform self chunk) s
     ++ enqueued (pipeThrough self chunks)
          (stateAfter (transform self chunk) s))%list.
Proof. simpl. apply enqueued_bind. Qed.

Lemma stateAfter_pipeThrough_cons self chunk chunks s :
  stateAfter (pipeThrough self (chunk :: chunks)) s
  = stateAfter (pipeThrough self chunks)
      (stateAfter (transform self chunk) s).
Proof. simpl. apply stateAfter_bind. Qed.


Lemma stateAfter_pipeThrough_app self chunks more : forall s,
  stateAfter (pipeThrough self (chunks ++ more)) s
  = stateAfter (pipeThrough self more)
      (stateAfter (pipeThrough self chunks) s).
Proof.
  induction chunks as [|c chunks IH]; intro s.
  - reflexivity.
  - rewrite <- app_comm_cons.
    now rewrite !stateAfter_pipeThrough_cons, IH.
Qed.

(* ===================================================================== *)
(** ** The splitter on the two fragments of a reasoning block *)
(* ===================================================================== *)

(** C3.  From any state in which the splitter is outside a reasoning block
    and the answer channel is closed (the initial state is one), the
    fragments ["<think>\nfoo"] and ["bar\n</think>baz"] produce exactly
    reasoning-start, reasoning-delta "foo", reasoning-delta "bar",
    reasoning-end, text-start, text-delta "baz", the reasoning parts
    carrying the id just generated. *)
Theorem think_fragments_parts self (s : StreamState) :
  isInThinking s = false ->
  isActiveText s = false ->
  enqueued
    (parseContentWithThinking self ("<think>" ++ LF ++ "foo") ;;
     parseContentWithThinking self ("bar" ++ LF ++ "</think>baz")) s
  = [ reasoning_start (generateId self (generated s));
      reasoning_delta (generateId self (generated s)) "foo";
      reasoning_delta (generateId self (generated s)) "bar";
      reasoning_end (generateId self (generated s));
      text_start "answer";
      text_delta "answer" "baz" ].
Proof.
  intros Hthink Htext.
  destruct s; simpl in Hthink, Htext; subst.
  reflexivity.
Qed.

Lemma think_fragments_parts_initial :
  isInThinking initialState = false
  /\ isActiveText initialState = false
  /\ enqueued
       (parseContentWithThinking difyModel ("<think>" ++ LF ++ "foo") ;;
        parseContentWithThinking difyModel ("bar" ++ LF ++ "</think>baz"))
       initialState
     = [ reasoning_start "id-0";
         reasoning_delta "id-0" "foo";
         reasoning_delta "id-0" "bar";
         reasoning_end "id-0";
         text_start "answer";
         text_delta "answer" "baz" ].
Proof.
  split; [reflexivity | split; [reflexivity |]].
  exact (think_fragments_parts difyModel initialState eq_refl eq_refl).
Defined.

(* ===================================================================== *)
(** ** Identifier capture *)
(* ===================================================================== *)

Lemma storeIds_enqueued data s : enqueued (storeIds data) s = [].
Proof.
  unfold storeIds, enqueued, bind, when.
  destruct (truthy_string (conversation_id data)),
           (truthy_string (message_id data)),
           (truthy_string (task_id data)); reflexivity.
Qed.

(** Capture touches the three identifiers only. *)
Lemma storeIds_frame data s :
  let s' := stateAfter (storeIds data) s in
  isInThinking s' = isInThinking s
  /\ reasoningId s' = reasoningId s
  /\ workflowId s' = workflowId s
  /\ workflowRunId s' = workflowRunId s
  /\ workflowStartedAt s' = workflowStartedAt s
  /\ workflowFinishedAt s' = workflowFinishedAt s
  /\ nodes s' = nodes s
  /\ isActiveText s' = isActiveText s
  /\ isActiveReasoning s' = isActiveReasoning s
  /\ generated s' = generated s.
Proof.
  unfold storeIds, stateAfter, bind, when.
  destruct (truthy_string (conversation_id data)),
           (truthy_string (message_id data)),
           (truthy_string (task_id data)); simpl; repeat split.
Qed.

Lemma enqueued_transform_success self data s :
  enqueued (transform self (Success data)) s
  = enqueued (dispatch self data) (stateAfter (storeIds data) s).
Proof.
  unfold transform. rewrite enqueued_bind, storeIds_enqueued. reflexivity.
Qed.

Lemma stateAfter_transform_success self data s :
  stateAfter (transform self (Success data)) s
  = stateAfter (dispatch self data) (stateAfter (storeIds data) s).
Proof. unfold transform. now rewrite stateAfter_bind. Qed.

(* ===================================================================== *)
(** ** Answer fragments *)
(* ===================================================================== *)

(** The splitter outside a reasoning block, on a fragment without the
    begin marker. *)
Lemma plain_fragment self newContent s :
  isInThinking s = false ->
  includes thinkStart newContent = false ->
  enqueued (parseContentWithThinking self newContent) s
  = ((if isActiveText s then [] else [text_start "answer"])
     ++ [text_delta "answer" newContent])%list
  /\ isActiveText (stateAfter (parseContentWithThinking self newContent) s)
     = true
  /\ isInThinking (stateAfter (parseContentWithThinking self newContent) s)
     = false.
Proof.
  intros Hthink Hmark.
  unfold parseContentWithThinking, enqueued, stateAfter, bind, get, when.
  simpl. rewrite Hmark, Hthink. simpl.
  destruct (isActiveText s) eqn:Htext; simpl; auto.
Qed.

(** C10.  A [message] or [agent_message] event whose answer is the empty
    string, arriving outside a reasoning block while the answer channel is
    closed, opens the channel: the translator enqueues text-start, then a
    text-delta with the empty delta, and marks the channel open.  Nothing
    else follows for [message]; for [agent_message] only its
    response-metadata part may follow. *)
Theorem empty_answer_opens_channel self s data :
  event data = "message" \/ event data = "agent_message" ->
  field "answer" data = Some (VStr "") ->
  isInThinking s = false ->
  isActiveText s = false ->
  exists tail,
    enqueued (transform self (Success data)) s
    = text_start "answer" :: text_delta "answer" "" :: tail
    /\ isActiveText (stateAfter (transform self (Success data)) s) = true
    /\ forallb isResponseMetadata tail = true
    /\ (event data = "message" -> tail = []).
Proof.
  intros Hev Hanswer Hthink Htext.
  rewrite enqueued_transform_success, stateAfter_transform_success.
  destruct (storeIds_frame data s)
    as (Hthink' & _ & _ & _ & _ & _ & _ & Htext' & _).
  set (s' := stateAfter (storeIds data) s) in *.
  rewrite <- Hthink' in Hthink. rewrite <- Htext' in Htext.
  destruct (plain_fragment self "" s' Hthink eq_refl) as (Hout & Hopen & _).
  rewrite Htext in Hout. simpl in Hout.
  assert (Hdispatch : dispatch self data = case_message self data).
  { unfold dispatch. destruct Hev as [-> | ->]; reflexivity. }
  rewrite Hdispatch. unfold case_message. rewrite Hanswer.
  rewrite enqueued_bind, stateAfter_bind, Hout.
  destruct Hev as [Hev | Hev]; rewrite Hev; simpl.
  - exists []. repeat split; auto.
  - destruct (field "id" data) as [[ | | | | id | | ] | ]; simpl;
      try (exists []; repeat split; auto; discriminate).
    eexists. repeat split; auto. discriminate.
Qed.

Example messageEvent_validates answer :
  safeValidate (VObj [("event", VStr "message"); ("answer", VStr answer)])
  = Success (messageEvent answer).
Proof. reflexivity. Qed.

Lemma empty_answer_opens_channel_initial :
  (event (messageEvent "") = "message"
   \/ event (messageEvent "") = "agent_message")
  /\ field "answer" (messageEvent "") = Some (VStr "")
  /\ isInThinking initialState = false
  /\ isActiveText initialState = false
  /\ exists tail,
       enqueued (transform difyModel (Success (messageEvent ""))) initialState
       = text_start "answer" :: text_delta "answer" "" :: tail
       /\ isActiveText
            (stateAfter (transform difyModel (Success (messageEvent "")))
               initialState) = true
       /\ forallb isResponseMetadata tail = true
       /\ (event (messageEvent "") = "message" -> tail = []).
Proof.
  split; [left; reflexivity | ].
  split; [reflexivity | ].
  split; [reflexivity | ].
  split; [reflexivity | ].
  apply (empty_answer_opens_channel difyModel initialState (messageEvent ""));
    try reflexivity.
  left; reflexivity.
Defined.

(** C4, evaluated.  The answer channel is opened by a plain fragment, then a
    reasoning block follows whose closing fragment carries answer text: the
    end-marker branch enqueues text-start again although the channel is
    open, where the plain-text branch first tests [isActiveText]. *)
Theorem text_start_repeated_after_reasoning :
  streamParts difyModel
    [ Success (messageEvent "hi");
      Success (messageEvent ("<think>" ++ LF ++ "a"));
      Success (messageEvent ("b" ++ LF ++ "</think>c")) ]
  = [ text_start "answer"; text_delta "answer" "hi";
      reasoning_start "id-0"; reasoning_delta "id-0" "a";
      reasoning_delta "id-0" "b"; reasoning_end "id-0";
      text_start "answer"; text_delta "answer" "c" ].
Proof. reflexivity. Qed.

(** The end-marker branch on any fragment: the piece before the first
    marker is the last reasoning-delta, the piece after it the text.  The
    branch leaves the reasoning block and does not read [isActiveText]: the
    parts are the same whether the answer channel is open or not. *)
Lemma end_marker_branch self s newContent :
  isInThinking s = true ->
  includes thinkEnd newContent = true ->
  let parts := split thinkEnd newContent in
  let reasoningPart := nth 0 parts "" in
  let textPart := nth 1 parts "" in
  enqueued (parseContentWithThinking self newContent) s
  = ((if nonEmpty reasoningPart
      then [reasoning_delta (reasoningId s) reasoningPart] else [])
     ++ [reasoning_end (reasoningId s)]
     ++ (if nonEmpty textPart
         then [text_start "answer"; text_delta "answer" textPart]
         else []))%list
  /\ isInThinking (stateAfter (parseContentWithThinking self newContent) s)
     = false.
Proof.
  intros Hthink Hend. cbv zeta.
  unfold parseContentWithThinking, enqueued, stateAfter, bind, get, when,
    at_index.
  simpl. rewrite Hthink, Hend, andb_false_r.
  generalize (split thinkEnd newContent) as parts.
  intros [|p0 [|p1 ps]]; simpl;
    repeat match goal with
           | |- context [nonEmpty ?x] => destruct (nonEmpty x)
           end; simpl; auto.
Qed.

(* ===================================================================== *)
(** ** The execution report *)
(* ===================================================================== *)

Lemma elapsed_durationOf started finished :
  elapsed started finished = durationOf started finished.
Proof.
  destruct started as [a|], finished as [b|]; simpl; auto.
  unfold truthy_number; simpl.
  destruct (a =? 0)%Z, (b =? 0)%Z; reflexivity.
Qed.

Lemma elapsedCast_workflowDurationOf started finished :
  elapsedCast started finished = workflowDurationOf started finished.
Proof.
  unfold elapsedCast, workflowDurationOf, js_minus.
  destruct started as [ | | x | a | x | x | x ],
           finished as [ | | y | b | y | y | y ];
    try reflexivity.
  simpl. destruct (a =? 0)%Z, (b =? 0)%Z; reflexivity.
Qed.

(** The shape of the report built in the [message_end] case. *)
Lemma executionReport_message_end_shape (state : StreamState) :
  match executionReport_message_end state with
  | Some r =>
      truthy (workflowId state) = true
      /\ report_workflowId r = workflowId state
      /\ report_workflowRunId r = workflowRunId state
      /\ report_startedAt r = workflowStartedAt state
      /\ report_finishedAt r = workflowFinishedAt state
      /\ report_duration r
         = workflowDurationOf (workflowStartedAt state)
             (workflowFinishedAt state)
      /\ map node (report_nodes r) = map snd (nodes state)
      /\ Forall (fun nr =>
                   duration nr
                   = durationOf (startedAt (node nr)) (finishedAt (node nr)))
           (report_nodes r)
  | None => truthy (workflowId state) = false
  end.
Proof.
  unfold executionReport_message_end.
  destruct (truthy (workflowId state)) eqn:Hid; [ | reflexivity].
  cbn [report_workflowId report_workflowRunId report_startedAt
       report_finishedAt report_duration report_nodes].
  repeat split; auto using elapsedCast_workflowDurationOf.
  - rewrite map_map. reflexivity.
  - apply Forall_forall. intros nr Hin.
    apply in_map_iff in Hin. destruct Hin as (entry & <- & _).
    simpl. apply elapsed_durationOf.
Qed.

(** The defined durations are differences of stored timestamps. *)
Lemma durationOf_defined started finished d :
  durationOf started finished = Some d ->
  exists a b, started = Some a /\ finished = Some b /\ d = (b - a)%Z.
Proof.
  destruct started as [a|], finished as [b|]; simpl; try discriminate.
  destruct ((a =? 0)%Z || (b =? 0)%Z); [discriminate | ].
  intros [= <-]. now exists a, b.
Qed.

(* ===================================================================== *)
(** ** Request construction *)
(* ===================================================================== *)

Module RequestFacts.
Import Request.

Lemma isFilePart_spec part :
  isFilePart part = true
  <-> exists props,
        part = VObj props /\ obj_get "type" props = Some (VStr "file").
Proof.
  split.
  - destruct part as [ | | b | n | s | items | props]; simpl;
      try discriminate.
    unfold has_key, prop.
    destruct (obj_get "type" props) as [v|] eqn:Htype;
      simpl; try discriminate.
    destruct v; try discriminate.
    intro H. apply String.eqb_eq in H. subst. now exists props.
  - intros (props & -> & H). simpl. unfold has_key, prop. now rewrite H.
Qed.

Lemma hasAttachments_spec m :
  hasAttachments_of (content m) = true <-> containsFilePart m.
Proof.
  unfold containsFilePart. split.
  - destruct (content m) as [text | parts | ]; simpl; try discriminate.
    intro H. apply existsb_exists in H. destruct H as (part & Hin & Hfile).
    apply isFilePart_spec in Hfile. destruct Hfile as (props & -> & Htype).
    now exists parts, (VObj props), props.
  - intros (parts & part & props & -> & Hin & -> & Htype). simpl.
    apply existsb_exists. exists (VObj props). split; auto.
    apply isFilePart_spec. now exists props.
Qed.

Lemma last_cons_default (m : Message) ms : forall d d',
  last (m :: ms) d = last (m :: ms) d'.
Proof.
  revert m. induction ms as [|m' ms IH]; intros m d d'.
  - reflexivity.
  - change (last (m :: m' :: ms) d) with (last (m' :: ms) d).
    change (last (m :: m' :: ms) d') with (last (m' :: ms) d').
    apply IH.
Qed.

Lemma last_shift (m m' : Message) ms : last (m' :: ms) m = last ms m'.
Proof.
  destruct ms as [|x ms]; [reflexivity | ].
  change (last (m' :: x :: ms) m) with (last (x :: ms) m).
  apply last_cons_default.
Qed.

Lemma last_snoc (m : Message) ms :
  exists ms', (m :: ms = ms' ++ [last ms m])%list.
Proof.
  revert m. induction ms as [|m' ms IH]; intro m.
  - now exists [].
  - destruct (IH m') as (ms' & Heq).
    exists (m :: ms'). rewrite last_shift. simpl. now rewrite <- Heq.
Qed.

Lemma snoc_inj (ms ms' : list Message) m m' :
  (ms ++ [m] = ms' ++ [m'])%list -> m = m'.
Proof. intro H. apply app_inj_tail in H. tauto. Qed.

(** The outcome of [getRequestBody] in terms of the supplied messages. *)
Lemma getRequestBody_cases self options :
  match getRequestBody self options with
  | inl err =>
      (suppliedMessages options = []
       /\ message err = "No messages provided"
       /\ requestBodyValues err = OffendingOptions options)
      \/ (exists ms m,
            suppliedMessages options = (ms ++ [m])%list
            /\ role m <> "user"
            /\ message err = "The last message must be a user message"
            /\ requestBodyValues err = LatestMessageRole (role m))
      \/ (exists ms m,
            suppliedMessages options = (ms ++ [m])%list
            /\ role m = "user"
            /\ containsFilePart m
            /\ message err
               = "Dify provider does not currently support file attachments"
            /\ requestBodyValues err = HasAttachments true)
  | inr (body, _) =>
      exists ms m,
        suppliedMessages options = (ms ++ [m])%list
        /\ role m = "user"
        /\ ~ containsFilePart m
        /\ query body = queryOf (content m)
  end.
Proof.
  unfold getRequestBody, suppliedMessages.
  destruct (prompt options) as [[|m ms]|] eqn:Hprompt.
  - left. auto.
  - destruct (last_snoc m ms) as (ms' & Hsnoc).
    destruct (role (last ms m) =? "user") eqn:Hrole; simpl.
    + apply String.eqb_eq in Hrole.
      destruct (hasAttachments_of (content (last ms m))) eqn:Hfile.
      * right; right. exists ms', (last ms m).
        rewrite hasAttachments_spec in Hfile. auto.
      * exists ms', (last ms m). repeat split; auto.
        rewrite <- hasAttachments_spec. congruence.
    + apply String.eqb_neq in Hrole.
      right; left. exists ms', (last ms m). auto.
  - destruct (messages options) as [[|m ms]|] eqn:Hmessages.
    + left. auto.
    + destruct (last_snoc m ms) as (ms' & Hsnoc).
      destruct (role (last ms m) =? "user") eqn:Hrole; simpl.
      * apply String.eqb_eq in Hrole.
        destruct (hasAttachments_of (content (last ms m))) eqn:Hfile.
        -- right; right. exists ms', (last ms m).
           rewrite hasAttachments_spec in Hfile. auto.
        -- exists ms', (last ms m). repeat split; auto.
           rewrite <- hasAttachments_spec. congruence.
      * apply String.eqb_neq in Hrole.
        right; left. exists ms', (last ms m). auto.
    + left. auto.
Qed.

(** C5.  [getRequestBody] throws exactly when no message was supplied, or
    the last message is not a user message, or the last message holds a
    file part; otherwise it returns a request body.  The error thrown names
    its cause in [message] and [requestBodyValues], and it is thrown before
    [doGenerate] or [doStream] sends anything. *)
Theorem getRequestBody_throws_iff self options :
  ((exists err, getRequestBody self options = inl err) <-> rejected options)
  /\ ((exists body options',
         getRequestBody self options = inr (body, options'))
      <-> ~ rejected options)
  /\ (forall err,
        getRequestBody self options = inl err ->
        (suppliedMessages options = []
         /\ message err = "No messages provided"
         /\ requestBodyValues err = OffendingOptions options)
        \/ (exists ms m,
              suppliedMessages options = (ms ++ [m])%list
              /\ role m <> "user"
              /\ message err = "The last message must be a user message"
              /\ requestBodyValues err = LatestMessageRole (role m))
        \/ (exists ms m,
              suppliedMessages options = (ms ++ [m])%list
              /\ role m = "user"
              /\ containsFilePart m
              /\ message err
                 = "Dify provider does not currently support file attachments"
              /\ requestBodyValues err = HasAttachments true))
  /\ (forall err postJsonToApi postEventStream,
        getRequestBody self options = inl err ->
        doGenerate self postJsonToApi options = ([], inl err)
        /\ doStream self postEventStream options = ([], inl err)).
Proof.
  pose proof (getRequestBody_cases self options) as Hcases.
  assert (Hinl : forall err, getRequestBody self options = inl err ->
                             rejected options).
  { intros err Heq. rewrite Heq in Hcases. unfold rejected.
    destruct Hcases as [(H & _) | [(ms & m & H & Hr & _)
                                  | (ms & m & H & _ & Hf & _)]].
    - now left.
    - right. exists ms, m. auto.
    - right. exists ms, m. auto. }
  assert (Hinr : forall body options',
             getRequestBody self options = inr (body, options') ->
             ~ rejected options).
  { intros body options' Heq. rewrite Heq in Hcases.
    destruct Hcases as (ms & m & H & Hr & Hf & _).
    intros [Hnil | (ms' & m' & H' & Hbad)].
    - rewrite Hnil in H. now destruct ms.
    - rewrite H in H'. apply snoc_inj in H'. subst m'.
      destruct Hbad; contradiction. }
  split; [ | split; [ | split]].
  - split.
    + intros (err & Heq). eauto.
    + intro Hrej.
      destruct (getRequestBody self options) as [err | [body options']] eqn:Heq.
      * now exists err.
      * exfalso. eapply Hinr; eauto.
  - split.
    + intros (body & options' & Heq). eauto.
    + intro Hok.
      destruct (getRequestBody self options) as [err | [body options']] eqn:Heq.
      * exfalso. apply Hok. eauto.
      * now exists body, options'.
  - intros err Heq. now rewrite Heq in Hcases.
  - intros err post postStream Heq.
    unfold doGenerate, doStream. now rewrite Heq.
Qed.

(** The spec's two examples: a last message written by the assistant, and a
    user message with a file part. *)
Example assistant_last_rejected :
  getRequestBody difyModel
    {| prompt := Some [ {| role := "user"; content := ContentString "hi" |};
                        {| role := "assistant";
                           content := ContentString "hello" |} ];
       messages := None; headers := None |}
  = inl {| message := "The last message must be a user message";
           url := "https://api.dify.ai/v1/chat-messages";
           requestBodyValues := LatestMessageRole "assistant" |}.
Proof. reflexivity. Qed.

Example file_part_rejected :
  getRequestBody difyModel
    {| prompt :=
         Some [ {| role := "user";
                   content :=
                     ContentArray
                       [ VObj [("type", VStr "text"); ("text", VStr "see")];
                         VObj [("type", VStr "file");
                               ("mediaType", VStr "image/png")] ] |} ];
       messages := None; headers := None |}
  = inl {| message :=
             "Dify provider does not currently support file attachments";
           url := "https://api.dify.ai/v1/chat-messages";
           requestBodyValues := HasAttachments true |}.
Proof. reflexivity. Qed.

Example user_text_accepted :
  getRequestBody difyModel
    {| prompt :=
         Some [ {| role := "user";
                   content :=
                     ContentArray
                       [ VObj [("type", VStr "text"); ("text", VStr "hello")];
                         VObj [("type", VStr "text"); ("text", VStr "")];
                         VObj [("type", VStr "text"); ("text", VStr "you")] ]
                |} ];
       messages := None;
       headers := Some [("user-id", VStr "u1"); ("x-trace", VStr "t")] |}
  = inr ({| body_inputs := []; query := "hello you";
            response_mode := Some "streaming";
            conversation_id := VUndef; user := VStr "u1" |},
         {| prompt :=
              Some [ {| role := "user";
                        content :=
                          ContentArray
                            [ VObj [("type", VStr "text");
                                    ("text", VStr "hello")];
                              VObj [("type", VStr "text"); ("text", VStr "")];
                              VObj [("type", VStr "text");
                                    ("text", VStr "you")] ] |} ];
            messages := None;
            headers := Some [("x-trace", VStr "t")] |}).
Proof. reflexivity. Qed.

(* --------------------------------------------------------------------- *)
(** *** The blocking path *)
(* --------------------------------------------------------------------- *)

(** C8.  When the request is built and the network answers with a validated
    response, [doGenerate] returns a result whose content has no text block
    for an empty answer and exactly one block, holding the answer verbatim,
    otherwise; the usage counters are those of [metadata.usage], the
    provider metadata exposes the conversation and message ids of the
    response, and the finish reason is "stop". *)
Theorem doGenerate_result self postJsonToApi options requestBody options'
    responseHeaders typedData :
  getRequestBody self options = inr (requestBody, options') ->
  postJsonToApi requestBody = inr (responseHeaders, typedData) ->
  exists result,
    doGenerate self postJsonToApi options = ([requestBody], inr result)
    /\ (answer typedData = "" -> result_content result = [])
    /\ (answer typedData <> "" ->
        result_content result = [TextContent (answer typedData)])
    /\ finishReason result = "stop"
    /\ inputTokens (result_usage result) = VNum (prompt_tokens typedData)
    /\ outputTokens (result_usage result)
       = VNum (completion_tokens typedData)
    /\ totalTokens (result_usage result) = VNum (total_tokens typedData)
    /\ result_conversationId result
       = VStr (response_conversation_id typedData)
    /\ result_messageId result = VStr (message_id typedData).
Proof.
  intros Hbody Hpost.
  exists (mapResponse requestBody responseHeaders typedData).
  unfold doGenerate. rewrite Hbody, Hpost.
  repeat split; simpl.
  - intros ->. reflexivity.
  - intro Hne. apply String.eqb_neq in Hne.
    unfold nonEmpty. now rewrite Hne.
Qed.

Lemma doGenerate_result_empty_answer :
  getRequestBody difyModel helloOptions
  = inr (helloBody,
         {| prompt := prompt helloOptions; messages := None;
            headers := Some [] |})
  /\ exists result,
       doGenerate difyModel (fun _ => inr ([], emptyAnswer)) helloOptions
       = ([helloBody], inr result)
       /\ (answer emptyAnswer = "" -> result_content result = [])
       /\ (answer emptyAnswer <> "" ->
           result_content result = [TextContent (answer emptyAnswer)])
       /\ finishReason result = "stop"
       /\ inputTokens (result_usage result) = VNum (prompt_tokens emptyAnswer)
       /\ outputTokens (result_usage result)
          = VNum (completion_tokens emptyAnswer)
       /\ totalTokens (result_usage result) = VNum (total_tokens emptyAnswer)
       /\ result_conversationId result
          = VStr (response_conversation_id emptyAnswer)
       /\ result_messageId result = VStr (message_id emptyAnswer).
Proof.
  split; [reflexivity | ].
  apply (doGenerate_result difyModel (fun _ => inr ([], emptyAnswer))
           helloOptions helloBody
           {| prompt := prompt helloOptions; messages := None;
              headers := Some [] |}
           [] emptyAnswer); reflexivity.
Defined.

(** The blocking path on an empty and on a non-empty answer. *)
Example empty_answer_no_text_block :
  snd (doGenerate difyModel (fun _ => inr ([], emptyAnswer)) helloOptions)
  = inr {| result_content := [];
           finishReason := "stop";
           result_usage :=
             {| inputTokens := VNum 5; outputTokens := VNum 0;
                totalTokens := VNum 5 |};
           result_conversationId := VStr "c1";
           result_messageId := VStr "m1";
           request_body := helloBody;
           response_id := "r1";
           response_headers := [] |}.
Proof. reflexivity. Qed.

End RequestFacts.

(* ===================================================================== *)
(** ** Terminal parts *)
(* ===================================================================== *)

Lemma dispatch_ids self data s :
  let s' := stateAfter (dispatch self data) s in
  conversationId s' = conversationId s
  /\ messageId s' = messageId s
  /\ taskId s' = taskId s.
Proof.
  unfold dispatch, orb.
  step_transform; run_transform; step_transform; simpl; auto.
Qed.



Lemma dispatch_finish_ids self data s :
  Forall (carriesIdsOf s) (enqueued (dispatch self data) s).
Proof.
  unfold dispatch, orb.
  step_transform; run_transform; step_transform;
    simpl; repeat constructor.
Qed.




(** A finish part carries the report of the state its event leaves. *)
Lemma dispatch_finish_report self data s :
  Forall (fun p =>
            match reportOn p with
            | Some report =>
                report
                = executionReport_message_end
                    (stateAfter (dispatch self data) s)
            | None => True
            end)
    (enqueued (dispatch self data) s).
Proof.
  unfold dispatch, orb.
  step_transform; run_transform; step_transform;
    simpl; repeat constructor.
Qed.


Example pingEvent_validates :
  safeValidate (VObj [("event", VStr "ping")]) = Success pingEvent.
Proof. reflexivity. Qed.


(** The [workflow_finished] case enqueues a finish part of its own, against
    the note in its body that only [message_end] should: a run that sends
    both events yields two finish parts. *)
Lemma workflow_finished_then_message_end :
  filter isFinish
    (streamParts difyModel
       [Success workflowFinishedEvent; Success messageEndEvent])
  = [ finish "stop"
        {| inputTokens := VNum 0; outputTokens := VNum 42;
           totalTokens := VNum 42 |}
        {| md_conversationId := None; md_messageId := None;
           md_taskId := None; md_workflowExecution := None |};
      finish "stop"
        {| inputTokens := VUndef; outputTokens := VNum 0;
           totalTokens := VUndef |}
        {| md_conversationId := None; md_messageId := None;
           md_taskId := None; md_workflowExecution := None |} ].
Proof. reflexivity. Qed.




(* ===================================================================== *)
(** ** The identifiers of the finish part *)
(* ===================================================================== *)

Lemma firstNonEmpty_app ids ids' :
  firstNonEmpty (ids ++ ids')
  = match firstNonEmpty ids with
    | Some id => Some id
    | None => firstNonEmpty ids'
    end.
Proof.
  induction ids as [|id ids IH]; simpl; [now destruct (firstNonEmpty ids') | ].
  destruct id as [x|]; unfold truthy_string; simpl; auto.
  destruct (x =? ""); simpl; auto.
Qed.

Lemma latest_cons stored id ids :
  latest stored (id :: ids)
  = latest (if truthy_string id then id else stored) ids.
Proof.
  unfold latest, lastNonEmpty. simpl. rewrite firstNonEmpty_app. simpl.
  destruct (firstNonEmpty (rev ids)); auto.
  destruct id as [x|]; unfold truthy_string; simpl; auto.
  destruct (x =? ""); reflexivity.
Qed.

Lemma latest_app stored ids ids' :
  latest stored (ids ++ ids') = latest (latest stored ids) ids'.
Proof.
  revert stored. induction ids as [|id ids IH]; intro stored.
  - reflexivity.
  - rewrite <- app_comm_cons, !latest_cons. apply IH.
Qed.

Lemma idsSeen_app id chunks chunks' :
  idsSeen id (chunks ++ chunks') = (idsSeen id chunks ++ idsSeen id chunks')%list.
Proof. apply flat_map_app. Qed.

Lemma storeIds_ids data s :
  let s' := stateAfter (storeIds data) s in
  conversationId s' = latest (conversationId s) [conversation_id data]
  /\ messageId s' = latest (messageId s) [message_id data]
  /\ taskId s' = latest (taskId s) [task_id data].
Proof.
  unfold storeIds, stateAfter, bind, when, latest, lastNonEmpty.
  simpl.
  destruct (conversation_id data) as [c|], (message_id data) as [m|],
           (task_id data) as [t|]; unfold truthy_string; simpl;
    repeat match goal with
           | |- context [?x =? ""] => destruct (x =? "")
           end; simpl; auto.
Qed.

Lemma transform_ids self chunk s :
  let s' := stateAfter (transform self chunk) s in
  conversationId s'
  = latest (conversationId s) (idsSeen conversation_id [chunk])
  /\ messageId s' = latest (messageId s) (idsSeen message_id [chunk])
  /\ taskId s' = latest (taskId s) (idsSeen task_id [chunk]).
Proof.
  destruct chunk as [data | err]; [ | simpl; auto].
  cbv zeta. rewrite stateAfter_transform_success.
  destruct (dispatch_ids self data (stateAfter (storeIds data) s))
    as (-> & -> & ->).
  apply storeIds_ids.
Qed.

Lemma pipeThrough_ids self chunks : forall s,
  let s' := stateAfter (pipeThrough self chunks) s in
  conversationId s' = latest (conversationId s) (idsSeen conversation_id chunks)
  /\ messageId s' = latest (messageId s) (idsSeen message_id chunks)
  /\ taskId s' = latest (taskId s) (idsSeen task_id chunks).
Proof.
  induction chunks as [|chunk chunks IH]; intro s.
  - simpl; auto.
  - cbv zeta. rewrite stateAfter_pipeThrough_cons.
    destruct (IH (stateAfter (transform self chunk) s)) as (-> & -> & ->).
    destruct (transform_ids self chunk s) as (-> & -> & ->).
    change (chunk :: chunks) with ([chunk] ++ chunks)%list.
    now rewrite !idsSeen_app, !latest_app.
Qed.

(** The finish parts of one element carry the identifiers stored once the
    element's own identifiers have been captured. *)
Lemma transform_finish_ids self chunk s reason usage md :
  In (finish reason usage md) (enqueued (transform self chunk) s) ->
  md_conversationId md
  = latest (conversationId s) (idsSeen conversation_id [chunk])
  /\ md_messageId md = latest (messageId s) (idsSeen message_id [chunk])
  /\ md_taskId md = latest (taskId s) (idsSeen task_id [chunk]).
Proof.
  destruct chunk as [data | err].
  - rewrite enqueued_transform_success. intro Hin.
    pose proof (dispatch_finish_ids self data (stateAfter (storeIds data) s))
      as Hall.
    rewrite Forall_forall in Hall. specialize (Hall _ Hin). simpl in Hall.
    destruct Hall as (_ & -> & -> & ->).
    apply storeIds_ids.
  - simpl. intros [H | []]. discriminate H.
Qed.

(** C2, as the code has it.  Every finish part of the stream carries, for
    each of conversationId, messageId and taskId, the most recent non-empty
    value among the validated events up to and including the one that
    produced the part, whatever their kinds; an empty or absent value never
    replaces a stored identifier, a later non-empty value does. *)
Theorem finish_ids_are_latest self chunks reason usage md :
  In (finish reason usage md) (streamParts self chunks) ->
  exists before chunk after,
    chunks = (before ++ chunk :: after)%list
    /\ In (finish reason usage md)
         (enqueued (transform self chunk)
            (stateAfter (pipeThrough self before) initialState))
    /\ md_conversationId md
       = lastNonEmpty (idsSeen conversation_id (before ++ [chunk]))
    /\ md_messageId md
       = lastNonEmpty (idsSeen message_id (before ++ [chunk]))
    /\ md_taskId md
       = lastNonEmpty (idsSeen task_id (before ++ [chunk])).
Proof.
  unfold streamParts.
  assert (Hgen : forall s,
    In (finish reason usage md) (enqueued (pipeThrough self chunks) s) ->
    exists before chunk after,
      chunks = (before ++ chunk :: after)%list
      /\ In (finish reason usage md)
           (enqueued (transform self chunk)
              (stateAfter (pipeThrough self before) s))
      /\ md_conversationId md
         = latest (conversationId s)
             (idsSeen conversation_id (before ++ [chunk]))
      /\ md_messageId md
         = latest (messageId s) (idsSeen message_id (before ++ [chunk]))
      /\ md_taskId md
         = latest (taskId s) (idsSeen task_id (before ++ [chunk]))).
  { induction chunks as [|chunk chunks IH]; intros s Hin.
    - destruct Hin.
    - rewrite enqueued_pipeThrough_cons in Hin.
      apply in_app_or in Hin. destruct Hin as [Hin | Hin].
      + exists [], chunk, chunks. repeat split; auto;
          now apply (transform_finish_ids self chunk s reason usage md).
      + destruct (IH _ Hin)
          as (before & chunk' & after & -> & Hin' & Hc & Hm & Ht).
        exists (chunk :: before), chunk', after.
        split; [reflexivity | ].
        split; [now rewrite stateAfter_pipeThrough_cons | ].
        destruct (transform_ids self chunk s) as (Hc0 & Hm0 & Ht0).
        rewrite Hc0 in Hc. rewrite Hm0 in Hm. rewrite Ht0 in Ht.
        rewrite <- latest_app, <- idsSeen_app in Hc, Hm, Ht.
        auto. }
  intro Hin. destruct (Hgen initialState Hin)
    as (before & chunk & after & Heq & Hin' & Hc & Hm & Ht).
  exists before, chunk, after. repeat split; auto.
  - rewrite Hc. unfold latest. simpl.
    now destruct (lastNonEmpty (idsSeen conversation_id (before ++ [chunk]))).
  - rewrite Hm. unfold latest. simpl.
    now destruct (lastNonEmpty (idsSeen message_id (before ++ [chunk]))).
  - rewrite Ht. unfold latest. simpl.
    now destruct (lastNonEmpty (idsSeen task_id (before ++ [chunk]))).
Qed.

Lemma finish_ids_are_latest_example :
  In twoIdsFinish
    (streamParts difyModel [Success firstMessage; Success lastMessageEnd])
  /\ exists before chunk after,
       [Success firstMessage; Success lastMessageEnd]
       = (before ++ chunk :: after)%list
       /\ In twoIdsFinish
            (enqueued (transform difyModel chunk)
               (stateAfter (pipeThrough difyModel before) initialState))
       /\ Some "conv-2"
          = lastNonEmpty (idsSeen conversation_id (before ++ [chunk]))
       /\ Some "msg-1"
          = lastNonEmpty (idsSeen message_id (before ++ [chunk]))
       /\ Some "task-1"
          = lastNonEmpty (idsSeen task_id (before ++ [chunk])).
Proof.
  assert (Hin : In twoIdsFinish
                  (streamParts difyModel
                     [Success firstMessage; Success lastMessageEnd])).
  { right; right; right; left. reflexivity. }
  split; [exact Hin | ].
  exact (finish_ids_are_latest difyModel
           [Success firstMessage; Success lastMessageEnd] _ _ _ Hin).
Defined.

(** C2, refuted as stated: the first non-empty conversation id of the
    stream is "conv-1", and the finish part carries "conv-2", the value of
    the later event. *)
Lemma first_conversation_id_overwritten :
  firstNonEmpty
    (idsSeen conversation_id [Success firstMessage; Success lastMessageEnd])
  = Some "conv-1"
  /\ streamParts difyModel [Success firstMessage; Success lastMessageEnd]
     = [ text_start "answer"; text_delta "answer" "hi";
         text_end "answer"; twoIdsFinish ]
  /\ ~ (forall chunks reason usage md,
          In (finish reason usage md) (streamParts difyModel chunks) ->
          md_conversationId md
          = firstNonEmpty (idsSeen conversation_id chunks)).
Proof.
  split; [reflexivity | split; [reflexivity | ]].
  intro H.
  specialize (H [Success firstMessage; Success lastMessageEnd] _ _ _
                (or_intror (or_intror (or_intror (or_introl eq_refl))))).
  discriminate H.
Qed.

(* ===================================================================== *)
(** ** Objects: lookup after assignment and after a spread *)
(* ===================================================================== *)

Lemma alist_get_set {A : Type} k k' (v : A) o :
  alist_get k (alist_set k' v o)
  = if k' =? k then Some v else alist_get k o.
Proof.
  induction o as [|[k0 v0] o IH]; simpl.
  - reflexivity.
  - destruct (k0 =? k') eqn:H0; simpl.
    + apply String.eqb_eq in H0. subst k0.
      destruct (k' =? k); reflexivity.
    + destruct (k0 =? k) eqn:H1; [ | exact IH].
      apply String.eqb_eq in H1. subst k0.
      now rewrite (String.eqb_sym k' k), H0.
Qed.

Lemma alist_get_app {A : Type} k (o o' : list (string * A)) :
  alist_get k (o ++ o')
  = match alist_get k o with
    | Some v => Some v
    | None => alist_get k o'
    end.
Proof.
  induction o as [|[k0 v0] o IH]; simpl; [reflexivity | ].
  destruct (k0 =? k); auto.
Qed.

(** A property read from [{ ...init, ...src }] is the last one [src]
    writes, else that of [init]. *)
Lemma obj_get_spread k src : forall init,
  obj_get k (spread init src)
  = match obj_get k (rev src) with
    | Some v => Some v
    | None => obj_get k init
    end.
Proof.
  unfold spread, obj_get, obj_set.
  induction src as [|[k' v'] src IH]; intro init; simpl.
  - reflexivity.
  - rewrite IH, alist_get_app, alist_get_set. simpl.
    destruct (alist_get k (rev src)); auto.
    destruct (k' =? k); reflexivity.
Qed.


(** Keys are distinct in an object: then the last write of a key in a
    spread is its only one. *)
Lemma alist_get_rev {A : Type} k (o : list (string * A)) :
  NoDup (map fst o) -> alist_get k (rev o) = alist_get k o.
Proof.
  induction o as [|[k0 v0] o IH]; simpl; [auto | ].
  intro Hnd. inversion Hnd as [|? ? Hnotin Hnd']; subst.
  rewrite alist_get_app, (IH Hnd'). simpl.
  destruct (k0 =? k) eqn:H0.
  - apply String.eqb_eq in H0. subst k0.
    assert (Hnone : alist_get k o = None).
    { clear -Hnotin. induction o as [|[k1 v1] o IH]; simpl; [auto | ].
      destruct (k1 =? k) eqn:H1.
      - apply String.eqb_eq in H1. subst. exfalso. apply Hnotin. now left.
      - apply IH. intro Hin. apply Hnotin. now right. }
    now rewrite Hnone.
  - now destruct (alist_get k o).
Qed.

Lemma is_base_key_false k :
  is_base_key k = false ->
  ("event" =? k) = false /\ ("conversation_id" =? k) = false
  /\ ("message_id" =? k) = false /\ ("task_id" =? k) = false
  /\ ("created_at" =? k) = false.
Proof.
  unfold is_base_key, baseKeys. simpl.
  rewrite !orb_false_iff, !(String.eqb_sym k). tauto.
Qed.

Lemma alist_get_opt_field k k0 v :
  (k0 =? k) = false -> alist_get k (opt_field k0 v) = None.
Proof.
  intro H. unfold opt_field.
  destruct v; cbn [alist_get]; rewrite ?H; reflexivity.
Qed.

Lemma alist_get_single {A : Type} k k0 (v : A) :
  (k0 =? k) = false -> alist_get k [(k0, v)] = None.
Proof. intro H. cbn [alist_get]. now rewrite H. Qed.

(** The common fields aside, the validated object holds the properties of
    [rest]. *)
Lemma obj_get_event_obj k data :
  is_base_key k = false ->
  obj_get k (event_obj data) = obj_get k (rest data).
Proof.
  intro Hk. apply is_base_key_false in Hk.
  destruct Hk as (H1 & H2 & H3 & H4 & H5).
  unfold event_obj, obj_get.
  rewrite !alist_get_app, !alist_get_opt_field, alist_get_single by assumption.
  reflexivity.
Qed.


(* ===================================================================== *)
(** ** [node_finished] for a node that was never started *)
(* ===================================================================== *)


Example nodeFinishedElement_validates :
  Zod.parse nodeFinishedSchema nodeFinishedElement
  = Some (VObj (event_obj nodeFinishedEvent))
  /\ safeValidate nodeFinishedElement = Success nodeFinishedEvent.
Proof. split; reflexivity. Qed.



(* ===================================================================== *)
(** ** Events of an unknown kind *)
(* ===================================================================== *)

Lemma known_discriminators :
  map (Zod.discriminator "event") knownEventSchemas = map Some knownEvents.
Proof. reflexivity. Qed.

Lemma find_discriminator_none key tag schemas : forall lits,
  map (Zod.discriminator key) schemas = map Some lits ->
  ~ In tag lits ->
  find (Zod.has_discriminator key tag) schemas = None.
Proof.
  induction schemas as [|t schemas IH]; intros lits Hmap Hnotin.
  - reflexivity.
  - destruct lits as [|lit lits]; [discriminate | ].
    simpl in Hmap. injection Hmap as Hlit Hrest.
    simpl. unfold Zod.has_discriminator at 1. rewrite Hlit.
    destruct (lit =? tag) eqn:Heq.
    + apply String.eqb_eq in Heq. exfalso. apply Hnotin. now left.
    + apply (IH lits); auto. intro Hin. apply Hnotin. now right.
Qed.

(** An element whose tag is not a known kind is decided by the fallback. *)
Lemma unknown_tag_falls_back props tag :
  prop "event" props = VStr tag ->
  ~ In tag knownEvents ->
  difyStreamEventSchema (VObj props)
  = Zod.parse difyStreamEventBase (VObj props).
Proof.
  intros Hev Hunknown.
  unfold difyStreamEventSchema, Zod.or, Zod.discriminatedUnion.
  rewrite Hev.
  now rewrite (find_discriminator_none "event" tag knownEventSchemas
                 knownEvents known_discriminators Hunknown).
Qed.

Lemma filter_filter_ext {A : Type} (f g : A -> bool) (l : list A) :
  (forall x, f x = g x) -> filter f (filter g l) = filter f l.
Proof.
  intro Hext. induction l as [|x l IH]; simpl; [reflexivity | ].
  rewrite (Hext x).
  destruct (g x) eqn:Hg; simpl; [ | exact IH].
  now rewrite Hext, Hg, IH.
Qed.

Lemma alist_get_filter_out {A : Type} k (f : string * A -> bool) o :
  (forall v, f (k, v) = false) -> alist_get k (filter f o) = None.
Proof.
  intro Hout. induction o as [|[k0 v0] o IH]; simpl; [reflexivity | ].
  destruct (f (k0, v0)) eqn:Hf; [ | exact IH].
  simpl. destruct (k0 =? k) eqn:Heq; [ | exact IH].
  apply String.eqb_eq in Heq. subst. now rewrite Hout in Hf.
Qed.

Lemma alist_get_filter_in {A : Type} k (f : string * A -> bool) o :
  (forall v, f (k, v) = true) -> alist_get k (filter f o) = alist_get k o.
Proof.
  intro Hin. induction o as [|[k0 v0] o IH]; simpl; [reflexivity | ].
  destruct (k0 =? k) eqn:Heq.
  - apply String.eqb_eq in Heq. subst. rewrite Hin. simpl.
    now rewrite String.eqb_refl.
  - destruct (f (k0, v0)); simpl; rewrite ?Heq; exact IH.
Qed.

Lemma in_base_shape k : Zod.in_shape k baseShape = is_base_key k.
Proof.
  unfold Zod.in_shape, is_base_key, baseKeys, baseShape.
  cbn [alist_get existsb].
  rewrite !(String.eqb_sym k).
  destruct ("event" =? k), ("conversation_id" =? k), ("message_id" =? k),
           ("task_id" =? k), ("created_at" =? k); reflexivity.
Qed.

Lemma undeclared_base_key k props :
  is_base_key k = true -> alist_get k (undeclared props) = None.
Proof.
  intro Hk. apply alist_get_filter_out. intro v. cbn [fst].
  now rewrite in_base_shape, Hk.
Qed.

Lemma undeclared_rest props :
  filter (fun kv => negb (is_base_key (fst kv))) (undeclared props)
  = filter (fun kv => negb (is_base_key (fst kv))) props.
Proof.
  apply filter_filter_ext. intros [k v]. cbn [fst].
  now rewrite in_base_shape.
Qed.

(** The fallback accepts the element and returns it as an event: the common
    fields read at their types, every other property kept in order. *)
Lemma fallback_validates props tag :
  prop "event" props = VStr tag ->
  commonFieldsTyped props = true ->
  match Zod.parse difyStreamEventBase (VObj props) with
  | Some (VObj o) => to_event o = to_event props
  | _ => False
  end.
Proof.
  intros Hev Htyped.
  unfold commonFieldsTyped in Htyped.
  rewrite !andb_true_iff in Htyped.
  destruct Htyped as (((Hc & Hm) & Ht) & Hn).
  unfold difyStreamEventBase, passthrough, object.
  cbn [Zod.parse]. fold baseShape. fold (undeclared props).
  unfold has_key. revert Hev Hc Hm Ht Hn. unfold prop.
  destruct (obj_get "event" props) as [ev|] eqn:Hev; [ | discriminate].
  intros ->.
  destruct (obj_get "conversation_id" props) as [[ | | | | c | | ]|] eqn:Hc;
    try discriminate; intros _;
  destruct (obj_get "message_id" props) as [[ | | | | m | | ]|] eqn:Hm;
    try discriminate; intros _;
  destruct (obj_get "task_id" props) as [[ | | | | t | | ]|] eqn:Ht;
    try discriminate; intros _;
  destruct (obj_get "created_at" props) as [[ | | | n | | | ]|] eqn:Hn;
    try discriminate; intros _;
  cbn [Zod.is_undefined negb orb];
  unfold to_event, prop, obj_get;
  rewrite filter_app, undeclared_rest, !alist_get_app;
  rewrite !undeclared_base_key by reflexivity;
  unfold obj_get in *; rewrite ?Hev, ?Hc, ?Hm, ?Ht, ?Hn;
  reflexivity.
Qed.

Lemma unknown_tag_validates props tag :
  prop "event" props = VStr tag ->
  ~ In tag knownEvents ->
  commonFieldsTyped props = true ->
  safeValidate (VObj props) = Success (fallbackEvent tag props).
Proof.
  intros Hev Hunknown Htyped.
  unfold safeValidate.
  rewrite (unknown_tag_falls_back props tag Hev Hunknown).
  pose proof (fallback_validates props tag Hev Htyped) as Hparse.
  destruct (Zod.parse difyStreamEventBase (VObj props))
    as [[ | | | | | | o]|]; try contradiction.
  rewrite Hparse. unfold to_event. now rewrite Hev.
Qed.

Lemma unknown_tag_default self data :
  ~ In (event data) knownEvents ->
  dispatch self data = case_default data.
Proof.
  intro Hunknown. unfold dispatch.
  repeat match goal with
         | |- context [event data =? ?lit] =>
             let H := fresh "Hne" in
             assert (H : (event data =? lit) = false)
               by (apply String.eqb_neq; intro Heq; apply Hunknown;
                   rewrite Heq; simpl; tauto);
             rewrite H; clear H
         end.
  reflexivity.
Qed.

Lemma rest_keys_not_base k (props : obj) :
  In k (map fst (filter (fun kv => negb (is_base_key (fst kv))) props)) ->
  is_base_key k = false.
Proof.
  intro Hin. apply in_map_iff in Hin. destruct Hin as ([k' v] & <- & Hin).
  apply filter_In in Hin. destruct Hin as (_ & Hnb).
  now apply negb_true_iff in Hnb.
Qed.

Lemma NoDup_keys_filter {A : Type} (f : string * A -> bool) o :
  NoDup (map fst o) -> NoDup (map fst (filter f o)).
Proof.
  induction o as [|[k v] o IH]; simpl; intro Hnd; [constructor | ].
  inversion Hnd as [|? ? Hnotin Hnd']; subst.
  destruct (f (k, v)); simpl; auto.
  constructor; auto.
  intro Hin. apply Hnotin.
  apply in_map_iff in Hin. destruct Hin as (kv & Hk & Hin).
  apply filter_In in Hin. apply in_map_iff. exists kv. tauto.
Qed.

(** The validated object has distinct keys when the element has. *)
Lemma fallback_event_keys tag props :
  NoDup (map fst props) ->
  NoDup (map fst (event_obj (fallbackEvent tag props))).
Proof.
  intro Hnd. unfold event_obj, fallbackEvent.
  cbn [event conversation_id message_id task_id created_at rest].
  rewrite !map_app.
  set (keys := map fst (filter (fun kv => negb (is_base_key (fst kv))) props)).
  assert (Hkeys : NoDup keys) by now apply NoDup_keys_filter.
  assert (Hbase : forall k, is_base_key k = true -> ~ In k keys).
  { intros k Hk Hin. apply rest_keys_not_base in Hin. congruence. }
  clearbody keys.
  destruct (as_string (prop "conversation_id" props)),
           (as_string (prop "message_id" props)),
           (as_string (prop "task_id" props)),
           (as_number (prop "created_at" props));
    cbn [of_string of_number opt_field map fst app];
    repeat (constructor;
            [ cbn [In]; intros Hin;
              repeat (destruct Hin as [Hin | Hin]; [discriminate Hin | ]);
              revert Hin; now apply Hbase
            | ]);
    exact Hkeys.
Qed.

Lemma is_base_key_true k :
  is_base_key k = true ->
  k = "event" \/ k = "conversation_id" \/ k = "message_id"
  \/ k = "task_id" \/ k = "created_at".
Proof.
  unfold is_base_key, baseKeys. cbn [existsb].
  rewrite !orb_true_iff, !String.eqb_eq. intuition discriminate.
Qed.

(** Every property of the element is read back from the validated
    object. *)
Lemma fallback_event_props tag props k :
  prop "event" props = VStr tag ->
  commonFieldsTyped props = true ->
  prop k (event_obj (fallbackEvent tag props)) = prop k props.
Proof.
  intros Hev Htyped.
  destruct (is_base_key k) eqn:Hk.
  - unfold commonFieldsTyped in Htyped.
    rewrite !andb_true_iff in Htyped.
    destruct Htyped as (((Hc & Hm) & Ht) & Hn).
    assert (Hrest : alist_get k
                      (filter (fun kv => negb (is_base_key (fst kv))) props)
                    = None).
    { apply alist_get_filter_out. intro v. cbn [fst]. now rewrite Hk. }
    unfold prop at 1. unfold event_obj, fallbackEvent, obj_get.
    cbn [event conversation_id message_id task_id created_at rest].
    rewrite !alist_get_app, Hrest.
    apply is_base_key_true in Hk.
    destruct Hk as [-> | [-> | [-> | [-> | ->]]]].
    + cbn [alist_get]. rewrite String.eqb_refl. now rewrite Hev.
    + rewrite alist_get_single by reflexivity.
      rewrite (alist_get_opt_field "conversation_id" "message_id"),
              (alist_get_opt_field "conversation_id" "task_id"),
              (alist_get_opt_field "conversation_id" "created_at")
        by reflexivity.
      destruct (prop "conversation_id" props); try discriminate; reflexivity.
    + rewrite alist_get_single by reflexivity.
      rewrite (alist_get_opt_field "message_id" "conversation_id"),
              (alist_get_opt_field "message_id" "task_id"),
              (alist_get_opt_field "message_id" "created_at")
        by reflexivity.
      destruct (prop "message_id" props); try discriminate; reflexivity.
    + rewrite alist_get_single by reflexivity.
      rewrite (alist_get_opt_field "task_id" "conversation_id"),
              (alist_get_opt_field "task_id" "message_id"),
              (alist_get_opt_field "task_id" "created_at")
        by reflexivity.
      destruct (prop "task_id" props); try discriminate; reflexivity.
    + rewrite alist_get_single by reflexivity.
      rewrite (alist_get_opt_field "created_at" "conversation_id"),
              (alist_get_opt_field "created_at" "message_id"),
              (alist_get_opt_field "created_at" "task_id")
        by reflexivity.
      destruct (prop "created_at" props); try discriminate; reflexivity.
  - unfold prop. rewrite obj_get_event_obj by assumption.
    unfold obj_get. cbn [rest fallbackEvent].
    rewrite alist_get_filter_in; [reflexivity | ].
    intro v. cbn [fst]. now rewrite Hk.
Qed.

(** C7, as the code has it.  An element whose [event] tag is a string
    outside the known kinds, and whose common fields have their declared
    types when present, validates through the fallback: the event keeps the
    tag and every property of the element (an object, so its keys are
    distinct).  The translator makes of it one
    raw part and nothing else, in any state.  The raw value holds every
    property of the element; its [difyEvent] is the tag, unless the element
    has a [difyEvent] property of its own, which the spread writes over
    it. *)
Theorem unknown_event_passes_through self props tag :
  prop "event" props = VStr tag ->
  ~ In tag knownEvents ->
  commonFieldsTyped props = true ->
  NoDup (map fst props) ->
  exists data,
    safeValidate (VObj props) = Success data
    /\ event data = tag
    /\ rest data = filter (fun kv => negb (is_base_key (fst kv))) props
    /\ (forall k, prop k (event_obj data) = prop k props)
    /\ forall s,
         exists rawValue,
           enqueued (transform self (Success data)) s = [raw rawValue]
           /\ (forall k, k <> "difyEvent" -> prop k rawValue = prop k props)
           /\ prop "difyEvent" rawValue
              = if has_key "difyEvent" props
                then prop "difyEvent" props else VStr tag.
Proof.
  intros Hev Hunknown Htyped Hnd.
  exists (fallbackEvent tag props).
  split; [now apply unknown_tag_validates | ].
  split; [reflexivity | ].
  split; [reflexivity | ].
  split; [intro k; now apply fallback_event_props | ].
  intro s.
  exists (spread [("difyEvent", VStr tag)]
            (event_obj (fallbackEvent tag props))).
  split.
  - rewrite enqueued_transform_success.
    rewrite (unknown_tag_default self (fallbackEvent tag props) Hunknown).
    reflexivity.
  - assert (Hget : forall k,
              obj_get k (spread [("difyEvent", VStr tag)]
                           (event_obj (fallbackEvent tag props)))
              = match obj_get k (event_obj (fallbackEvent tag props)) with
                | Some v => Some v
                | None => obj_get k [("difyEvent", VStr tag)]
                end).
    { intro k. rewrite obj_get_spread. unfold obj_get.
      now rewrite (alist_get_rev k _ (fallback_event_keys tag props Hnd)). }
    split.
    + intros k Hk.
      rewrite <- (fallback_event_props tag props k Hev Htyped).
      unfold prop. rewrite Hget.
      destruct (obj_get k (event_obj (fallbackEvent tag props)));
        [reflexivity | ].
      unfold obj_get. cbn [alist_get].
      assert (Hne : ("difyEvent" =? k) = false)
        by (apply String.eqb_neq; congruence).
      now rewrite Hne.
    + unfold has_key, prop. rewrite Hget.
      rewrite obj_get_event_obj by reflexivity.
      cbn [rest fallbackEvent]. unfold obj_get.
      rewrite alist_get_filter_in by (intro v; reflexivity).
      destruct (alist_get "difyEvent" props); reflexivity.
Qed.

Lemma unknown_event_passes_through_example :
  prop "event" fooBarElement = VStr "foo_bar"
  /\ ~ In "foo_bar" knownEvents
  /\ commonFieldsTyped fooBarElement = true
  /\ NoDup (map fst fooBarElement)
  /\ exists data,
       safeValidate (VObj fooBarElement) = Success data
       /\ event data = "foo_bar"
       /\ rest data
          = filter (fun kv => negb (is_base_key (fst kv))) fooBarElement
       /\ (forall k, prop k (event_obj data) = prop k fooBarElement)
       /\ forall s,
            exists rawValue,
              enqueued (transform difyModel (Success data)) s = [raw rawValue]
              /\ (forall k, k <> "difyEvent" ->
                            prop k rawValue = prop k fooBarElement)
              /\ prop "difyEvent" rawValue
                 = if has_key "difyEvent" fooBarElement
                   then prop "difyEvent" fooBarElement else VStr "foo_bar".
Proof.
  assert (Hunknown : ~ In "foo_bar" knownEvents).
  { cbn [In knownEvents]. intro H.
    repeat (destruct H as [H | H]; [discriminate H | ]). exact H. }
  assert (Hnd : NoDup (map fst fooBarElement)).
  { cbn [map fst fooBarElement].
    repeat (constructor;
            [ cbn [In]; intro H;
              repeat (destruct H as [H | H]; [discriminate H | ]); exact H
            | ]).
    constructor. }
  split; [reflexivity | ].
  split; [exact Hunknown | ].
  split; [reflexivity | ].
  split; [exact Hnd | ].
  exact (unknown_event_passes_through difyModel fooBarElement "foo_bar"
           eq_refl Hunknown eq_refl Hnd).
Defined.

Example fooBar_raw_part :
  streamParts difyModel [safeValidate (VObj fooBarElement)]
  = [ raw [ ("difyEvent", VStr "foo_bar"); ("event", VStr "foo_bar");
            ("task_id", VStr "task-1");
            ("payload", VObj [("n", VNum 1)]) ] ].
Proof. reflexivity. Qed.

(** C7, refuted as stated.  An element of unknown kind that has a
    [difyEvent] property validates, and its raw part reads [difyEvent] as
    that property, not as the tag.  An element of unknown kind whose
    [task_id] is a number fails validation and becomes an error part. *)
Lemma unknown_event_tag_shadowed :
  streamParts difyModel
    [ safeValidate
        (VObj [("event", VStr "foo_bar"); ("difyEvent", VStr "shadow")]) ]
  = [ raw [("difyEvent", VStr "shadow"); ("event", VStr "foo_bar")] ]
  /\ streamParts difyModel
       [ safeValidate
           (VObj [("event", VStr "foo_bar"); ("task_id", VNum 7)]) ]
     = [ error
           (TypeValidationError
              (VObj [("event", VStr "foo_bar"); ("task_id", VNum 7)])) ].
Proof. split; reflexivity. Qed.

(* ===================================================================== *)
(** ** The ledger of a running stream *)
(* ===================================================================== *)

Lemma alist_set_Forall {A : Type} (P : A -> Prop) k v (o : list (string * A)) :
  Forall (fun entry => P (snd entry)) o ->
  P v ->
  Forall (fun entry => P (snd entry)) (alist_set k v o).
Proof.
  intros Hall Hv. induction Hall as [|[k0 v0] o H0 Hall IH]; simpl.
  - repeat constructor. exact Hv.
  - destruct (k0 =? k); constructor; auto.
Qed.

Lemma alist_get_Forall {A : Type} (P : A -> Prop) k v (o : list (string * A)) :
  Forall (fun entry => P (snd entry)) o ->
  alist_get k o = Some v ->
  P v.
Proof.
  intros Hall. induction Hall as [|[k0 v0] o H0 Hall IH]; simpl.
  - discriminate.
  - destruct (k0 =? k); [ | exact IH].
    intros [= <-]. exact H0.
Qed.

Lemma map_set_Forall {A : Type} (P : A -> Prop) k v (m : list (value * A)) :
  Forall (fun entry => P (snd entry)) m ->
  P v ->
  Forall (fun entry => P (snd entry)) (map_set k v m).
Proof.
  intros Hall Hv. induction Hall as [|[k0 v0] m H0 Hall IH]; simpl.
  - repeat constructor. exact Hv.
  - destruct (same_key k0 k); constructor; auto.
Qed.

Lemma map_get_Forall {A : Type} (P : A -> Prop) k v (m : list (value * A)) :
  Forall (fun entry => P (snd entry)) m ->
  map_get k m = Some v ->
  P v.
Proof.
  intros Hall. induction Hall as [|[k0 v0] m H0 Hall IH]; simpl.
  - discriminate.
  - destruct (same_key k0 k); [ | exact IH].
    intros [= <-]. exact H0.
Qed.

Lemma dispatch_ledger self data s :
  ledgerStamped s -> ledgerStamped (stateAfter (dispatch self data) s).
Proof.
  unfold ledgerStamped. intro Hall.
  unfold dispatch, orb.
  step_transform; run_transform; step_transform; simpl; try assumption.
  - (* node_started *)
    apply map_set_Forall; [assumption | ].
    match goal with
    | H : (_ && truthy_number (created_at data)) = true |- _ =>
        apply andb_true_iff in H; destruct H as [_ H]
    end.
    split; simpl; auto.
  - (* node_finished, for a recorded node *)
    apply map_set_Forall; [assumption | ].
    match goal with
    | H : (_ && truthy_number (created_at data)) = true |- _ =>
        apply andb_true_iff in H; destruct H as [_ Hstamp]
    end.
    match goal with
    | H : map_get ?k (nodes s) = Some ?n |- _ =>
        pose proof (map_get_Forall stamped k n (nodes s) Hall H)
          as [Hstart _]
    end.
    split; simpl; auto.
Qed.

Lemma transform_ledger self chunk s :
  ledgerStamped s -> ledgerStamped (stateAfter (transform self chunk) s).
Proof.
  intro Hall. destruct chunk as [data | err]; [ | exact Hall].
  rewrite stateAfter_transform_success. apply dispatch_ledger.
  unfold ledgerStamped.
  destruct (storeIds_frame data s) as (_ & _ & _ & _ & _ & _ & -> & _).
  exact Hall.
Qed.

Lemma pipeThrough_ledger self chunks : forall s,
  ledgerStamped s -> ledgerStamped (stateAfter (pipeThrough self chunks) s).
Proof.
  induction chunks as [|chunk chunks IH]; intros s Hall.
  - exact Hall.
  - rewrite stateAfter_pipeThrough_cons. apply IH.
    now apply transform_ledger.
Qed.

(** In the report of a running stream every node holds the difference of
    its two timestamps as soon as both are stored, and no duration before:
    the zero timestamps that the truthiness tests would discard never enter
    the ledger. *)
Lemma running_report_durations self chunks :
  match
    executionReport_message_end
      (stateAfter (pipeThrough self chunks) initialState)
  with
  | Some r =>
      Forall (fun nr =>
                duration nr
                = match startedAt (node nr), finishedAt (node nr) with
                  | Some a, Some b => Some (b - a)%Z
                  | _, _ => None
                  end)
        (report_nodes r)
  | None => True
  end.
Proof.
  pose proof (pipeThrough_ledger self chunks initialState (Forall_nil _))
    as Hledger.
  set (state := stateAfter (pipeThrough self chunks) initialState) in *.
  pose proof (executionReport_message_end_shape state) as Hreport.
  destruct (executionReport_message_end state) as [r|]; [ | exact I].
  destruct Hreport as (_ & _ & _ & _ & _ & _ & Hnodes & Hdur).
  unfold ledgerStamped in Hledger.
  rewrite Forall_forall in *. intros nr Hin.
  rewrite (Hdur nr Hin).
  assert (Hst : stamped (node nr)).
  { assert (Hin' : In (node nr) (map snd (nodes state))).
    { rewrite <- Hnodes. now apply in_map. }
    apply in_map_iff in Hin'. destruct Hin' as (entry & <- & Hentry).
    exact (Hledger entry Hentry). }
  destruct Hst as [Hstart Hfinish].
  unfold durationOf, truthy_number in *.
  destruct (startedAt (node nr)) as [a|]; simpl in *; [ | reflexivity].
  destruct (finishedAt (node nr)) as [b|]; simpl in *; [ | reflexivity].
  destruct Hfinish as [Hfinish | Hfinish]; [discriminate | ].
  apply negb_true_iff in Hstart, Hfinish. now rewrite Hstart, Hfinish.
Qed.

(* ===================================================================== *)
(** ** Further runs of the splitter *)
(* ===================================================================== *)

(** The two fragments of a reasoning block, as [message] events of a
    stream. *)
Example think_fragments_stream :
  streamParts difyModel
    [ Success (messageEvent ("<think>" ++ LF ++ "foo"));
      Success (messageEvent ("bar" ++ LF ++ "</think>baz")) ]
  = [ reasoning_start "id-0"; reasoning_delta "id-0" "foo";
      reasoning_delta "id-0" "bar"; reasoning_end "id-0";
      text_start "answer"; text_delta "answer" "baz" ].
Proof. reflexivity. Qed.

(** A plain fragment opens the answer channel once. *)
Example plain_fragments_stream :
  streamParts difyModel
    [ Success (messageEvent "hello"); Success (messageEvent " world") ]
  = [ text_start "answer"; text_delta "answer" "hello";
      text_delta "answer" " world" ].
Proof. reflexivity. Qed.

(** The text after the end marker is [parts[1]] of the split: it stops at a
    second end marker, and what follows that one is dropped. *)
Lemma text_after_end_marker_is_second_piece self s :
  isInThinking s = true ->
  enqueued
    (parseContentWithThinking self
       ("a" ++ LF ++ "</think>b" ++ LF ++ "</think>c")) s
  = [ reasoning_delta (reasoningId s) "a"; reasoning_end (reasoningId s);
      text_start "answer"; text_delta "answer" "b" ]
  /\ enqueued
       (parseContentWithThinking self
          ("a" ++ LF ++ "</think>" ++ LF ++ "</think>c")) s
     = [ reasoning_delta (reasoningId s) "a"; reasoning_end (reasoningId s) ].
Proof.
  intro Hthink. destruct s; simpl in Hthink; subst. split; reflexivity.
Qed.

(* ===================================================================== *)
(** ** Strings: markers, prefixes and pieces *)
(* ===================================================================== *)

Lemma substring_from_app p s :
  substring_from (String.length p) (p ++ s) = s.
Proof. induction p as [|c p IH]; simpl; auto. Qed.

Lemma prefix_app sep s : String.prefix sep (sep ++ s) = true.
Proof.
  induction sep as [|c sep IH]; simpl; [now destruct s | ].
  destruct (ascii_dec c c); [exact IH | congruence].
Qed.

Lemma prefix_cons a s1 b s2 :
  String.prefix (String a s1) (String b s2)
  = Ascii.eqb a b && String.prefix s1 s2.
Proof.
  simpl. destruct (ascii_dec a b) as [-> | Hne].
  - now rewrite Ascii.eqb_refl.
  - apply Ascii.eqb_neq in Hne. now rewrite Hne.
Qed.

Lemma prefix_nil s : String.prefix "" s = true.
Proof. now destruct s. Qed.

(** Neither marker overlaps itself: an occurrence cannot start inside a
    text and run into a marker that follows it. *)
Ltac split_on_chars :=
  repeat match goal with
         | |- context [Ascii.eqb ?a ?b] =>
             is_var b; destruct (Ascii.eqb a b); cbn [andb]
         end.

Ltac no_overlap p Hne Hpre :=
  destruct p as [|? p]; [congruence | ];
  repeat (destruct p as [|? p];
          [ cbn [append]; rewrite !prefix_cons; split_on_chars; reflexivity
          | ]);
  cbn [append] in *; rewrite !prefix_cons, ?prefix_nil in *;
  revert Hpre; split_on_chars; auto.

Lemma thinkStart_no_overlap p s :
  p <> "" ->
  String.prefix thinkStart p = false ->
  String.prefix thinkStart (p ++ thinkStart ++ s) = false.
Proof.
  intros Hne Hpre. unfold thinkStart, LF in *.
  change (ascii_of_nat 10) with "010"%char in *.
  no_overlap p Hne Hpre.
Qed.

Lemma thinkEnd_no_overlap p s :
  p <> "" ->
  String.prefix thinkEnd p = false ->
  String.prefix thinkEnd (p ++ thinkEnd ++ s) = false.
Proof.
  intros Hne Hpre. unfold thinkEnd, LF in *.
  change (ascii_of_nat 10) with "010"%char in *.
  no_overlap p Hne Hpre.
Qed.

Lemma string_app_assoc (a b c : string) : ((a ++ b) ++ c = a ++ (b ++ c))%string.
Proof. induction a as [|x a IH]; simpl; congruence. Qed.

Lemma string_app_nil (a : string) : (a ++ "" = a)%string.
Proof. induction a as [|x a IH]; simpl; congruence. Qed.

Lemma indexOf_unfold sub s :
  indexOf sub s
  = if String.prefix sub s then Some 0
    else match s with
         | EmptyString => None
         | String _ s' => option_map S (indexOf sub s')
         end.
Proof. now destruct s. Qed.

Lemma includes_cons_false sub c s :
  includes sub (String c s) = false ->
  String.prefix sub (String c s) = false /\ includes sub s = false.
Proof.
  unfold includes. rewrite indexOf_unfold.
  destruct (String.prefix sub (String c s)); [discriminate | ].
  destruct (indexOf sub s); [discriminate | auto].
Qed.

Lemma includes_nil_false sub :
  includes sub "" = false -> String.prefix sub "" = false.
Proof.
  unfold includes. rewrite indexOf_unfold.
  now destruct (String.prefix sub "").
Qed.

Lemma textBefore_unfold sep s :
  textBefore sep s
  = if String.prefix sep s then EmptyString
    else match s with
         | EmptyString => EmptyString
         | String c s' => String c (textBefore sep s')
         end.
Proof. now destruct s. Qed.

(** The separator still to be skipped is dropped from the text. *)
Lemma split_from_skip sep s : forall skip cur,
  split_from sep skip cur s = split_from sep 0 cur (substring_from skip s).
Proof.
  induction s as [|c s IH]; intros skip cur.
  - now destruct skip.
  - destruct skip as [|skip]; [reflexivity | ].
    simpl split_from at 1. simpl substring_from. apply IH.
Qed.

Section Marker.

(** A non-empty marker that does not overlap itself. *)
Variable sep : string.
Hypothesis sep_nonempty : sep <> "".
Hypothesis sep_no_overlap : forall p s,
  p <> "" ->
  String.prefix sep p = false ->
  String.prefix sep (p ++ sep ++ s) = false.

Lemma prefix_before_marker c p s :
  includes sep (String c p) = false ->
  String.prefix sep (String c p ++ sep ++ s) = false.
Proof.
  intro H. apply includes_cons_false in H. destruct H as [Hpre _].
  apply sep_no_overlap; [discriminate | exact Hpre].
Qed.

(** The first occurrence of the marker after a text that holds none. *)
Lemma indexOf_marker p s :
  includes sep p = false ->
  indexOf sep (p ++ sep ++ s) = Some (String.length p).
Proof.
  induction p as [|c p IH]; intro Hnone.
  - simpl. rewrite indexOf_unfold, prefix_app. reflexivity.
  - rewrite indexOf_unfold, (prefix_before_marker c p s Hnone).
    apply includes_cons_false in Hnone. destruct Hnone as [_ Hnone].
    simpl. now rewrite (IH Hnone).
Qed.

Lemma includes_marker p s : includes sep (p ++ sep ++ s) = true.
Proof.
  induction p as [|c p IH].
  - unfold includes. simpl. rewrite indexOf_unfold, prefix_app. reflexivity.
  - unfold includes in *. rewrite indexOf_unfold.
    destruct (String.prefix sep (String c p ++ sep ++ s)); [reflexivity | ].
    simpl. destruct (indexOf sep (p ++ sep ++ s)); [reflexivity | discriminate].
Qed.

Lemma split_from_marker p s : forall cur,
  includes sep p = false ->
  split_from sep 0 cur (p ++ sep ++ s)
  = (cur ++ p)%string :: split_from sep 0 "" s.
Proof.
  induction p as [|c p IH]; intros cur Hnone.
  - rewrite string_app_nil. simpl append.
    destruct sep as [|c0 sep'] eqn:Hsep; [congruence | ].
    rewrite <- Hsep at 1.
    change (String c0 sep' ++ s)%string with (String c0 (sep' ++ s)).
    cbn [split_from].
    assert (Hpre : String.prefix sep (String c0 (sep' ++ s)) = true).
    { rewrite Hsep. apply (prefix_app (String c0 sep') s). }
    rewrite Hpre, split_from_skip.
    replace (String.length sep - 1) with (String.length sep')
      by (rewrite Hsep; cbn [String.length]; now rewrite Nat.sub_1_r).
    rewrite substring_from_app. now rewrite Hsep.
  - change (String c p ++ sep ++ s)%string with (String c (p ++ sep ++ s)).
    cbn [split_from].
    change (String c (p ++ sep ++ s)) with (String c p ++ sep ++ s)%string.
    rewrite (prefix_before_marker c p s Hnone).
    apply includes_cons_false in Hnone. destruct Hnone as [_ Hnone].
    rewrite (IH _ Hnone), string_app_assoc. reflexivity.
Qed.

Lemma split_from_none t : forall cur,
  includes sep t = false ->
  split_from sep 0 cur t = [(cur ++ t)%string].
Proof.
  induction t as [|c t IH]; intros cur Hnone.
  - now rewrite string_app_nil.
  - apply includes_cons_false in Hnone. destruct Hnone as [Hpre Hnone].
    cbn [split_from]. rewrite Hpre, (IH _ Hnone), string_app_assoc.
    reflexivity.
Qed.

Lemma textBefore_marker p s :
  includes sep p = false -> textBefore sep (p ++ sep ++ s) = p.
Proof.
  induction p as [|c p IH]; intro Hnone.
  - simpl append. now rewrite textBefore_unfold, prefix_app.
  - change (String c p ++ sep ++ s)%string with (String c (p ++ sep ++ s)).
    rewrite textBefore_unfold.
    change (String c (p ++ sep ++ s)) with (String c p ++ sep ++ s)%string.
    rewrite (prefix_before_marker c p s Hnone).
    change (String c p ++ sep ++ s)%string with (String c (p ++ sep ++ s)).
    apply includes_cons_false in Hnone. destruct Hnone as [_ Hnone].
    now rewrite (IH Hnone).
Qed.

Lemma textBefore_none t :
  includes sep t = false -> textBefore sep t = t.
Proof.
  induction t as [|c t IH]; intro Hnone.
  - apply includes_nil_false in Hnone.
    now rewrite textBefore_unfold, Hnone.
  - apply includes_cons_false in Hnone. destruct Hnone as [Hpre Hnone].
    rewrite textBefore_unfold, Hpre. now rewrite (IH Hnone).
Qed.

End Marker.

(* ===================================================================== *)
(** ** The splitter, fragment by fragment *)
(* ===================================================================== *)

Lemma split_one_marker r t :
  includes thinkEnd r = false ->
  includes thinkEnd t = false ->
  split thinkEnd (r ++ thinkEnd ++ t) = [r; t].
Proof.
  intros Hr Ht. unfold split.
  rewrite (split_from_marker thinkEnd ltac:(discriminate)
             thinkEnd_no_overlap r t "" Hr).
  now rewrite (split_from_none thinkEnd t "" Ht).
Qed.

Lemma split_two_markers r t u :
  includes thinkEnd r = false ->
  includes thinkEnd t = false ->
  exists rest, split thinkEnd (r ++ thinkEnd ++ t ++ thinkEnd ++ u)
               = r :: t :: rest.
Proof.
  intros Hr Ht. unfold split.
  rewrite (split_from_marker thinkEnd ltac:(discriminate)
             thinkEnd_no_overlap r _ "" Hr).
  rewrite (split_from_marker thinkEnd ltac:(discriminate)
             thinkEnd_no_overlap t u "" Ht).
  eauto.
Qed.

(** X1.  Outside a reasoning block, a fragment with a begin marker opens a
    block under a fresh id; the text before the marker is dropped, and the
    text after it becomes one reasoning-delta whatever it holds (an end
    marker in it is not looked for).  The splitter is then inside the
    block. *)
Theorem begin_marker_fragment self s before after :
  isInThinking s = false ->
  includes thinkStart before = false ->
  let id := generateId self (generated s) in
  let s' :=
    stateAfter
      (parseContentWithThinking self (before ++ thinkStart ++ after)) s in
  enqueued (parseContentWithThinking self (before ++ thinkStart ++ after)) s
  = reasoning_start id
    :: (if nonEmpty after then [reasoning_delta id after] else [])
  /\ isInThinking s' = true
  /\ reasoningId s' = id
  /\ generated s' = S (generated s)
  /\ isActiveText s' = isActiveText s.
Proof.
  intros Hthink Hbefore id s'. subst s'.
  unfold parseContentWithThinking, enqueued, stateAfter, bind, get, when,
    freshId, modify, enqueue, indexOfZ, substringZ.
  rewrite (includes_marker thinkStart before after), Hthink.
  rewrite (indexOf_marker thinkStart thinkStart_no_overlap before after
             Hbefore).
  rewrite <- Nat2Z.inj_add, Nat2Z.id, Nat.add_comm.
  assert (Hcut : substring_from
                   (String.length thinkStart + String.length before)
                   (before ++ thinkStart ++ after) = after).
  { rewrite Nat.add_comm.
    replace (String.length before + String.length thinkStart)
      with (String.length (before ++ thinkStart))
      by (clear; induction before; simpl; auto).
    rewrite <- string_app_assoc. apply substring_from_app. }
  rewrite Hcut. cbn [andb negb fst snd].
  destruct (nonEmpty after); cbn; auto.
Qed.

Lemma begin_marker_fragment_example :
  isInThinking initialState = false
  /\ includes thinkStart "Sure. " = false
  /\ enqueued
       (parseContentWithThinking difyModel
          ("Sure. " ++ thinkStart ++ "plan" ++ thinkEnd ++ "done"))
       initialState
     = [ reasoning_start "id-0";
         reasoning_delta "id-0" ("plan" ++ thinkEnd ++ "done") ].
Proof.
  split; [reflexivity | split; [reflexivity | ]].
  exact (proj1 (begin_marker_fragment difyModel initialState "Sure. "
                  ("plan" ++ thinkEnd ++ "done") eq_refl eq_refl)).
Defined.

(** Inside a reasoning block, a fragment cut at its one end marker. *)
Lemma end_marker_cut self s reasoning text :
  isInThinking s = true ->
  includes thinkEnd reasoning = false ->
  includes thinkEnd text = false ->
  enqueued
    (parseContentWithThinking self (reasoning ++ thinkEnd ++ text)) s
  = ((if nonEmpty reasoning
      then [reasoning_delta (reasoningId s) reasoning] else [])
     ++ [reasoning_end (reasoningId s)]
     ++ (if nonEmpty text
         then [text_start "answer"; text_delta "answer" text] else []))%list
  /\ isInThinking
       (stateAfter
          (parseContentWithThinking self (reasoning ++ thinkEnd ++ text)) s)
     = false.
Proof.
  intros Hthink Hr Ht.
  pose proof (end_marker_branch self s (reasoning ++ thinkEnd ++ text) Hthink
                (includes_marker thinkEnd reasoning text)) as H.
  cbv zeta in H. rewrite (split_one_marker reasoning text Hr Ht) in H.
  exact H.
Qed.

(** X2.  Inside a reasoning block, a fragment with one end marker is cut at
    the marker and nothing of it is lost: the text before the marker is the
    last reasoning-delta, the text after it the text-delta, each left out
    when empty, with reasoning-end between them; the block is left. *)
Theorem end_marker_fragment self s reasoning text :
  isInThinking s = true ->
  includes thinkEnd reasoning = false ->
  includes thinkEnd text = false ->
  enqueued
    (parseContentWithThinking self (reasoning ++ thinkEnd ++ text)) s
  = ((if nonEmpty reasoning
      then [reasoning_delta (reasoningId s) reasoning] else [])
     ++ [reasoning_end (reasoningId s)]
     ++ (if nonEmpty text
         then [text_start "answer"; text_delta "answer" text] else []))%list
  /\ isInThinking
       (stateAfter
          (parseContentWithThinking self (reasoning ++ thinkEnd ++ text)) s)
     = false.
Proof. apply end_marker_cut. Qed.

Lemma end_marker_fragment_example :
  isInThinking (set_isInThinking true initialState) = true
  /\ includes thinkEnd "bar" = false
  /\ includes thinkEnd "baz" = false
  /\ enqueued
       (parseContentWithThinking difyModel ("bar" ++ thinkEnd ++ "baz"))
       (set_isInThinking true initialState)
     = [ reasoning_delta "" "bar"; reasoning_end "";
         text_start "answer"; text_delta "answer" "baz" ].
Proof.
  split; [reflexivity | split; [reflexivity | split; [reflexivity | ]]].
  exact (proj1 (end_marker_fragment difyModel
                  (set_isInThinking true initialState) "bar" "baz"
                  eq_refl eq_refl eq_refl)).
Defined.

(** X3.  Inside a reasoning block, what follows a second end marker in the
    same fragment never reaches the output: the parts are those of the
    fragment cut before that marker. *)
Theorem second_end_marker_drops_text self s reasoning text lost :
  isInThinking s = true ->
  includes thinkEnd reasoning = false ->
  includes thinkEnd text = false ->
  enqueued
    (parseContentWithThinking self
       (reasoning ++ thinkEnd ++ text ++ thinkEnd ++ lost)) s
  = enqueued
      (parseContentWithThinking self (reasoning ++ thinkEnd ++ text)) s.
Proof.
  intros Hthink Hr Ht.
  rewrite (proj1 (end_marker_cut self s reasoning text Hthink Hr Ht)).
  pose proof (end_marker_branch self s
                (reasoning ++ thinkEnd ++ text ++ thinkEnd ++ lost) Hthink
                (includes_marker thinkEnd reasoning _)) as H.
  cbv zeta in H.
  destruct (split_two_markers reasoning text lost Hr Ht) as (rest & Hsplit).
  rewrite Hsplit in H. exact (proj1 H).
Qed.

Lemma second_end_marker_drops_text_example :
  isInThinking (set_isInThinking true initialState) = true
  /\ includes thinkEnd "a" = false
  /\ includes thinkEnd "b" = false
  /\ enqueued
       (parseContentWithThinking difyModel
          ("a" ++ thinkEnd ++ "b" ++ thinkEnd ++ "c"))
       (set_isInThinking true initialState)
     = enqueued
         (parseContentWithThinking difyModel ("a" ++ thinkEnd ++ "b"))
         (set_isInThinking true initialState).
Proof.
  split; [reflexivity | split; [reflexivity | split; [reflexivity | ]]].
  exact (second_end_marker_drops_text difyModel
           (set_isInThinking true initialState) "a" "b" "c"
           eq_refl eq_refl eq_refl).
Defined.

(* ===================================================================== *)
(** ** Streams of answer fragments *)
(* ===================================================================== *)

Lemma transform_message self data fragment s :
  messageWith data fragment ->
  enqueued (transform self (Success data)) s
  = enqueued (parseContentWithThinking self fragment)
      (stateAfter (storeIds data) s)
  /\ stateAfter (transform self (Success data)) s
     = stateAfter (parseContentWithThinking self fragment)
         (stateAfter (storeIds data) s).
Proof.
  intros [Hev Hanswer].
  rewrite enqueued_transform_success, stateAfter_transform_success.
  assert (Hdispatch : dispatch self data = case_message self data).
  { unfold dispatch. now rewrite Hev. }
  rewrite Hdispatch. unfold case_message. rewrite Hanswer, Hev.
  cbn [String.eqb Ascii.eqb Bool.eqb].
  rewrite enqueued_bind, stateAfter_bind. cbn [enqueued stateAfter ret snd fst].
  now rewrite app_nil_r.
Qed.

(** Inside a reasoning block, a fragment without the end marker is one
    reasoning-delta, and the state stays as it is. *)
Lemma reasoning_fragment self fragment s :
  isInThinking s = true ->
  includes thinkEnd fragment = false ->
  enqueued (parseContentWithThinking self fragment) s
  = [reasoning_delta (reasoningId s) fragment]
  /\ stateAfter (parseContentWithThinking self fragment) s = s.
Proof.
  intros Hthink Hend.
  unfold parseContentWithThinking, enqueued, stateAfter, bind, get.
  simpl. rewrite Hthink, Hend, andb_false_r. auto.
Qed.

(** X4.  A run of [message] events whose answers hold no begin marker,
    arriving outside a reasoning block, opens the answer channel at most
    once, only if it is closed and only when a first fragment arrives, and
    then yields one text-delta per event, in order, carrying the answer
    unchanged, the empty ones too. *)
Theorem plain_answers_open_once self datas fragments :
  Forall2 messageWith datas fragments ->
  Forall (fun fragment => includes thinkStart fragment = false) fragments ->
  forall s,
    isInThinking s = false ->
    enqueued (pipeThrough self (map Success datas)) s
    = ((if isActiveText s then []
        else match fragments with
             | [] => []
             | _ :: _ => [text_start "answer"]
             end)
       ++ map (text_delta "answer") fragments)%list.
Proof.
  intros Hall. induction Hall as [|data fragment datas fragments Hmsg Hall IH];
    intros Hplain s Hthink.
  - simpl. now destruct (isActiveText s).
  - inversion Hplain as [|? ? Hfragment Hplain']; subst.
    cbn [map]. rewrite enqueued_pipeThrough_cons.
    destruct (transform_message self data fragment s Hmsg) as [-> ->].
    destruct (storeIds_frame data s)
      as (Hthink' & _ & _ & _ & _ & _ & _ & Htext' & _).
    set (s' := stateAfter (storeIds data) s) in *.
    rewrite <- Hthink' in Hthink.
    destruct (plain_fragment self fragment s' Hthink Hfragment)
      as (Hout & Hopen & Hstill).
    rewrite Hout, (IH Hplain' _ Hstill), Hopen, Htext'.
    cbn [app]. now rewrite <- app_assoc.
Qed.

Lemma plain_answers_open_once_example :
  Forall2 messageWith
    [messageEvent "Hello"; messageEvent ""; messageEvent " world"]
    ["Hello"; ""; " world"]
  /\ Forall (fun fragment => includes thinkStart fragment = false)
       ["Hello"; ""; " world"]
  /\ isInThinking initialState = false
  /\ enqueued
       (pipeThrough difyModel
          (map Success
             [messageEvent "Hello"; messageEvent ""; messageEvent " world"]))
       initialState
     = [ text_start "answer"; text_delta "answer" "Hello";
         text_delta "answer" ""; text_delta "answer" " world" ].
Proof.
  assert (Hall : Forall2 messageWith
                   [messageEvent "Hello"; messageEvent "";
                    messageEvent " world"]
                   ["Hello"; ""; " world"]).
  { repeat constructor. }
  assert (Hplain : Forall (fun fragment => includes thinkStart fragment = false)
                     ["Hello"; ""; " world"]).
  { repeat constructor. }
  split; [exact Hall | split; [exact Hplain | split; [reflexivity | ]]].
  exact (plain_answers_open_once difyModel _ _ Hall Hplain initialState
           eq_refl).
Defined.

(** X5.  Inside a reasoning block, a run of [message] events whose answers
    hold no end marker yields one reasoning-delta per event under the id of
    the block, in order, carrying the answer unchanged; a begin marker in
    them opens no second block.  The block stays open and the splitter
    state is untouched. *)
Theorem reasoning_answers_stay_inside self datas fragments :
  Forall2 messageWith datas fragments ->
  Forall (fun fragment => includes thinkEnd fragment = false) fragments ->
  forall s,
    isInThinking s = true ->
    let s' := stateAfter (pipeThrough self (map Success datas)) s in
    enqueued (pipeThrough self (map Success datas)) s
    = map (reasoning_delta (reasoningId s)) fragments
    /\ isInThinking s' = true
    /\ reasoningId s' = reasoningId s
    /\ isActiveText s' = isActiveText s
    /\ generated s' = generated s.
Proof.
  intros Hall. induction Hall as [|data fragment datas fragments Hmsg Hall IH];
    intros Hinside s Hthink.
  - simpl. auto.
  - inversion Hinside as [|? ? Hfragment Hinside']; subst.
    cbn [map]. cbv zeta.
    rewrite enqueued_pipeThrough_cons, stateAfter_pipeThrough_cons.
    destruct (transform_message self data fragment s Hmsg) as [-> ->].
    destruct (storeIds_frame data s)
      as (Hthink' & Hid' & _ & _ & _ & _ & _ & Htext' & _ & Hgen').
    set (s' := stateAfter (storeIds data) s) in *.
    rewrite <- Hthink' in Hthink.
    destruct (reasoning_fragment self fragment s' Hthink Hfragment)
      as (-> & ->).
    destruct (IH Hinside' s' Hthink) as (-> & -> & -> & -> & ->).
    rewrite Hid', Htext', Hgen'. auto.
Qed.

Lemma reasoning_answers_stay_inside_example :
  Forall2 messageWith
    [messageEvent "step 1"; messageEvent (thinkStart ++ "step 2")]
    ["step 1"; thinkStart ++ "step 2"]
  /\ Forall (fun fragment => includes thinkEnd fragment = false)
       ["step 1"; thinkStart ++ "step 2"]
  /\ isInThinking (set_isInThinking true initialState) = true
  /\ enqueued
       (pipeThrough difyModel
          (map Success
             [messageEvent "step 1"; messageEvent (thinkStart ++ "step 2")]))
       (set_isInThinking true initialState)
     = [ reasoning_delta "" "step 1";
         reasoning_delta "" (thinkStart ++ "step 2") ].
Proof.
  assert (Hall : Forall2 messageWith
                   [messageEvent "step 1";
                    messageEvent (thinkStart ++ "step 2")]
                   ["step 1"; thinkStart ++ "step 2"]).
  { repeat constructor. }
  assert (Hinside : Forall (fun fragment => includes thinkEnd fragment = false)
                      ["step 1"; thinkStart ++ "step 2"]).
  { repeat constructor. }
  split; [exact Hall | split; [exact Hinside | split; [reflexivity | ]]].
  exact (proj1 (reasoning_answers_stay_inside difyModel _ _ Hall Hinside
                  (set_isInThinking true initialState) eq_refl)).
Defined.

(* ===================================================================== *)
(** ** The two channels over a whole stream *)
(* ===================================================================== *)

Lemma reasoningTrace_app parts parts' : forall open,
  reasoningTrace open (parts ++ parts')
  = match reasoningTrace open parts with
    | Some open' => reasoningTrace open' parts'
    | None => None
    end.
Proof.
  induction parts as [|p parts IH]; intro open; [reflexivity | ].
  destruct p; simpl; auto; destruct open as [id'|]; auto.
  - destruct (id' =? id); auto.
  - destruct (id' =? id); auto.
Qed.

Lemma textTrace_app parts parts' : forall open,
  textTrace open (parts ++ parts')
  = match textTrace open parts with
    | Some open' => textTrace open' parts'
    | None => None
    end.
Proof.
  induction parts as [|p parts IH]; intro open; [reflexivity | ].
  destruct p; simpl; auto; destruct open; auto.
Qed.

Lemma dispatch_reasoningTrace self data s :
  reasoningTrace (openBlock s) (enqueued (dispatch self data) s)
  = Some (openBlock (stateAfter (dispatch self data) s)).
Proof.
  unfold openBlock.
  crunch_dispatch; rewrite ?String.eqb_refl; try reflexivity; congruence.
Qed.

Lemma dispatch_textTrace self data s :
  textTrace (isActiveText s) (enqueued (dispatch self data) s)
  = Some (isActiveText (stateAfter (dispatch self data) s)).
Proof. crunch_dispatch; try reflexivity; congruence. Qed.

Lemma dispatch_reasoning_flags self data s :
  isActiveReasoning s = isInThinking s ->
  isActiveReasoning (stateAfter (dispatch self data) s)
  = isInThinking (stateAfter (dispatch self data) s).
Proof. intro H. crunch_dispatch; try reflexivity; congruence. Qed.

Lemma transform_channels self chunk s :
  let s' := stateAfter (transform self chunk) s in
  reasoningTrace (openBlock s) (enqueued (transform self chunk) s)
  = Some (openBlock s')
  /\ textTrace (isActiveText s) (enqueued (transform self chunk) s)
     = Some (isActiveText s')
  /\ (isActiveReasoning s = isInThinking s ->
      isActiveReasoning s' = isInThinking s').
Proof.
  destruct chunk as [data | err]; [ | simpl; auto].
  cbv zeta.
  rewrite enqueued_transform_success, stateAfter_transform_success.
  destruct (storeIds_frame data s)
    as (Hthink & Hid & _ & _ & _ & _ & _ & Htext & Hreasoning & _).
  set (s1 := stateAfter (storeIds data) s) in *.
  assert (Hopen : openBlock s = openBlock s1)
    by (unfold openBlock; now rewrite Hthink, Hid).
  rewrite Hopen, <- Htext, <- Hreasoning, <- Hthink.
  split; [apply dispatch_reasoningTrace | ].
  split; [apply dispatch_textTrace | apply dispatch_reasoning_flags].
Qed.

Lemma pipeThrough_channels self chunks : forall s,
  let s' := stateAfter (pipeThrough self chunks) s in
  reasoningTrace (openBlock s) (enqueued (pipeThrough self chunks) s)
  = Some (openBlock s')
  /\ textTrace (isActiveText s) (enqueued (pipeThrough self chunks) s)
     = Some (isActiveText s')
  /\ (isActiveReasoning s = isInThinking s ->
      isActiveReasoning s' = isInThinking s').
Proof.
  induction chunks as [|chunk chunks IH]; intro s.
  - simpl. auto.
  - cbv zeta.
    rewrite enqueued_pipeThrough_cons, stateAfter_pipeThrough_cons.
    destruct (transform_channels self chunk s) as (Hr & Ht & Hf).
    destruct (IH (stateAfter (transform self chunk) s)) as (Hr' & Ht' & Hf').
    rewrite reasoningTrace_app, Hr, textTrace_app, Ht. auto.
Qed.

(** X6.  Whatever the upstream sequence, the reasoning parts of the stream
    are well bracketed: reasoning-start comes only when no block is open,
    and every reasoning-delta and reasoning-end carries the id of the block
    then open.  The block left open at the end is the one the state holds,
    and the two reasoning flags of the state agree. *)
Theorem reasoning_parts_bracketed self chunks :
  let s := stateAfter (pipeThrough self chunks) initialState in
  reasoningTrace None (streamParts self chunks) = Some (openBlock s)
  /\ isActiveReasoning s = isInThinking s.
Proof.
  destruct (pipeThrough_channels self chunks initialState) as (Hr & _ & Hf).
  split; [exact Hr | exact (Hf eq_refl)].
Qed.

(** X7.  Whatever the upstream sequence, no text-delta and no text-end is
    enqueued while the answer channel is closed: each follows a text-start
    with no text-end in between.  The channel is open at the end exactly
    when the state says so. *)
Theorem text_parts_inside_channel self chunks :
  textTrace false (streamParts self chunks)
  = Some (isActiveText (stateAfter (pipeThrough self chunks) initialState)).
Proof.
  exact (proj1 (proj2 (pipeThrough_channels self chunks initialState))).
Qed.

(* ===================================================================== *)
(** ** The node ledger *)
(* ===================================================================== *)

Lemma same_key_eq a b : same_key a b = true -> a = b.
Proof.
  destruct a as [ | | x | x | x | x | x ], b as [ | | y | y | y | y | y ];
    simpl; try discriminate; try reflexivity; intro H.
  - apply Bool.eqb_prop in H. now subst.
  - apply Z.eqb_eq in H. now subst.
  - apply String.eqb_eq in H. now subst.
Qed.

Lemma map_get_In {A : Type} k (v : A) m :
  map_get k m = Some v -> In (k, v) m.
Proof.
  induction m as [|[k0 v0] m IH]; simpl; [discriminate | ].
  destruct (same_key k0 k) eqn:Heq.
  - apply same_key_eq in Heq. intros [= <-]. subst. now left.
  - intro H. right. now apply IH.
Qed.

Lemma map_get_set_eq {A : Type} k (v : A) m :
  same_key k k = true -> map_get k (map_set k v m) = Some v.
Proof.
  intro Hk. induction m as [|[k0 v0] m IH]; simpl.
  - now rewrite Hk.
  - destruct (same_key k0 k) eqn:Heq; simpl; now rewrite Heq.
Qed.

Lemma map_get_set_ne {A : Type} k k' (v : A) m :
  k <> k' -> map_get k (map_set k' v m) = map_get k m.
Proof.
  intro Hne. induction m as [|[k0 v0] m IH]; simpl.
  - destruct (same_key k' k) eqn:Heq; [ | reflexivity].
    apply same_key_eq in Heq. congruence.
  - destruct (same_key k0 k') eqn:Heq; simpl.
    + apply same_key_eq in Heq. subst k0.
      destruct (same_key k' k) eqn:Heq'; [ | reflexivity].
      apply same_key_eq in Heq'. congruence.
    + now rewrite IH.
Qed.

Lemma map_set_keys_in {A : Type} k k' (v : A) m :
  In k (map fst (map_set k' v m)) -> k = k' \/ In k (map fst m).
Proof.
  induction m as [|[k0 v0] m IH]; simpl.
  - intros [H | []]. now left.
  - destruct (same_key k0 k'); simpl; intros [H | H]; auto.
    destruct (IH H); auto.
Qed.

Lemma map_set_keys_NoDup {A : Type} k (v : A) m :
  NoDup (primitiveKeys (map fst m)) ->
  NoDup (primitiveKeys (map fst (map_set k v m))).
Proof.
  unfold primitiveKeys.
  induction m as [|[k0 v0] m IH]; cbn [map_set map fst filter]; intro Hnd.
  - destruct (same_key k k); repeat constructor. intros [].
  - destruct (same_key k0 k) eqn:Heq; cbn [map fst filter];
      [exact Hnd | ].
    destruct (same_key k0 k0) eqn:Hself; [ | auto].
    inversion Hnd as [|? ? Hnotin Hnd']; subst.
    constructor; [ | auto].
    intro Hin. apply filter_In in Hin. destruct Hin as [Hin _].
    apply map_set_keys_in in Hin.
    destruct Hin as [-> | Hin]; [congruence | ].
    apply Hnotin. apply filter_In. now split.
Qed.

Lemma map_set_keyed k v m :
  Forall (fun entry : value * NodeInfo => nodeId (snd entry) = fst entry) m ->
  nodeId v = k ->
  Forall (fun entry : value * NodeInfo => nodeId (snd entry) = fst entry)
    (map_set k v m).
Proof.
  intros Hall Hv. induction Hall as [|[k0 v0] m H0 Hall IH]; simpl.
  - repeat constructor. exact Hv.
  - destruct (same_key k0 k) eqn:Heq; constructor; auto.
    apply same_key_eq in Heq. simpl. congruence.
Qed.

Lemma dispatch_ledgerKeyed self data s :
  ledgerKeyed s -> ledgerKeyed (stateAfter (dispatch self data) s).
Proof.
  unfold ledgerKeyed. intros [Hnd Hall].
  crunch_dispatch; try (split; assumption).
  - split; [now apply map_set_keys_NoDup | now apply map_set_keyed].
  - split; [now apply map_set_keys_NoDup | ].
    apply map_set_keyed; [assumption | ]. simpl.
    match goal with
    | H : map_get ?k (nodes s) = Some _ |- _ =>
        apply map_get_In in H;
        rewrite Forall_forall in Hall; exact (Hall _ H)
    end.
Qed.

Lemma transform_ledgerKeyed self chunk s :
  ledgerKeyed s -> ledgerKeyed (stateAfter (transform self chunk) s).
Proof.
  intro Hkeyed. destruct chunk as [data | err]; [ | exact Hkeyed].
  rewrite stateAfter_transform_success. apply dispatch_ledgerKeyed.
  unfold ledgerKeyed.
  destruct (storeIds_frame data s) as (_ & _ & _ & _ & _ & _ & -> & _).
  exact Hkeyed.
Qed.

Lemma pipeThrough_ledgerKeyed self chunks : forall s,
  ledgerKeyed s -> ledgerKeyed (stateAfter (pipeThrough self chunks) s).
Proof.
  induction chunks as [|chunk chunks IH]; intros s Hkeyed.
  - exact Hkeyed.
  - rewrite stateAfter_pipeThrough_cons. apply IH.
    now apply transform_ledgerKeyed.
Qed.

(** X8.  Whatever the upstream sequence, each record of the ledger is
    stored under the node id it carries, and no two records carry the same
    id when the id is a string, a number, a boolean or [null]: the node list
    of the execution report names no such id twice.  An id that is an array
    or an object is a key of its own each time it comes, so such an id may
    repeat. *)
Theorem ledger_one_record_per_node self chunks :
  let s := stateAfter (pipeThrough self chunks) initialState in
  NoDup (primitiveKeys (map fst (nodes s)))
  /\ Forall (fun entry => nodeId (snd entry) = fst entry) (nodes s)
  /\ match executionReport_message_end s with
     | Some r =>
         NoDup (primitiveKeys
                  (map (fun nr => nodeId (node nr)) (report_nodes r)))
     | None => True
     end.
Proof.
  cbv zeta.
  assert (Hinit : ledgerKeyed initialState).
  { split; simpl; constructor. }
  destruct (pipeThrough_ledgerKeyed self chunks initialState Hinit)
    as [Hnd Hall].
  set (s := stateAfter (pipeThrough self chunks) initialState) in *.
  split; [exact Hnd | split; [exact Hall | ]].
  pose proof (executionReport_message_end_shape s) as Hshape.
  destruct (executionReport_message_end s) as [r|]; [ | exact I].
  destruct Hshape as (_ & _ & _ & _ & _ & _ & Hnodes & _).
  replace (map (fun nr => nodeId (node nr)) (report_nodes r))
    with (map nodeId (map node (report_nodes r)))
    by (now rewrite map_map).
  rewrite Hnodes.
  replace (map nodeId (map snd (nodes s))) with (map fst (nodes s));
    [exact Hnd | ].
  rewrite map_map. apply map_ext_in. intros entry Hin.
  rewrite Forall_forall in Hall. symmetry. exact (Hall entry Hin).
Qed.

(** Two [node_started] events whose node id is the array [["x"]] leave two
    records, and both are in the execution report. *)
Example array_node_ids_repeat :
  let started :=
    {| event := "node_started"; conversation_id := None; message_id := None;
       task_id := None; created_at := Some 1700000000%Z;
       rest := [("data", VObj [("node_id", VArr [VStr "x"]);
                               ("node_type", VStr "llm")])] |} in
  map fst
    (nodes
       (stateAfter (pipeThrough difyModel [Success started; Success started])
          initialState))
  = [VArr [VStr "x"]; VArr [VStr "x"]].
Proof. reflexivity. Qed.

(** A node id that is a number is a key like a string: the record of the
    node started under [5] is found by the [node_finished] event of [5],
    which gets its duration. *)
Example numeric_node_id_found :
  let started :=
    {| event := "node_started"; conversation_id := None; message_id := None;
       task_id := None; created_at := Some 1700000000%Z;
       rest := [("data", VObj [("node_id", VNum 5);
                               ("node_type", VStr "llm")])] |} in
  let finished :=
    {| event := "node_finished"; conversation_id := None; message_id := None;
       task_id := None; created_at := Some 1700000002%Z;
       rest := [("data", VObj [("node_id", VNum 5)])] |} in
  let s := stateAfter (transform difyModel (Success started)) initialState in
  nodes (stateAfter (transform difyModel (Success finished)) s)
  = [ (VNum 5,
       {| nodeId := VNum 5; nodeType := VStr "llm";
          startedAt := Some 1700000000%Z;
          finishedAt := Some 1700000002%Z |}) ]
  /\ enqueued (transform difyModel (Success finished)) s
     = [ response_metadata (VStr "node-5") (Some (Computed 1700000002000));
         rawEvent "node_finished" [("duration", VNum 2)] finished ].
Proof. split; reflexivity. Qed.

Lemma map_set_keys_same {A : Type} k (v v' : A) m :
  map_get k m = Some v' -> map fst (map_set k v m) = map fst m.
Proof.
  induction m as [|[k0 v0] m IH]; simpl; [discriminate | ].
  destruct (same_key k0 k); simpl; [reflexivity | ].
  intro H. now rewrite (IH H).
Qed.

(** What a [node_started] event with a node id, a node type and a non-zero
    top-level [created_at] does. *)
Lemma node_started_step self s data d nid ntype t :
  event data = "node_started" ->
  payload data = Some d ->
  obj_get "node_id" d = Some (VStr nid) ->
  obj_get "node_type" d = Some (VStr ntype) ->
  created_at data = Some t ->
  t <> 0%Z ->
  stateAfter (transform self (Success data)) s
  = set_nodes
      (map_set (VStr nid)
         {| nodeId := VStr nid; nodeType := VStr ntype;
            startedAt := Some t; finishedAt := None |}
         (nodes s))
      (stateAfter (storeIds data) s)
  /\ enqueued (transform self (Success data)) s
     = [ response_metadata (VStr ("node-" ++ nid))
           (Some (Computed (t * 1000)));
         rawEvent "node_started" [] data ].
Proof.
  intros Hev Hpayload Hid Htype Hat Hnz.
  assert (Hdispatch : dispatch self data = case_node_started data).
  { unfold dispatch. now rewrite Hev. }
  destruct (storeIds_frame data s) as (_ & _ & _ & _ & _ & _ & Hnodes & _).
  rewrite enqueued_transform_success, stateAfter_transform_success, Hdispatch.
  set (s1 := stateAfter (storeIds data) s) in *.
  assert (Htruthy : truthy_number (Some t) = true).
  { unfold truthy_number. simpl. now apply negb_true_iff, Z.eqb_neq. }
  unfold case_node_started, stateAfter, enqueued, bind, get, ret, enqueue,
    modify, when.
  rewrite Hpayload. unfold has_key, prop. rewrite Hid, Htype, Hat, Htruthy.
  simpl. now rewrite Hnodes.
Qed.

(** What a [node_finished] event does for a node in the ledger. *)
Lemma node_finished_step self s data d nid t n :
  event data = "node_finished" ->
  payload data = Some d ->
  obj_get "node_id" d = Some (VStr nid) ->
  created_at data = Some t ->
  t <> 0%Z ->
  map_get (VStr nid) (nodes s) = Some n ->
  stateAfter (transform self (Success data)) s
  = set_nodes
      (map_set (VStr nid)
         {| nodeId := nodeId n; nodeType := nodeType n;
            startedAt := startedAt n; finishedAt := Some t |}
         (nodes s))
      (stateAfter (storeIds data) s)
  /\ enqueued (transform self (Success data)) s
     = [ response_metadata (VStr ("node-" ++ nid))
           (Some (Computed (t * 1000)));
         rawEvent "node_finished"
           [("duration", of_number (elapsed (startedAt n) (Some t)))] data ].
Proof.
  intros Hev Hpayload Hid Hat Hnz Hget.
  assert (Hdispatch : dispatch self data = case_node_finished data).
  { unfold dispatch. now rewrite Hev. }
  destruct (storeIds_frame data s) as (_ & _ & _ & _ & _ & _ & Hnodes & _).
  rewrite enqueued_transform_success, stateAfter_transform_success, Hdispatch.
  set (s1 := stateAfter (storeIds data) s) in *.
  rewrite <- Hnodes in *.
  assert (Htruthy : truthy_number (Some t) = true).
  { unfold truthy_number. simpl. now apply negb_true_iff, Z.eqb_neq. }
  unfold case_node_finished, lookupAndFinishNode, stateAfter, enqueued, bind,
    get, ret, enqueue, modify.
  rewrite Hpayload. unfold has_key, prop. rewrite Hid, Hat, Htruthy.
  simpl. rewrite Hget. simpl. auto.
Qed.

(** X9.  A [node_started] event that carries a node id, a node type and a
    non-zero top-level [created_at] stores a fresh record under the id:
    started at that time and not finished, replacing an earlier record of
    the same id together with its finish time.  The records of the other
    nodes are untouched, and the event yields the response-metadata part of
    the node, then its raw part. *)
Theorem node_started_records self s data d nid ntype t :
  event data = "node_started" ->
  payload data = Some d ->
  obj_get "node_id" d = Some (VStr nid) ->
  obj_get "node_type" d = Some (VStr ntype) ->
  created_at data = Some t ->
  t <> 0%Z ->
  let s' := stateAfter (transform self (Success data)) s in
  map_get (VStr nid) (nodes s')
  = Some {| nodeId := VStr nid; nodeType := VStr ntype;
            startedAt := Some t; finishedAt := None |}
  /\ (forall k, k <> VStr nid ->
                map_get k (nodes s') = map_get k (nodes s))
  /\ enqueued (transform self (Success data)) s
     = [ response_metadata (VStr ("node-" ++ nid))
           (Some (Computed (t * 1000)));
         rawEvent "node_started" [] data ].
Proof.
  intros Hev Hpayload Hid Htype Hat Hnz s'. subst s'.
  destruct (node_started_step self s data d nid ntype t
              Hev Hpayload Hid Htype Hat Hnz) as [-> ->].
  cbn [nodes set_nodes].
  split; [apply map_get_set_eq, String.eqb_refl | ].
  split; [ | reflexivity].
  intros k Hk. now apply map_get_set_ne.
Qed.

(** X10.  A [node_finished] event with a non-zero top-level [created_at],
    for a node that is in the ledger, stamps the finish time on the record
    of the node in place: the other fields of the record, the other
    records and the order of the ledger stay.  The raw part carries as
    duration that time less the start of the node. *)
Theorem node_finished_records self s data d nid t n :
  event data = "node_finished" ->
  payload data = Some d ->
  obj_get "node_id" d = Some (VStr nid) ->
  created_at data = Some t ->
  t <> 0%Z ->
  map_get (VStr nid) (nodes s) = Some n ->
  let s' := stateAfter (transform self (Success data)) s in
  map_get (VStr nid) (nodes s')
  = Some {| nodeId := nodeId n; nodeType := nodeType n;
            startedAt := startedAt n; finishedAt := Some t |}
  /\ (forall k, k <> VStr nid ->
                map_get k (nodes s') = map_get k (nodes s))
  /\ map fst (nodes s') = map fst (nodes s)
  /\ enqueued (transform self (Success data)) s
     = [ response_metadata (VStr ("node-" ++ nid))
           (Some (Computed (t * 1000)));
         rawEvent "node_finished"
           [("duration", of_number (elapsed (startedAt n) (Some t)))] data ]
  /\ (forall b, startedAt n = Some b -> b <> 0%Z ->
                elapsed (startedAt n) (Some t) = Some (t - b)%Z).
Proof.
  intros Hev Hpayload Hid Hat Hnz Hget s'. subst s'.
  destruct (node_finished_step self s data d nid t n
              Hev Hpayload Hid Hat Hnz Hget) as [-> ->].
  cbn [nodes set_nodes].
  split; [apply map_get_set_eq, String.eqb_refl | ].
  split; [intros k Hk; now apply map_get_set_ne | ].
  split; [now apply (map_set_keys_same (VStr nid) _ n) | ].
  split; [reflexivity | ].
  intros b Hb Hbnz. rewrite Hb. unfold elapsed, truthy_number. simpl.
  apply Z.eqb_neq in Hbnz, Hnz. now rewrite Hbnz, Hnz.
Qed.

Lemma node_started_records_example :
  let s' := stateAfter
              (transform difyModel (Success (nodeStartedEventAt 1700000000)))
              initialState in
  map_get (VStr "node-llm") (nodes s') = Some (startedNode 1700000000)
  /\ (forall k, k <> VStr "node-llm" ->
                map_get k (nodes s') = map_get k (nodes initialState))
  /\ enqueued (transform difyModel (Success (nodeStartedEventAt 1700000000)))
       initialState
     = [ response_metadata (VStr "node-node-llm")
           (Some (Computed 1700000000000));
         rawEvent "node_started" [] (nodeStartedEventAt 1700000000) ].
Proof.
  apply (node_started_records difyModel initialState
           (nodeStartedEventAt 1700000000)
           [("id", VStr "exec-1"); ("node_id", VStr "node-llm");
            ("node_type", VStr "llm")]
           "node-llm" "llm" 1700000000%Z);
    first [reflexivity | discriminate].
Defined.

Lemma node_finished_records_example :
  let s :=
    set_nodes [(VStr "node-llm", startedNode 1700000000)] initialState in
  let s' := stateAfter
              (transform difyModel (Success (nodeFinishedEventAt 1700000002)))
              s in
  map_get (VStr "node-llm") (nodes s')
  = Some {| nodeId := VStr "node-llm"; nodeType := VStr "llm";
            startedAt := Some 1700000000%Z;
            finishedAt := Some 1700000002%Z |}
  /\ (forall k, k <> VStr "node-llm" ->
                map_get k (nodes s') = map_get k (nodes s))
  /\ map fst (nodes s') = map fst (nodes s)
  /\ enqueued (transform difyModel (Success (nodeFinishedEventAt 1700000002)))
       s
     = [ response_metadata (VStr "node-node-llm")
           (Some (Computed 1700000002000));
         rawEvent "node_finished"
           [("duration",
             of_number (elapsed (Some 1700000000%Z) (Some 1700000002%Z)))]
           (nodeFinishedEventAt 1700000002) ]
  /\ (forall b, Some 1700000000%Z = Some b -> b <> 0%Z ->
                elapsed (Some 1700000000%Z) (Some 1700000002%Z)
                = Some (1700000002 - b)%Z).
Proof.
  apply (node_finished_records difyModel
           (set_nodes [(VStr "node-llm", startedNode 1700000000)]
              initialState)
           (nodeFinishedEventAt 1700000002) nodeFinishedData
           "node-llm" 1700000002%Z (startedNode 1700000000));
    first [reflexivity | discriminate].
Defined.

(** *** Which kind of event changes which field of the state *)

Ltac tags_as_equations :=
  repeat match goal with
         | H : (event _ =? _) = true |- _ => apply String.eqb_eq in H
         end.

Lemma dispatch_frame self data s :
  let s' := stateAfter (dispatch self data) s in
  (nodes s' = nodes s
   \/ event data = "node_started" \/ event data = "node_finished")
  /\ ((workflowId s' = workflowId s
       /\ workflowRunId s' = workflowRunId s
       /\ workflowStartedAt s' = workflowStartedAt s)
      \/ event data = "workflow_started")
  /\ (workflowFinishedAt s' = workflowFinishedAt s
      \/ event data = "workflow_finished")
  /\ ((isInThinking s' = isInThinking s
       /\ reasoningId s' = reasoningId s
       /\ isActiveReasoning s' = isActiveReasoning s
       /\ generated s' = generated s)
      \/ event data = "message" \/ event data = "agent_message")
  /\ (isActiveText s' = isActiveText s
      \/ event data = "message" \/ event data = "agent_message"
      \/ event data = "message_end").
Proof.
  cbv zeta.
  crunch_dispatch; tags_as_equations;
    repeat match goal with
           | |- _ /\ _ => split
           end;
    first [ reflexivity
          | left; repeat split; reflexivity
          | right; auto ].
Qed.

(** X11.  Each field of the stream state is written by its own kinds of
    event only: the ledger by [node_started] and [node_finished], the
    workflow id, run id and start by [workflow_started], the workflow end by
    [workflow_finished], the reasoning block by [message] and
    [agent_message], the answer channel by these and [message_end].  A chunk
    that failed validation changes nothing. *)
Theorem state_fields_change_by_kind self chunk s :
  let s' := stateAfter (transform self chunk) s in
  (nodes s' = nodes s
   \/ hasKind "node_started" chunk \/ hasKind "node_finished" chunk)
  /\ ((workflowId s' = workflowId s
       /\ workflowRunId s' = workflowRunId s
       /\ workflowStartedAt s' = workflowStartedAt s)
      \/ hasKind "workflow_started" chunk)
  /\ (workflowFinishedAt s' = workflowFinishedAt s
      \/ hasKind "workflow_finished" chunk)
  /\ ((isInThinking s' = isInThinking s
       /\ reasoningId s' = reasoningId s
       /\ isActiveReasoning s' = isActiveReasoning s
       /\ generated s' = generated s)
      \/ hasKind "message" chunk \/ hasKind "agent_message" chunk)
  /\ (isActiveText s' = isActiveText s
      \/ hasKind "message" chunk \/ hasKind "agent_message" chunk
      \/ hasKind "message_end" chunk)
  /\ (s' = s \/ isFailure chunk = false).
Proof.
  destruct chunk as [data | err]; cbv zeta.
  - rewrite stateAfter_transform_success.
    destruct (storeIds_frame data s)
      as (E1 & E2 & E3 & E4 & E5 & E6 & E7 & E8 & E9 & E10).
    rewrite <- E1, <- E2, <- E3, <- E4, <- E5, <- E6, <- E7, <- E8, <- E9,
      <- E10.
    split; [ | split; [ | split; [ | split; [ | split]]]];
      try apply (dispatch_frame self data (stateAfter (storeIds data) s)).
    now right.
  - simpl. repeat split; auto.
Qed.

(** *** Finish parts without a workflow *)

Lemma dispatch_no_report self data s :
  workflowId s = VUndef ->
  (event data =? "workflow_started") = false ->
  Forall (fun p => reportsWorkflow p = false) (enqueued (dispatch self data) s)
  /\ workflowId (stateAfter (dispatch self data) s) = VUndef.
Proof.
  intros Hid Hkind. unfold executionReport_workflow_finished,
    executionReport_message_end.
  crunch_dispatch; try congruence;
    unfold executionReport_workflow_finished, executionReport_message_end;
    cbn; rewrite ?Hid; split; try assumption; repeat constructor.
Qed.

Lemma pipeThrough_no_report self chunks : forall s,
  workflowId s = VUndef ->
  Forall (fun chunk => isWorkflowStarted chunk = false) chunks ->
  Forall (fun p => reportsWorkflow p = false)
    (enqueued (pipeThrough self chunks) s).
Proof.
  induction chunks as [|chunk chunks IH]; intros s Hid Hall.
  - constructor.
  - inversion Hall as [|? ? Hkind Hrest]; subst.
    rewrite enqueued_pipeThrough_cons. apply Forall_app.
    destruct chunk as [data | err].
    + destruct (storeIds_frame data s) as (_ & _ & Hwid & _).
      destruct (dispatch_no_report self data (stateAfter (storeIds data) s))
        as [Hparts Hid']; [congruence | exact Hkind | ].
      split.
      * now rewrite enqueued_transform_success.
      * apply IH; [ | exact Hrest].
        now rewrite stateAfter_transform_success.
    + split; [repeat constructor | now apply IH].
Qed.

(** X12.  In a stream without a [workflow_started] event no finish part
    carries an execution report, whatever node and [workflow_finished]
    events it has. *)
Theorem no_report_without_workflow_started self chunks :
  Forall (fun chunk => isWorkflowStarted chunk = false) chunks ->
  Forall (fun p => reportsWorkflow p = false) (streamParts self chunks).
Proof. intro Hall. now apply pipeThrough_no_report. Qed.

Lemma no_report_without_workflow_started_example :
  Forall (fun p => reportsWorkflow p = false)
    (streamParts difyModel
       [ Success (nodeStartedEventAt 1700000000);
         Success (nodeFinishedEventAt 1700000002);
         Success workflowFinishedEvent; Success messageEndEvent ]).
Proof.
  apply no_report_without_workflow_started.
  repeat constructor.
Defined.

(** *** Raw parts *)





(** *** The usage of a finish part *)

(** X14.  The finish part of a [message_end] event that has no [data]
    property, as the schema of the kind has none, takes its input and total
    token counts from [metadata.usage] and reports zero output tokens,
    whatever [completion_tokens] says. *)
Theorem message_end_usage self data s m u :
  event data = "message_end" ->
  field "data" data = None ->
  field "metadata" data = Some (VObj m) ->
  obj_get "usage" m = Some (VObj u) ->
  exists md,
    filter isFinish (enqueued (transform self (Success data)) s)
    = [ finish "stop"
          {| inputTokens := prop "prompt_tokens" u;
             outputTokens := VNum 0;
             totalTokens := prop "total_tokens" u |}
          md ].
Proof.
  intros Hev Hdata Hmeta Husage.
  rewrite enqueued_transform_success.
  set (s' := stateAfter (storeIds data) s).
  assert (Hdispatch : dispatch self data = case_message_end data).
  { unfold dispatch. now rewrite Hev. }
  rewrite Hdispatch. run_transform. unfold payload.
  rewrite Hdata, Hmeta. cbn [as_object]. unfold has_key, prop at 1 2.
  rewrite Husage. cbn [opt_prop].
  destruct (isActiveText s'); simpl; eauto.
Qed.


Lemma message_end_usage_example :
  exists md,
    filter isFinish
      (enqueued (transform difyModel (Success messageEndWithUsage))
         initialState)
    = [ finish "stop"
          {| inputTokens := prop "prompt_tokens" usageOfAnswer;
             outputTokens := VNum 0;
             totalTokens := prop "total_tokens" usageOfAnswer |}
          md ].
Proof.
  apply (message_end_usage difyModel messageEndWithUsage initialState
           [("usage", VObj usageOfAnswer)] usageOfAnswer);
    reflexivity.
Defined.


(** *** The execution report of a workflow run *)

Lemma truthy_nonzero t : t <> 0%Z -> truthy_number (Some t) = true.
Proof.
  intro Hnz. unfold truthy_number. simpl.
  now apply negb_true_iff, Z.eqb_neq.
Qed.







(** The workflow fields are stored as the events have them: a run whose
    workflow id is the number [7], whose start is the string ["soon"] and
    which has no run id is reported with these values, its duration being
    the subtraction of JavaScript on the two timestamps. *)
Example untyped_workflow_reported :
  let started :=
    {| event := "workflow_started"; conversation_id := None;
       message_id := None; task_id := None; created_at := None;
       rest := [("data", VObj [("workflow_id", VNum 7);
                               ("created_at", VStr "soon")])] |} in
  let finished :=
    {| event := "workflow_finished"; conversation_id := None;
       message_id := None; task_id := None; created_at := None;
       rest := [("data", VObj [("finished_at", VNum 1700000005)])] |} in
  streamParts difyModel [Success started; Success finished]
  = [ response_metadata VUndef (Some (Product (VStr "soon") 1000));
      rawEvent "workflow_started" [] started;
      response_metadata VUndef (Some (Computed 1700000005000));
      rawEvent "workflow_finished" [("duration", VUndef)] finished;
      finish "stop"
        {| inputTokens := VNum 0; outputTokens := VNum 0;
           totalTokens := VNum 0 |}
        {| md_conversationId := None; md_messageId := None;
           md_taskId := None;
           md_workflowExecution :=
             Some {| report_workflowId := VNum 7;
                     report_workflowRunId := VUndef;
                     report_startedAt := VStr "soon";
                     report_finishedAt := VNum 1700000005;
                     report_duration :=
                       Some (Difference (VNum 1700000005) (VStr "soon"));
                     report_nodes := [] |} |} ].
Proof. reflexivity. Qed.


(* ===================================================================== *)
(** ** [extractThinkingContent] *)
(* ===================================================================== *)

Lemma substring_after_marker before rest :
  substring_from (String.length before + String.length thinkStart)
    (before ++ thinkStart ++ rest) = rest.
Proof.
  replace (String.length before + String.length thinkStart)
    with (String.length (before ++ thinkStart))
    by (clear; induction before; simpl; auto).
  rewrite <- string_app_assoc. apply substring_from_app.
Qed.

(** X17.  [extractThinkingContent] returns the text of the first reasoning
    block of a buffer: from the first begin marker to the first end marker
    after it, or to the end of the buffer when the block is not closed; a
    buffer without a begin marker gives the empty string. *)
Theorem extractThinkingContent_block before reasoning after :
  includes thinkStart before = false ->
  includes thinkEnd reasoning = false ->
  extractThinkingContent
    (before ++ thinkStart ++ reasoning ++ thinkEnd ++ after) = reasoning
  /\ extractThinkingContent (before ++ thinkStart ++ reasoning) = reasoning
  /\ extractThinkingContent before = "".
Proof.
  intros Hbefore Hreasoning. unfold extractThinkingContent.
  rewrite !(indexOf_marker thinkStart thinkStart_no_overlap before _ Hbefore).
  rewrite !substring_after_marker.
  split; [ | split].
  - apply (textBefore_marker thinkEnd thinkEnd_no_overlap); assumption.
  - apply textBefore_none; assumption.
  - unfold includes in Hbefore.
    now destruct (indexOf thinkStart before).
Qed.

Lemma extractThinkingContent_block_example :
  extractThinkingContent
    ("Sure. " ++ thinkStart ++ "plan" ++ thinkEnd ++ "done") = "plan"
  /\ extractThinkingContent ("Sure. " ++ thinkStart ++ "plan") = "plan"
  /\ extractThinkingContent "Sure. " = "".
Proof.
  apply (extractThinkingContent_block "Sure. " "plan" "done"); reflexivity.
Defined.

(* ===================================================================== *)
(** ** More on request construction *)
(* ===================================================================== *)

Module RequestFlow.
Import Request.

(** X18.  Only the last message of the prompt counts: the messages before
    it and [options.messages] change neither the error nor the body nor the
    headers that [getRequestBody] leaves. *)
Theorem getRequestBody_last_message self ms m other h :
  sameOutcome
    (getRequestBody self
       {| prompt := Some (ms ++ [m])%list; messages := other; headers := h |})
    (getRequestBody self
       {| prompt := Some [m]; messages := None; headers := h |}).
Proof.
  unfold getRequestBody. cbn [prompt messages headers].
  destruct (ms ++ [m])%list as [|m0 ms0] eqn:Heq.
  - destruct ms; discriminate.
  - assert (Hlast : last ms0 m0 = m).
    { rewrite <- (RequestFacts.last_shift m m0 ms0), <- Heq.
      apply last_last. }
    rewrite Hlast. cbn [last].
    destruct (negb (role m =? "user")); [reflexivity | ].
    destruct (hasAttachments_of (content m)); [reflexivity | ].
    split; reflexivity.
Qed.

(** X19.  When [getRequestBody] succeeds, the options it leaves have lost
    the headers [chat-id] and [user-id] and kept every other header with
    its value; the body has the value of [chat-id] as conversation id and
    that of [user-id] as user, with a fixed placeholder when the header is
    absent or null. *)
Theorem getRequestBody_headers self options body options' :
  getRequestBody self options = inr (body, options') ->
  exists kept,
    headers options' = Some kept
    /\ (forall k, obj_get k kept
                  = if isRoutingHeader k then None
                    else obj_get k (suppliedHeaders options))
    /\ conversation_id body = prop "chat-id" (suppliedHeaders options)
    /\ user body
       = match obj_get "user-id" (suppliedHeaders options) with
         | None | Some VUndef | Some VNull => VStr "you_should_pass_user-id"
         | Some v => v
         end
    /\ prompt options' = prompt options
    /\ messages options' = messages options.
Proof.
  unfold getRequestBody.
  destruct (match prompt options with
            | Some p => Some p
            | None => messages options
            end) as [[|m ms]|]; try discriminate.
  destruct (negb (role (last ms m) =? "user")); [discriminate | ].
  destruct (hasAttachments_of (content (last ms m))); [discriminate | ].
  intros [= <- <-]. cbn [headers conversation_id user prompt messages].
  eexists. split; [reflexivity | ].
  fold (suppliedHeaders options).
  split; [ | split; [ | split; [ | split; reflexivity]]].
  - intro k. unfold obj_get, isRoutingHeader.
    destruct ((k =? "chat-id") || (k =? "user-id")) eqn:Hk.
    + apply alist_get_filter_out. intro v. cbn [fst]. now rewrite Hk.
    + apply alist_get_filter_in. intro v. cbn [fst]. now rewrite Hk.
  - unfold header, suppliedHeaders, prop.
    destruct (headers options); reflexivity.
  - unfold header, suppliedHeaders, prop, nullish.
    destruct (headers options) as [h|]; [ | reflexivity].
    destruct (obj_get "user-id" h) as [[]|]; reflexivity.
Qed.

Lemma getRequestBody_headers_example :
  exists kept,
    Some [("x-trace", VStr "t")] = Some kept
    /\ (forall k, obj_get k kept
                  = if isRoutingHeader k then None
                    else obj_get k
                           [("chat-id", VStr "c1"); ("x-trace", VStr "t")])
    /\ VStr "c1" = prop "chat-id" [("chat-id", VStr "c1"); ("x-trace", VStr "t")]
    /\ VStr "you_should_pass_user-id"
       = match obj_get "user-id"
                 [("chat-id", VStr "c1"); ("x-trace", VStr "t")] with
         | None | Some VUndef | Some VNull => VStr "you_should_pass_user-id"
         | Some v => v
         end
    /\ prompt helloOptions = prompt helloOptions
    /\ messages helloOptions = messages helloOptions.
Proof.
  exact (getRequestBody_headers difyModel
           {| prompt := prompt helloOptions; messages := None;
              headers := Some [("chat-id", VStr "c1");
                               ("x-trace", VStr "t")] |}
           {| body_inputs := []; query := "Hello";
              response_mode := Some "streaming";
              conversation_id := VStr "c1";
              user := VStr "you_should_pass_user-id" |}
           {| prompt := prompt helloOptions; messages := None;
              headers := Some [("x-trace", VStr "t")] |}
           eq_refl).
Defined.

Lemma texts_of_text_parts texts :
  map js_to_string (filter truthy (map partText (map textPart texts)))
  = filter nonEmpty texts.
Proof.
  induction texts as [|text texts IH]; [reflexivity | ].
  cbn [map]. change (partText (textPart text)) with (VStr text).
  cbn [filter]. replace (truthy (VStr text)) with (nonEmpty text)
    by (destruct text; reflexivity).
  destruct (nonEmpty text); cbn [map js_to_string]; now rewrite IH.
Qed.

(** X20.  The query of a message made of text parts is their texts joined
    by single spaces, the empty ones left out; a part that is neither a
    string nor a text object adds nothing, wherever it stands. *)
Theorem queryOf_text_parts texts before other after :
  partText other = VStr "" ->
  queryOf (ContentArray (map textPart texts))
  = JS.join " " (filter nonEmpty texts)
  /\ queryOf (ContentArray (before ++ other :: after)%list)
     = queryOf (ContentArray (before ++ after)%list).
Proof.
  intro Hother. split.
  - unfold queryOf. now rewrite texts_of_text_parts.
  - unfold queryOf. rewrite !map_app, !filter_app. cbn [map filter].
    now rewrite Hother.
Qed.

Lemma queryOf_text_parts_example :
  queryOf (ContentArray (map textPart ["hello"; ""; "you"]))
  = JS.join " " (filter nonEmpty ["hello"; ""; "you"])
  /\ queryOf
       (ContentArray
          ([textPart "hello"]
           ++ VObj [("type", VStr "image")] :: [textPart "you"])%list)
     = queryOf (ContentArray ([textPart "hello"] ++ [textPart "you"])%list).
Proof.
  apply (queryOf_text_parts ["hello"; ""; "you"] [textPart "hello"]
           (VObj [("type", VStr "image")]) [textPart "you"]).
  reflexivity.
Defined.

(** X21.  A call sends one request, and none when the body cannot be
    built: then the error of [getRequestBody] is thrown.  The request of
    [doStream] asks for the streaming mode whatever the settings say; that
    of [doGenerate] asks for the mode of the settings, which is streaming
    too for a model constructed without one. *)
Theorem requests_response_mode
    id st cfg gen postJsonToApi postEventStream options :
  let self := newDifyChatLanguageModel id st cfg gen in
  Forall (fun b => response_mode b = Some "streaming")
    (fst (doStream self postEventStream options))
  /\ Forall (fun b => response_mode b
                      = if truthy_string (responseMode st)
                        then responseMode st else Some "streaming")
       (fst (doGenerate self postJsonToApi options))
  /\ match getRequestBody self options with
     | inl err =>
         doStream self postEventStream options = ([], inl err)
         /\ doGenerate self postJsonToApi options = ([], inl err)
     | inr _ =>
         length (fst (doStream self postEventStream options)) = 1
         /\ length (fst (doGenerate self postJsonToApi options)) = 1
     end.
Proof.
  cbv zeta. set (self := newDifyChatLanguageModel id st cfg gen).
  assert (Hmode : forall body options',
             getRequestBody self options = inr (body, options') ->
             response_mode body
             = if truthy_string (responseMode st)
               then responseMode st else Some "streaming").
  { unfold getRequestBody.
    destruct (match prompt options with
              | Some p => Some p
              | None => messages options
              end) as [[|m ms]|]; try discriminate.
    destruct (negb (role (last ms m) =? "user")); [discriminate | ].
    destruct (hasAttachments_of (content (last ms m))); [discriminate | ].
    intros body options' [= <- _]. reflexivity. }
  unfold doStream, doGenerate.
  destruct (getRequestBody self options) as [err | [body options']] eqn:Hbody.
  - repeat split; constructor.
  - specialize (Hmode body options' eq_refl).
    destruct (postEventStream _) as [e1 | stream];
      destruct (postJsonToApi body) as [e2 | [hs data]];
      cbn [fst length]; repeat split; repeat constructor; assumption.
Qed.

End RequestFlow.

(* ===================================================================== *)
(** ** What the event schema accepts *)
(* ===================================================================== *)

Lemma parse_object pt shape props :
  Zod.parse (Zod.ZObject pt shape) (VObj props)
  = match declaredFields props shape with
    | Some known =>
        Some (VObj
                (known ++
                 (if pt
                  then filter (fun kv => negb (Zod.in_shape (fst kv) shape))
                         props
                  else []))%list)
    | None => None
    end.
Proof. reflexivity. Qed.

(** An accepted object: every declared property was accepted, and is in the
    output unless it is undefined. *)
Lemma declaredFields_accept props shape : forall known k tk,
  declaredFields props shape = Some known ->
  alist_get k shape = Some tk ->
  exists r,
    Zod.parse tk (prop k props) = Some r
    /\ (Zod.is_undefined r = false -> alist_get k known = Some r).
Proof.
  induction shape as [|[k0 t0] shape IH]; intros known k tk Hfields Hget.
  - discriminate.
  - cbn [declaredFields] in Hfields. fold (declaredFields props) in Hfields.
    destruct (Zod.parse t0 (prop k0 props)) as [r0|] eqn:Hr0;
      [ | discriminate].
    destruct (declaredFields props shape) as [rs|] eqn:Hrs; [ | discriminate].
    injection Hfields as <-.
    cbn [alist_get] in Hget.
    destruct (k0 =? k) eqn:Hk.
    + apply String.eqb_eq in Hk. subst k0. injection Hget as ->.
      exists r0. split; [exact Hr0 | ].
      intro Hdef. rewrite Hdef. cbn [negb orb alist_get].
      now rewrite String.eqb_refl.
    + destruct (IH rs k tk eq_refl Hget) as (r & Hr & Hin).
      exists r. split; [exact Hr | ].
      intro Hdef.
      destruct (negb (Zod.is_undefined r0) || has_key k0 props);
        cbn [alist_get]; rewrite ?Hk; auto.
Qed.

Lemma optional_string_typed v r :
  Zod.parse (Zod.ZOptional Zod.ZString) v = Some r -> optionalString v = true.
Proof. destruct v; simpl; congruence. Qed.

Lemma optional_number_typed v r :
  Zod.parse (Zod.ZOptional Zod.ZNumber) v = Some r -> optionalNumber v = true.
Proof. destruct v; simpl; congruence. Qed.

Lemma tag_schema_accepts t v r :
  isTagSchema t = true ->
  Zod.parse t v = Some r ->
  exists tag, v = VStr tag /\ r = VStr tag.
Proof.
  destruct t; try discriminate; intros _; destruct v; simpl;
    try discriminate.
  - intros [= <-]. eauto.
  - destruct (s =? lit); [ | discriminate]. intros [= <-]. eauto.
Qed.

(** What an object schema over the base shape accepts is an event of the
    base shape. *)
Lemma accepted_object_typed pt shape props v :
  extendsBase shape = true ->
  Zod.parse (Zod.ZObject pt shape) (VObj props) = Some v ->
  exists o tag,
    v = VObj o
    /\ prop "event" props = VStr tag
    /\ prop "event" o = VStr tag
    /\ commonFieldsTyped props = true.
Proof.
  intros Hbase Hparse. rewrite parse_object in Hparse.
  destruct (declaredFields props shape) as [known|] eqn:Hfields;
    [ | discriminate].
  injection Hparse as <-.
  unfold extendsBase in Hbase. apply andb_true_iff in Hbase.
  destruct Hbase as [Htag Hcommon].
  destruct (alist_get "event" shape) as [te|] eqn:Hte; [ | discriminate].
  destruct (declaredFields_accept props shape known "event" te Hfields Hte)
    as (r & Hr & Hin).
  destruct (tag_schema_accepts te _ r Htag Hr) as (tag & Hprop & ->).
  eexists _, tag. split; [reflexivity | ].
  split; [exact Hprop | ].
  split.
  { unfold prop, obj_get. now rewrite alist_get_app, (Hin eq_refl). }
  cbn [baseShape tl forallb fst snd] in Hcommon.
  rewrite !andb_true_iff in Hcommon.
  destruct Hcommon as (Hc & Hm & Ht & Hn & _).
  unfold commonFieldsTyped. rewrite !andb_true_iff.
  repeat split.
  - destruct (alist_get "conversation_id" shape) as [t|] eqn:Hshape;
      [ | discriminate].
    destruct t as [ | | | | | [] | | | | ]; try discriminate.
    destruct (declaredFields_accept props shape known _ _ Hfields Hshape)
      as (r' & Hr' & _).
    exact (optional_string_typed _ _ Hr').
  - destruct (alist_get "message_id" shape) as [t|] eqn:Hshape;
      [ | discriminate].
    destruct t as [ | | | | | [] | | | | ]; try discriminate.
    destruct (declaredFields_accept props shape known _ _ Hfields Hshape)
      as (r' & Hr' & _).
    exact (optional_string_typed _ _ Hr').
  - destruct (alist_get "task_id" shape) as [t|] eqn:Hshape;
      [ | discriminate].
    destruct t as [ | | | | | [] | | | | ]; try discriminate.
    destruct (declaredFields_accept props shape known _ _ Hfields Hshape)
      as (r' & Hr' & _).
    exact (optional_string_typed _ _ Hr').
  - destruct (alist_get "created_at" shape) as [t|] eqn:Hshape;
      [ | discriminate].
    destruct t as [ | | | | | [] | | | | ]; try discriminate.
    destruct (declaredFields_accept props shape known _ _ Hfields Hshape)
      as (r' & Hr' & _).
    exact (optional_number_typed _ _ Hr').
Qed.

(** Every option of the union extends the base shape. *)
Lemma known_schemas_extend_base :
  forallb objectExtendsBase knownEventSchemas = true.
Proof. reflexivity. Qed.

Lemma accepted_validates props v o tag :
  v = VObj o ->
  prop "event" props = VStr tag ->
  prop "event" o = VStr tag ->
  commonFieldsTyped props = true ->
  match to_event o with
  | Some data =>
      prop "event" props = VStr (event data)
      /\ commonFieldsTyped props = true
  | None => False
  end.
Proof.
  intros -> Hprop Ho Htyped. unfold to_event. rewrite Ho. cbn [event]. auto.
Qed.

(** X22.  The stream schema accepts exactly the elements of the base shape:
    an object whose [event] is a string and whose [conversation_id],
    [message_id], [task_id] and [created_at], when present, are strings and
    a number.  The schema of the kind an element names never makes it
    rejected, since the base shape is tried after it; the validated event
    has the tag of the element. *)
Theorem schema_accepts_base_shape v :
  match safeValidate v with
  | Success data =>
      exists props,
        v = VObj props
        /\ prop "event" props = VStr (event data)
        /\ commonFieldsTyped props = true
  | Failure err =>
      err = TypeValidationError v
      /\ match v with
         | VObj props =>
             match prop "event" props with
             | VStr _ => commonFieldsTyped props = false
             | _ => True
             end
         | _ => True
         end
  end.
Proof.
  unfold safeValidate, difyStreamEventSchema, Zod.or.
  destruct v as [ | | b | n | s | items | props];
    try (cbn; split; [reflexivity | exact I]).
  destruct (Zod.discriminatedUnion "event" knownEventSchemas (VObj props))
    as [r|] eqn:Hunion.
  - unfold Zod.discriminatedUnion in Hunion.
    destruct (prop "event" props) as [ | | | | tag | | ] eqn:Hev;
      try discriminate.
    destruct (find (Zod.has_discriminator "event" tag) knownEventSchemas)
      as [t|] eqn:Hfind; [ | discriminate].
    apply find_some in Hfind. destruct Hfind as [Hin _].
    pose proof known_schemas_extend_base as Hall.
    rewrite forallb_forall in Hall. specialize (Hall t Hin).
    destruct t as [ | | | | | | | | | pt shape]; try discriminate.
    destruct (accepted_object_typed pt shape props r Hall Hunion)
      as (o & tag' & -> & Hprop & Ho & Htyped).
    pose proof (accepted_validates props _ o tag' eq_refl Hprop Ho Htyped)
      as Hok.
    destruct (to_event o) as [data|]; [ | contradiction].
    exists props. tauto.
  - destruct (Zod.parse difyStreamEventBase (VObj props)) as [r|] eqn:Hbase.
    + destruct (accepted_object_typed true baseShape props r eq_refl Hbase)
        as (o & tag & -> & Hprop & Ho & Htyped).
      pose proof (accepted_validates props _ o tag eq_refl Hprop Ho Htyped)
        as Hok.
      destruct (to_event o) as [data|]; [ | contradiction].
      exists props. tauto.
    + split; [reflexivity | ].
      destruct (prop "event" props) as [ | | | | tag | | ] eqn:Hev;
        try exact I.
      destruct (commonFieldsTyped props) eqn:Htyped; [ | reflexivity].
      pose proof (fallback_validates props tag Hev Htyped) as Hok.
      now rewrite Hbase in Hok.
Qed.

(** A [message] or [agent_message] element whose answer is not a string is
    rejected by the schema of its kind. *)
Lemma answerless_rejected_by_kind props tag :
  prop "event" props = VStr tag ->
  tag = "message" \/ tag = "agent_message" ->
  as_string (prop "answer" props) = None ->
  Zod.discriminatedUnion "event" knownEventSchemas (VObj props) = None.
Proof.
  intros Hev Htag Hanswer. unfold Zod.discriminatedUnion. rewrite Hev.
  destruct Htag as [-> | ->].
  - change (find (Zod.has_discriminator "event" "message") knownEventSchemas)
      with (Some messageSchema).
    destruct (Zod.parse messageSchema (VObj props)) as [r|] eqn:Hparse;
      [ | reflexivity].
    remember messageSchema as t eqn:Ht. vm_compute in Ht. subst t.
    rewrite parse_object in Hparse.
    destruct (declaredFields props _) as [known|] eqn:Hfields;
      [ | discriminate].
    destruct (declaredFields_accept props _ known "answer" Zod.ZString
                Hfields eq_refl) as (r' & Hr' & _).
    destruct (prop "answer" props); discriminate.
  - change (find (Zod.has_discriminator "event" "agent_message")
              knownEventSchemas)
      with (Some agentMessageSchema).
    destruct (Zod.parse agentMessageSchema (VObj props)) as [r|] eqn:Hparse;
      [ | reflexivity].
    remember agentMessageSchema as t eqn:Ht. vm_compute in Ht. subst t.
    rewrite parse_object in Hparse.
    destruct (declaredFields props _) as [known|] eqn:Hfields;
      [ | discriminate].
    destruct (declaredFields_accept props _ known "answer" Zod.ZString
                Hfields eq_refl) as (r' & Hr' & _).
    destruct (prop "answer" props); discriminate.
Qed.

(** X23.  A [message] or [agent_message] element without a string answer
    is not rejected: the base shape accepts it, and the transform then makes
    no part of it at all, not even a raw part, and leaves the splitter as it
    was. *)
Theorem answerless_message_is_silent self props tag s :
  prop "event" props = VStr tag ->
  tag = "message" \/ tag = "agent_message" ->
  commonFieldsTyped props = true ->
  as_string (prop "answer" props) = None ->
  exists data,
    safeValidate (VObj props) = Success data
    /\ event data = tag
    /\ enqueued (transform self (Success data)) s = []
    /\ isInThinking (stateAfter (transform self (Success data)) s)
       = isInThinking s
    /\ isActiveText (stateAfter (transform self (Success data)) s)
       = isActiveText s.
Proof.
  intros Hev Htag Htyped Hanswer.
  exists (fallbackEvent tag props).
  assert (Hvalid : safeValidate (VObj props)
                   = Success (fallbackEvent tag props)).
  { unfold safeValidate, difyStreamEventSchema, Zod.or.
    rewrite (answerless_rejected_by_kind props tag Hev Htag Hanswer).
    pose proof (fallback_validates props tag Hev Htyped) as Hparse.
    destruct (Zod.parse difyStreamEventBase (VObj props))
      as [[ | | | | | | o]|]; try contradiction.
    rewrite Hparse. unfold to_event. now rewrite Hev. }
  split; [exact Hvalid | ]. split; [reflexivity | ].
  assert (Hfield : field "answer" (fallbackEvent tag props)
                   = obj_get "answer" props).
  { unfold field, fallbackEvent, obj_get. cbn [rest].
    apply alist_get_filter_in. intro v. reflexivity. }
  assert (Hdispatch : dispatch self (fallbackEvent tag props)
                      = ret tt).
  { unfold dispatch. cbn [event fallbackEvent].
    assert (Hcase : case_message self (fallbackEvent tag props) = ret tt).
    { unfold case_message. rewrite Hfield.
      unfold prop in Hanswer.
      destruct (obj_get "answer" props) as [[]|]; try reflexivity.
      discriminate Hanswer. }
    destruct Htag as [-> | ->]; exact Hcase. }
  rewrite enqueued_transform_success, stateAfter_transform_success, Hdispatch.
  destruct (storeIds_frame (fallbackEvent tag props) s)
    as (E1 & _ & _ & _ & _ & _ & _ & E8 & _).
  split; [reflexivity | ]. split; [exact E1 | exact E8].
Qed.

Lemma answerless_message_is_silent_example :
  exists data,
    safeValidate (VObj [("event", VStr "message"); ("task_id", VStr "t1")])
    = Success data
    /\ event data = "message"
    /\ enqueued (transform difyModel (Success data)) initialState = []
    /\ isInThinking
         (stateAfter (transform difyModel (Success data)) initialState)
       = isInThinking initialState
    /\ isActiveText
         (stateAfter (transform difyModel (Success data)) initialState)
       = isActiveText initialState.
Proof.
  apply (answerless_message_is_silent difyModel
           [("event", VStr "message"); ("task_id", VStr "t1")] "message"
           initialState);
    first [reflexivity | now left].
Defined.

(* ===================================================================== *)
(** ** The ids of the reasoning blocks *)
(* ===================================================================== *)

Lemma dispatch_reasoningStarts self data s :
  let s' := stateAfter (dispatch self data) s in
  (generated s' = generated s
   /\ reasoningStarts (enqueued (dispatch self data) s) = [])
  \/ (generated s' = S (generated s)
      /\ reasoningStarts (enqueued (dispatch self data) s)
         = [generateId self (generated s)]).
Proof.
  cbv zeta. crunch_dispatch; auto.
Qed.

Lemma reasoningStarts_app parts parts' :
  reasoningStarts (parts ++ parts')
  = (reasoningStarts parts ++ reasoningStarts parts')%list.
Proof. apply flat_map_app. Qed.

Lemma pipeThrough_reasoningStarts self chunks : forall s,
  exists n,
    generated (stateAfter (pipeThrough self chunks) s)
    = (generated s + n)%nat
    /\ reasoningStarts (enqueued (pipeThrough self chunks) s)
       = map (generateId self) (seq (generated s) n).
Proof.
  induction chunks as [|chunk chunks IH]; intro s.
  - exists 0%nat. split; [apply eq_sym, Nat.add_0_r | reflexivity].
  - rewrite stateAfter_pipeThrough_cons, enqueued_pipeThrough_cons,
      reasoningStarts_app.
    destruct (IH (stateAfter (transform self chunk) s)) as (n & Hgen & Hids).
    rewrite Hgen, Hids.
    destruct chunk as [data | err].
    + rewrite stateAfter_transform_success, enqueued_transform_success.
      destruct (storeIds_frame data s)
        as (_ & _ & _ & _ & _ & _ & _ & _ & _ & E10).
      destruct (dispatch_reasoningStarts self data
                  (stateAfter (storeIds data) s)) as [[Hg Hs] | [Hg Hs]];
        rewrite Hg, Hs, E10.
      * exists n. split; reflexivity.
      * exists (S n). split; [lia | reflexivity].
    + exists n. split; reflexivity.
Qed.

(** X24.  The reasoning blocks of a stream are opened under the ids the
    generator returns, one call for each block and in order: the k-th block
    has the k-th id. *)
Theorem reasoning_blocks_have_fresh_ids self chunks :
  reasoningStarts (streamParts self chunks)
  = map (generateId self)
      (seq 0 (generated (stateAfter (pipeThrough self chunks) initialState))).
Proof.
  unfold streamParts.
  destruct (pipeThrough_reasoningStarts self chunks initialState)
    as (n & -> & ->).
  reflexivity.
Qed.

(* ===================================================================== *)
(** ** [agent_message] beside [message] *)
(* ===================================================================== *)

(** X25.  An [agent_message] event is translated as the [message] event of
    the same content, with the same effect on the state; when it has a
    string answer and a string id, one response-metadata part under that id
    follows, dated by [created_at] when that is not zero. *)
Theorem agent_message_as_message self data s :
  event data = "agent_message" ->
  let parts := enqueued (transform self (Success (retagged "message" data))) s
  in
  stateAfter (transform self (Success data)) s
  = stateAfter (transform self (Success (retagged "message" data))) s
  /\ enqueued (transform self (Success data)) s
     = (parts
        ++ match field "answer" data, field "id" data with
           | Some (VStr _), Some (VStr id) =>
               [ response_metadata (VStr id)
                   (if truthy_number (created_at data)
                    then dateOfSeconds (created_at data) else None) ]
           | _, _ => []
           end)%list.
Proof.
  intro Hev. cbv zeta.
  rewrite !enqueued_transform_success, !stateAfter_transform_success.
  change (storeIds (retagged "message" data)) with (storeIds data).
  set (s1 := stateAfter (storeIds data) s).
  assert (Hagent : dispatch self data = case_message self data).
  { unfold dispatch. now rewrite Hev. }
  assert (Hmessage : dispatch self (retagged "message" data)
                     = case_message self (retagged "message" data)).
  { reflexivity. }
  rewrite Hagent, Hmessage.
  unfold case_message, field. cbn [retagged event rest]. rewrite Hev.
  cbn [String.eqb Ascii.eqb Bool.eqb].
  destruct (obj_get "answer" (rest data)) as [[ | | | | answer | | ]|];
    try (split; reflexivity).
  rewrite stateAfter_bind, enqueued_bind.
  rewrite stateAfter_bind, enqueued_bind.
  change (enqueued (ret tt)
            (stateAfter (parseContentWithThinking self answer) s1))
    with (@nil StreamPart).
  rewrite app_nil_r.
  destruct (obj_get "id" (rest data)) as [[ | | | | id | | ]|];
    split; rewrite ?app_nil_r; reflexivity.
Qed.

Lemma agent_message_as_message_example :
  stateAfter (transform difyModel (Success agentMessageEvent)) initialState
  = stateAfter
      (transform difyModel (Success (retagged "message" agentMessageEvent)))
      initialState
  /\ enqueued (transform difyModel (Success agentMessageEvent)) initialState
     = (enqueued
          (transform difyModel
             (Success (retagged "message" agentMessageEvent)))
          initialState
        ++ [response_metadata (VStr "a1")
              (Some (Computed 1700000000000))])%list.
Proof.
  exact (agent_message_as_message difyModel agentMessageEvent initialState
           eq_refl).
Defined.

(* ===================================================================== *)
(** ** The reports of one run *)
(* ===================================================================== *)

Lemma report_frame s s' :
  workflowId s' = workflowId s ->
  workflowRunId s' = workflowRunId s ->
  workflowStartedAt s' = workflowStartedAt s ->
  workflowFinishedAt s' = workflowFinishedAt s ->
  nodes s' = nodes s ->
  executionReport_message_end s' = executionReport_message_end s.
Proof.
  intros E1 E2 E3 E4 E5. unfold executionReport_message_end.
  now rewrite E1, E2, E3, E4, E5.
Qed.

Lemma transform_report_frame self chunk s :
  touchesReport chunk = false ->
  executionReport_message_end (stateAfter (transform self chunk) s)
  = executionReport_message_end s.
Proof.
  destruct chunk as [data | err]; [ | reflexivity].
  unfold touchesReport. rewrite !orb_false_iff.
  intros (((Hstarted & Hfinished) & Hnode) & Hnode').
  apply String.eqb_neq in Hstarted, Hfinished, Hnode, Hnode'.
  rewrite stateAfter_transform_success.
  destruct (storeIds_frame data s)
    as (_ & _ & E3 & E4 & E5 & E6 & E7 & _).
  destruct (dispatch_frame self data (stateAfter (storeIds data) s))
    as (Hnodes & Hworkflow & Hend & _).
  destruct Hnodes as [Hnodes | [? | ?]]; [ | contradiction | contradiction].
  destruct Hworkflow as [(H1 & H2 & H3) | ?]; [ | contradiction].
  destruct Hend as [Hend | ?]; [ | contradiction].
  apply report_frame; congruence.
Qed.

Lemma pipeThrough_report_frame self chunks : forall s,
  Forall (fun chunk => touchesReport chunk = false) chunks ->
  executionReport_message_end (stateAfter (pipeThrough self chunks) s)
  = executionReport_message_end s.
Proof.
  induction chunks as [|chunk chunks IH]; intros s Hall.
  - reflexivity.
  - inversion Hall as [|? ? Hquiet Hrest]; subst.
    rewrite stateAfter_pipeThrough_cons, (IH _ Hrest).
    now apply transform_report_frame.
Qed.

Lemma transform_finish_report self chunk s p report :
  In p (enqueued (transform self chunk) s) ->
  reportOn p = Some report ->
  report = executionReport_message_end (stateAfter (transform self chunk) s).
Proof.
  intros Hin Hreport. destruct chunk as [data | err].
  - rewrite enqueued_transform_success in Hin.
    rewrite stateAfter_transform_success.
    pose proof (dispatch_finish_report self data
                  (stateAfter (storeIds data) s)) as Hall.
    rewrite Forall_forall in Hall. specialize (Hall _ Hin).
    now rewrite Hreport in Hall.
  - destruct Hin as [<- | []]. discriminate Hreport.
Qed.

(** X26.  When two events of one stream both yield a finish part, as a
    [workflow_finished] and the [message_end] of the same run do, and no
    [workflow_started], [workflow_finished], [node_started] or
    [node_finished] event comes after the first, the second included, then
    the two finish parts carry the same execution report. *)
Theorem reports_of_one_run_agree
    self s first middle second p1 p2 report1 report2 :
  Forall (fun chunk => touchesReport chunk = false) middle ->
  touchesReport second = false ->
  In p1 (enqueued (transform self first) s) ->
  reportOn p1 = Some report1 ->
  In p2 (enqueued (transform self second)
           (stateAfter (pipeThrough self (first :: middle)) s)) ->
  reportOn p2 = Some report2 ->
  report1 = report2.
Proof.
  intros Hmiddle Hsecond Hin1 Hreport1 Hin2 Hreport2.
  rewrite (transform_finish_report self first s p1 report1 Hin1 Hreport1).
  rewrite (transform_finish_report self second _ p2 report2 Hin2 Hreport2).
  rewrite (transform_report_frame self second _ Hsecond).
  rewrite stateAfter_pipeThrough_cons.
  now rewrite (pipeThrough_report_frame self middle _ Hmiddle).
Qed.

Lemma reports_of_one_run_agree_example :
  let s := stateAfter (transform difyModel (Success workflowStartedEvent))
             initialState in
  let p1 :=
    finish "stop"
      {| inputTokens := VNum 0; outputTokens := VNum 42;
         totalTokens := VNum 42 |}
      {| md_conversationId := None; md_messageId := None;
         md_taskId := None; md_workflowExecution := Some runReport |} in
  let p2 :=
    finish "stop"
      {| inputTokens := VUndef; outputTokens := VNum 0;
         totalTokens := VUndef |}
      {| md_conversationId := None; md_messageId := None;
         md_taskId := None; md_workflowExecution := Some runReport |} in
  In p1 (enqueued (transform difyModel (Success workflowFinishedEvent)) s)
  /\ In p2
       (enqueued (transform difyModel (Success messageEndEvent))
          (stateAfter
             (pipeThrough difyModel
                [Success workflowFinishedEvent; Success (messageEvent "hi")])
             s))
  /\ reportOn p1 = reportOn p2.
Proof.
  cbv zeta.
  split; [cbv; tauto | ].
  split; [cbv; tauto | ].
  cbn [reportOn md_workflowExecution]. apply (f_equal Some).
  apply (reports_of_one_run_agree difyModel
           (stateAfter (transform difyModel (Success workflowStartedEvent))
              initialState)
           (Success workflowFinishedEvent)
           [Success (messageEvent "hi")]
           (Success messageEndEvent)
           (finish "stop"
              {| inputTokens := VNum 0; outputTokens := VNum 42;
                 totalTokens := VNum 42 |}
              {| md_conversationId := None; md_messageId := None;
                 md_taskId := None; md_workflowExecution := Some runReport |})
           (finish "stop"
              {| inputTokens := VUndef; outputTokens := VNum 0;
                 totalTokens := VUndef |}
              {| md_conversationId := None; md_messageId := None;
                 md_taskId := None; md_workflowExecution := Some runReport |})
           (Some runReport) (Some runReport));
    first [ reflexivity
          | solve [cbv; tauto]
          | solve [repeat constructor] ].
Defined.
